(** * AI Employee vault: watcher and orchestrator, embedded in Rocq

    A shallow embedding of [scripts/base_watcher.py],
    [scripts/filesystem_watcher.py] and [scripts/orchestrator.py].

    Python values are modelled as follows.
    - [str] is a sequence of Unicode code points: [list Z].
    - [dict] is a [gmap], [set] is a [gset]; a directory is a [gmap] from
      entry names to nodes, and [iterdir] lists it with [map_to_list].
    - Methods that touch the disk, the clock or the logger are computations
      in a state-and-exception monad over the process state; [try/except]
      is the handler [try_except].
    - Library functions whose tables are not part of the repository
      (Unicode case mapping and classification beyond Latin-1, MD5, text
      decoding, the encoding of the locale) are fields of type classes:
      [Unicode], [Codec], [Casing] and [Locale].
    - The clock, the operations that the operating system refuses, the
      presence of the external tool and the local time zone are given by
      an environment [env].  A refused operation raises [OSError] and
      leaves the disk as it was; nothing but the method under study
      changes the disk while it runs. *)

From Stdlib Require Import ZArith Lia Ascii String Decimal DecimalNat DecimalFacts.
From stdpp Require Import gmap strings list fin_maps functions.

Local Open Scope Z_scope.

(** ** Python strings *)

Module Py.

(** Code points of an ASCII literal. *)
Definition lit (s : string) : list Z :=
  map (λ a, Z.of_N (N_of_ascii a)) (list_ascii_of_string s).

(** The parts of the Unicode database that Python consults for code points
    the model does not tabulate itself: whether a code point is
    alphanumeric, its lower-case form, and whether a capital sigma is the
    last letter of its word, given what stands before it and behind it. *)
Class Unicode := {
  uni_isalnum : Z → bool;
  uni_lower : Z → list Z;
  uni_final_sigma : list Z → list Z → bool
}.

(** [s.startswith(p)] *)
Fixpoint startswith (p s : list Z) : bool :=
  match p, s with
  | [], _ => true
  | _ :: _, [] => false
  | a :: p', b :: s' => (a =? b) && startswith p' s'
  end.

(** [s.endswith(p)] *)
Definition endswith (p s : list Z) : bool :=
  startswith (reverse p) (reverse s).

(** [sub in s] *)
Fixpoint contains (sub s : list Z) : bool :=
  startswith sub s ||
  match s with
  | [] => false
  | _ :: s' => contains sub s'
  end.

(** [s.find(sub)], with [None] for -1. *)
Fixpoint find (sub s : list Z) : option nat :=
  if startswith sub s then Some 0%nat
  else match s with
       | [] => None
       | _ :: s' => S <$> find sub s'
       end.

(** [s.rfind(c)] for a single character [c]. *)
Fixpoint rfind (c : Z) (s : list Z) : option nat :=
  match s with
  | [] => None
  | x :: s' =>
    match rfind c s' with
    | Some i => Some (S i)
    | None => if x =? c then Some 0%nat else None
    end
  end.

(** [s.replace(old, new)]: occurrences are found left to right and do not
    overlap.  [skip] counts the characters of a matched occurrence that are
    still to be dropped. *)
Fixpoint replace_from (old new : list Z) (skip : nat) (s : list Z) : list Z :=
  match s with
  | [] => []
  | c :: s' =>
    match skip with
    | S k => replace_from old new k s'
    | O =>
      if startswith old s
      then new ++ replace_from old new (length old - 1) s'
      else c :: replace_from old new 0 s'
    end
  end.

Definition replace (old new s : list Z) : list Z :=
  match old with
  | [] => new ++ flat_map (λ c, c :: new) s
  | _ :: _ => replace_from old new 0 s
  end.

(** [c.lower()] for one code point: ASCII and Latin-1 are tabulated, the
    rest is the Unicode database's. *)
Definition lower_char `{Unicode} (c : Z) : list Z :=
  if (65 <=? c) && (c <=? 90) then [c + 32]
  else if c <? 192 then [c]
  else if c <? 256 then
    if (c <=? 222) && negb (c =? 215) then [c + 32] else [c]
  else uni_lower c.

(** [s.lower()]: every code point has its own lower-case form, except the
    capital sigma (U+03A3), whose form depends on its place in the word.
    [before] is the part of the string that has been passed. *)
Fixpoint lower_from `{Unicode} (before s : list Z) : list Z :=
  match s with
  | [] => []
  | c :: s' =>
    (if c =? 931 then [if uni_final_sigma before s' then 962 else 963]
     else lower_char c)
    ++ lower_from (before ++ [c]) s'
  end.

Definition lower `{Unicode} (s : list Z) : list Z := lower_from [] s.

(** [c.isalnum()] for one code point. *)
Definition isalnum `{Unicode} (c : Z) : bool :=
  if c <? 256 then
    ((48 <=? c) && (c <=? 57)) || ((65 <=? c) && (c <=? 90)) ||
    ((97 <=? c) && (c <=? 122)) ||
    (c =? 170) || (c =? 178) || (c =? 179) || (c =? 181) ||
    (c =? 185) || (c =? 186) || ((188 <=? c) && (c <=? 190)) ||
    ((192 <=? c) && (c <=? 214)) || ((216 <=? c) && (c <=? 246)) ||
    (248 <=? c)
  else uni_isalnum c.

(** [str(n)] for a non-negative integer. *)
Fixpoint uint_digits (d : Decimal.uint) : list Z :=
  match d with
  | Nil => []
  | D0 d => 48 :: uint_digits d
  | D1 d => 49 :: uint_digits d
  | D2 d => 50 :: uint_digits d
  | D3 d => 51 :: uint_digits d
  | D4 d => 52 :: uint_digits d
  | D5 d => 53 :: uint_digits d
  | D6 d => 54 :: uint_digits d
  | D7 d => 55 :: uint_digits d
  | D8 d => 56 :: uint_digits d
  | D9 d => 57 :: uint_digits d
  end.

Definition str_of_nat (n : nat) : list Z := uint_digits (Nat.to_uint n).

(** [PurePath.suffix] of a final path component (CPython up to 3.13). *)
Definition suffix (name : list Z) : list Z :=
  match rfind 46 name with
  | Some i =>
    if (0 <? i)%nat && (i <? length name - 1)%nat then drop i name else []
  | None => []
  end.

(** [PurePath.stem] *)
Definition stem (name : list Z) : list Z :=
  match rfind 46 name with
  | Some i =>
    if (0 <? i)%nat && (i <? length name - 1)%nat then take i name else name
  | None => name
  end.

End Py.

Import Py.


(** ** Effects: process state, exceptions, [try/except] *)

Module Eff.

Inductive exn :=
  | OSError (path : list Z)
  | JSONDecodeError
  | AttributeError
  | OverflowError
  | UnicodeEncodeError.

(** [str(e)] as it appears in log messages. *)
Definition str_exn (e : exn) : list Z :=
  match e with
  | OSError p => lit "[Errno] " ++ p
  | JSONDecodeError => lit "Expecting value"
  | AttributeError => lit "object has no attribute 'append'"
  | OverflowError => lit "date value out of range"
  | UnicodeEncodeError => lit "codec can't encode characters"
  end.

(** A computation over a process state [S]: it returns a value or raises,
    and in both cases leaves a state behind. *)
Definition M (S A : Type) : Type := S → (A + exn) * S.

Definition ret {S A} (a : A) : M S A := λ s, (inl a, s).

Definition bind {S A B} (m : M S A) (k : A → M S B) : M S B :=
  λ s, match m s with
       | (inl a, s') => k a s'
       | (inr e, s') => (inr e, s')
       end.

Definition raise {S A} (e : exn) : M S A := λ s, (inr e, s).

(** [try: m  except Exception as e: h e] *)
Definition try_except {S A} (m : M S A) (h : exn → M S A) : M S A :=
  λ s, match m s with
       | (inl a, s') => (inl a, s')
       | (inr e, s') => h e s'
       end.

Definition get {S} : M S S := λ s, (inl s, s).
Definition modify {S} (f : S → S) : M S unit := λ s, (inl tt, f s).

(** [for x in l: body x] *)
Fixpoint for_each {S A} (l : list A) (body : A → M S unit) : M S unit :=
  match l with
  | [] => ret tt
  | x :: l' => bind (body x) (λ _, for_each l' body)
  end.

(** A loop that carries a local variable. *)
Fixpoint fold_each {S A B} (l : list A) (body : B → A → M S B) (b : B) : M S B :=
  match l with
  | [] => ret b
  | x :: l' => bind (body b x) (fold_each l' body)
  end.

Module Notations.
  Notation "'do' x <- m ; k" := (bind m (λ x, k))
    (at level 10, x name, m at level 100, k at level 200).
  Notation "'run' m ; k" := (bind m (λ _, k))
    (at level 10, m at level 100, k at level 200).
End Notations.

End Eff.

Import Eff Eff.Notations.

(** ** The clock *)

Module Clock.

(** One reading of [datetime.now()], with the POSIX timestamp of the same
    instant. *)
Record datetime := {
  year : nat; month : nat; day : nat;
  hour : nat; minute : nat; second : nat; microsecond : nat;
  timestamp : Z
}.

(** Zero padding to a width, as [%m], [%d], [%H], [%M], [%S], [%f], and as
    [%Y] for the years of four digits that [datetime.now()] yields. *)
Definition pad (width : nat) (n : nat) : list Z :=
  let d := str_of_nat n in
  replicate (width - length d) 48 ++ d.

(** [strftime('%Y-%m-%d')] *)
Definition fmt_date (t : datetime) : list Z :=
  pad 4 (year t) ++ lit "-" ++ pad 2 (month t) ++ lit "-" ++ pad 2 (day t).

(** [strftime('%Y-%m-%d %H:%M:%S')] *)
Definition fmt_date_time (t : datetime) : list Z :=
  fmt_date t ++ lit " " ++ pad 2 (hour t) ++ lit ":" ++ pad 2 (minute t)
    ++ lit ":" ++ pad 2 (second t).

(** [strftime('%Y-%m-%d_%H-%M-%S')] *)
Definition fmt_file_stamp (t : datetime) : list Z :=
  fmt_date t ++ lit "_" ++ pad 2 (hour t) ++ lit "-" ++ pad 2 (minute t)
    ++ lit "-" ++ pad 2 (second t).

(** [strftime('%Y%m%d_%H%M%S')] *)
Definition fmt_compact (t : datetime) : list Z :=
  pad 4 (year t) ++ pad 2 (month t) ++ pad 2 (day t) ++ lit "_"
    ++ pad 2 (hour t) ++ pad 2 (minute t) ++ pad 2 (second t).

(** [isoformat()]: the fraction is printed only when it is not zero. *)
Definition isoformat (t : datetime) : list Z :=
  fmt_date t ++ lit "T" ++ pad 2 (hour t) ++ lit ":" ++ pad 2 (minute t)
    ++ lit ":" ++ pad 2 (second t)
    ++ (if (microsecond t =? 0)%nat then [] else lit "." ++ pad 6 (microsecond t)).

(** The fields that Python compares when it compares two naive
    [datetime] objects: everything but the time stamp. *)
Definition wall (t : datetime) : list nat :=
  [year t; month t; day t; hour t; minute t; second t; microsecond t].

Fixpoint lex_le (a b : list nat) : bool :=
  match a, b with
  | x :: a', y :: b' => (x <? y)%nat || ((x =? y)%nat && lex_le a' b')
  | _, _ => true
  end.

(** [a <= b] for naive datetimes. *)
Definition naive_le (a b : datetime) : bool := lex_le (wall a) (wall b).

Definition is_leap (y : nat) : bool :=
  ((y mod 4 =? 0)%nat && negb (y mod 100 =? 0)%nat) || (y mod 400 =? 0)%nat.

Definition days_in_month (y m : nat) : nat :=
  match m with
  | 2 => if is_leap y then 29 else 28
  | 4 | 6 | 9 | 11 => 30
  | _ => 31
  end%nat.

(** [t - timedelta(days=7)] for a naive datetime: the same time of day on
    the calendar day seven days earlier, whatever the time zone did in
    between; [None] stands for the [OverflowError] before the year 1.
    The [timestamp] of the result is the instant 604800 seconds earlier,
    which is the instant that the result names only where the zone has
    kept its offset; it plays no part in what follows. *)
Definition week_before (t : datetime) : option datetime :=
  let at_day (y m d : nat) :=
    {| year := y; month := m; day := d; hour := hour t; minute := minute t;
       second := second t; microsecond := microsecond t;
       timestamp := timestamp t - 604800 |} in
  if (7 <? day t)%nat then Some (at_day (year t) (month t) (day t - 7)%nat)
  else if (1 <? month t)%nat
  then Some (at_day (year t) (month t - 1)%nat
               (day t + days_in_month (year t) (month t - 1) - 7)%nat)
  else if (1 <? year t)%nat
  then Some (at_day (year t - 1)%nat 12%nat (day t + 31 - 7)%nat)
  else None.

End Clock.

Import Clock.

(** ** Files on disk *)

Inductive io_op := OpRead | OpWrite | OpMove | OpList.

(** What the process cannot control: the clock, I/O operations that the
    operating system refuses, whether the external tool is installed, and
    the local time zone.  [which_rc] is the return code of
    [which <command>], [None] when running [which] itself raises.
    [localtime] is [datetime.fromtimestamp]: the naive local time of a
    time stamp such as [st_mtime], [None] when the conversion raises. *)
Record env := {
  clock : nat → datetime;
  fault : io_op → list Z → bool;
  which_rc : option Z;
  localtime : Z → option datetime
}.

(** A directory entry.  For a dropped file [content] holds its bytes, for a
    vault document its text.  [mtime] is the time of the last modification
    as the file system keeps it; the program reads it as a local date and
    time, through [localtime]. *)
Inductive node :=
  | File (content : list Z) (mtime : Z)
  | Dir (mtime : Z).

Definition is_file (n : node) : bool :=
  match n with File _ _ => true | Dir _ => false end.

(** [stat().st_mtime] *)
Definition st_mtime (n : node) : Z :=
  match n with File _ t => t | Dir t => t end.

(** JSON values, as far as the state and log files use them. *)
#[warnings="-register-all"]
Inductive json :=
  | JNull
  | JStr (s : list Z)
  | JList (l : list json)
  | JObj (kv : list (list Z * json)).

(** The content of a [.json] file: text that [json.load] rejects, or the
    document it returns. *)
Inductive payload :=
  | Garbage
  | Doc (j : json).

Inductive level := DEBUG | INFO | WARNING | ERROR.

(** [Path / name] followed by [str]. *)
Definition joinpath (dir name : list Z) : list Z := dir ++ lit "/" ++ name.

(** ** base_watcher.py and filesystem_watcher.py *)

Module Watcher.

(** [hashlib.md5] over the whole content, and [bytes.decode(errors='ignore')]
    as [Path.read_text] applies it. *)
Class Codec := {
  md5_hexdigest : list Z → list Z;
  decode_ignore : list Z → list Z
}.

(** One element of the list that [check_for_updates] returns. *)
Record item := {
  file_path : list Z;
  file_name : list Z;
  file_size : nat;
  file_type : list Z;
  hash : list Z;
  priority : list Z;
  content_preview : list Z
}.

(** The watcher object together with the parts of the disk it uses.
    [drop_dir] and [scripts_dir] are [None] when the directory does not
    exist. *)
Record world := {
  vault_path : list Z;
  drop_folder : list Z;
  running : bool;
  processed_ids : gset (list Z);
  file_hashes : gmap (list Z) (list Z);
  drop_dir : option (gmap (list Z) node);
  scripts_dir : option (gmap (list Z) payload);
  logger : list (level * list Z);
  ticks : nat
}.

Definition set_file_hashes (h : gmap (list Z) (list Z)) (w : world) : world :=
  {| vault_path := vault_path w; drop_folder := drop_folder w;
     running := running w; processed_ids := processed_ids w;
     file_hashes := h; drop_dir := drop_dir w;
     scripts_dir := scripts_dir w; logger := logger w; ticks := ticks w |}.

Definition set_drop_dir (d : option (gmap (list Z) node)) (w : world) : world :=
  {| vault_path := vault_path w; drop_folder := drop_folder w;
     running := running w; processed_ids := processed_ids w;
     file_hashes := file_hashes w; drop_dir := d;
     scripts_dir := scripts_dir w; logger := logger w; ticks := ticks w |}.

Definition set_scripts_dir (d : option (gmap (list Z) payload)) (w : world) : world :=
  {| vault_path := vault_path w; drop_folder := drop_folder w;
     running := running w; processed_ids := processed_ids w;
     file_hashes := file_hashes w; drop_dir := drop_dir w;
     scripts_dir := d; logger := logger w; ticks := ticks w |}.

Definition set_logger (l : list (level * list Z)) (w : world) : world :=
  {| vault_path := vault_path w; drop_folder := drop_folder w;
     running := running w; processed_ids := processed_ids w;
     file_hashes := file_hashes w; drop_dir := drop_dir w;
     scripts_dir := scripts_dir w; logger := l; ticks := ticks w |}.

Definition set_ticks (n : nat) (w : world) : world :=
  {| vault_path := vault_path w; drop_folder := drop_folder w;
     running := running w; processed_ids := processed_ids w;
     file_hashes := file_hashes w; drop_dir := drop_dir w;
     scripts_dir := scripts_dir w; logger := logger w; ticks := n |}.

(** [self.priority_keywords] *)
Inductive tier := high | medium | low.

Definition tier_name (t : tier) : list Z :=
  match t with
  | high => lit "high"
  | medium => lit "medium"
  | low => lit "low"
  end.

Definition priority_keywords (t : tier) : list (list Z) :=
  match t with
  | high => [lit "urgent"; lit "asap"; lit "emergency"; lit "important"; lit "priority"]
  | medium => [lit "invoice"; lit "payment"; lit "deadline"; lit "review"]
  | low => [lit "note"; lit "reference"; lit "info"; lit "FYI"]
  end.

(** The extensions whose content is read for the preview. *)
Definition text_suffixes : list (list Z) :=
  [lit ".txt"; lit ".md"; lit ".json"; lit ".csv"; lit ".log"].

Section Methods.
Context `{Unicode} `{Codec} (E : env).

Definition log (l : level) (msg : list Z) : M world unit :=
  modify (λ w, set_logger (logger w ++ [(l, msg)]) w).

(** [datetime.now()] *)
Definition now : M world datetime :=
  λ w, (inl (clock E (ticks w)), set_ticks (S (ticks w)) w).

(** [str(self.drop_folder / name)] *)
Definition drop_path (w : world) (name : list Z) : list Z :=
  joinpath (drop_folder w) name.

Definition scripts_path (w : world) (name : list Z) : list Z :=
  joinpath (joinpath (vault_path w) (lit "scripts")) name.

(** [open(file_path, 'rb')] followed by reading to the end. *)
Definition read_bytes (name : list Z) : M world (list Z) :=
  λ w, match drop_dir w with
       | Some d =>
         match d !! name with
         | Some (File data _) =>
           if fault E OpRead (drop_path w name)
           then (inr (OSError (drop_path w name)), w)
           else (inl data, w)
         | _ => (inr (OSError (drop_path w name)), w)
         end
       | None => (inr (OSError (drop_path w name)), w)
       end.

(** [open(state_file, 'w')] followed by [json.dump]. *)
Definition write_json (name : list Z) (j : json) : M world unit :=
  λ w, match scripts_dir w with
       | Some d =>
         if fault E OpWrite (scripts_path w name)
         then (inr (OSError (scripts_path w name)), w)
         else (inl tt, set_scripts_dir (Some (<[name := Doc j]> d)) w)
       | None => (inr (OSError (scripts_path w name)), w)
       end.

(** [BaseWatcher._save_state] *)
Definition _save_state : M world unit :=
  try_except
    (do t <- now;
     do w <- get;
     let state := JObj [(lit "processed_ids", JList (JStr <$> elements (processed_ids w)));
                        (lit "last_updated", JStr (isoformat t))] in
     write_json (lit "FileSystemWatcher_state.json") state)
    (λ e, log ERROR (lit "Could not save state: " ++ str_exn e)).

(** The identifier as [BaseWatcher._generate_filename] sanitizes it. *)
Definition safe_id (identifier : list Z) : list Z :=
  (λ c, if isalnum c || contains [c] (lit "-_") then c else 95) <$> identifier.

(** [BaseWatcher._generate_filename] *)
Definition _generate_filename (prefix identifier : list Z) : M world (list Z) :=
  do t <- now;
  let timestamp := fmt_file_stamp t in
  ret (prefix ++ lit "_" ++ safe_id identifier ++ lit "_" ++ timestamp ++ lit ".md").

(** [FileSystemWatcher._save_file_hashes] *)
Definition _save_file_hashes : M world unit :=
  try_except
    (do w <- get;
     write_json (lit "filesystem_watcher_hashes.json")
       (JObj (prod_map id JStr <$> map_to_list (file_hashes w))))
    (λ e, log ERROR (lit "Could not save file hashes: " ++ str_exn e)).

(** [FileSystemWatcher._calculate_hash] *)
Definition _calculate_hash (name : list Z) : M world (list Z) :=
  try_except
    (do data <- read_bytes name;
     ret (md5_hexdigest data))
    (λ e, do w <- get;
          run log ERROR (lit "Error calculating hash for " ++ drop_path w name
                           ++ lit ": " ++ str_exn e);
          ret []).

(** [FileSystemWatcher._detect_priority] *)
Definition _detect_priority (filename content : list Z) : list Z :=
  let text := lower (filename ++ lit " " ++ content) in
  if existsb (λ keyword, contains keyword text) (priority_keywords high)
  then lit "high"
  else if existsb (λ keyword, contains keyword text) (priority_keywords medium)
  then lit "medium"
  else lit "low".

(** The body of the loop of [check_for_updates] for one regular file. *)
Definition check_file (new_files : list item) (name : list Z) (size : nat)
  : M world (list item) :=
  if startswith (lit ".") name || bool_decide (suffix name = lit ".tmp")
  then ret new_files
  else
    do current_hash <- _calculate_hash name;
    if bool_decide (current_hash = []) then ret new_files
    else
      do w <- get;
      let stored_hash := file_hashes w !! drop_path w name in
      if bool_decide (stored_hash ≠ Some current_hash) then
        run log INFO (lit "New/modified file detected: " ++ name);
        do content <-
          try_except
            (if bool_decide (suffix name ∈ text_suffixes)
             then do data <- read_bytes name; ret (take 1000 (decode_ignore data))
             else ret [])
            (λ e, run log WARNING (lit "Could not read file content: " ++ str_exn e);
                  ret []);
        let priority := _detect_priority name content in
        run modify (λ w, set_file_hashes
                           (<[drop_path w name := current_hash]> (file_hashes w)) w);
        ret (new_files ++
             [{| file_path := drop_path w name;
                 file_name := name;
                 file_size := size;
                 file_type := suffix name;
                 hash := current_hash;
                 priority := priority;
                 content_preview := take 200 content |}])
      else ret new_files.

(** The files that [check_for_updates] looks at:
    [[f for f in self.drop_folder.iterdir() if f.is_file()]]. *)
Definition listing (d : gmap (list Z) node) : list (list Z * node) :=
  filter (λ f, is_file f.2 = true) (map_to_list d).

(** [self.drop_folder.iterdir()] with the filter on regular files. *)
Definition list_drop_folder : M world (list (list Z * node)) :=
  λ w, match drop_dir w with
       | Some d => (inl (listing d), w)
       | None => (inr (OSError (drop_folder w)), w)
       end.

(** The body of the loop of [check_for_updates]. *)
Definition loop_body (new_files : list item) (f : list Z * node)
  : M world (list item) :=
  match f.2 with
  | File data _ => check_file new_files f.1 (length data)
  | Dir _ => ret new_files
  end.

(** [FileSystemWatcher.check_for_updates].  The folder does not change
    during a scan, so within the [try] block only [iterdir] raises, and it
    does so before [new_files] has grown. *)
Definition check_for_updates : M world (list item) :=
  try_except
    (do files <- list_drop_folder;
     do new_files <- fold_each files loop_body [];
     run _save_file_hashes;
     ret new_files)
    (λ e, run log ERROR (lit "Error checking drop folder: " ++ str_exn e);
          ret []).

End Methods.

(** *** The priority classification in the words of the specification *)

(** The keyword occurs in the text regardless of case. *)
Definition ci_contains `{Unicode} (keyword text : list Z) : bool :=
  contains (lower keyword) (lower text).

(** The first of the three tiers, in the order high, medium, low, one of
    whose keywords occurs in the text; [low] when there is none. *)
Definition classify `{Unicode} (text : list Z) : list Z :=
  match List.find (λ t, existsb (λ k, ci_contains k text) (priority_keywords t))
                  [high; medium; low] with
  | Some t => tier_name t
  | None => lit "low"
  end.

(** The text that the specification classifies: the file name concatenated
    with the preview. *)
Definition spec_priority `{Unicode} (filename preview : list Z) : list Z :=
  classify (filename ++ preview).

(** *** The scan as a function of the fingerprints

    What the loop of [check_for_updates] computes, written without the
    monad: the state of the loop is the list [new_files] and the dictionary
    [file_hashes]. *)

Section Scan.
Context `{Unicode} `{Codec} (E : env) (folder : list Z).

(** The value of [_calculate_hash] for a regular file with content
    [data]. *)
Definition fingerprint (name data : list Z) : list Z :=
  if fault E OpRead (joinpath folder name) then [] else md5_hexdigest data.

(** Neither hidden nor temporary. *)
Definition eligible (name : list Z) : bool :=
  negb (startswith (lit ".") name || bool_decide (suffix name = lit ".tmp")).

(** The file is appended to [new_files]. *)
Definition changed (hashes : gmap (list Z) (list Z)) (name data : list Z) : bool :=
  eligible name
  && negb (bool_decide (fingerprint name data = []))
  && bool_decide (hashes !! joinpath folder name ≠ Some (fingerprint name data)).

Definition entry_item (name data : list Z) : item :=
  let content :=
    if bool_decide (suffix name ∈ text_suffixes)
    then take 1000 (decode_ignore data) else [] in
  {| file_path := joinpath folder name;
     file_name := name;
     file_size := length data;
     file_type := suffix name;
     hash := fingerprint name data;
     priority := _detect_priority name content;
     content_preview := take 200 content |}.

Definition scan_step (st : list item * gmap (list Z) (list Z))
    (e : list Z * node) : list item * gmap (list Z) (list Z) :=
  match e.2 with
  | File data _ =>
    if changed st.2 e.1 data
    then (st.1 ++ [entry_item e.1 data],
          <[joinpath folder e.1 := fingerprint e.1 data]> st.2)
    else st
  | Dir _ => st
  end.

Definition scan (l : list (list Z * node))
    (st : list item * gmap (list Z) (list Z)) : list item * gmap (list Z) (list Z) :=
  foldl scan_step st l.

(** The items of the files of [l] that differ from one fixed dictionary. *)
Definition hits (hashes : gmap (list Z) (list Z)) (l : list (list Z * node))
  : list item :=
  flat_map (λ e : list Z * node,
              match e.2 with
              | File data _ =>
                if changed hashes e.1 data then [entry_item e.1 data] else []
              | Dir _ => []
              end) l.

End Scan.

(** Fields of the world that a scan leaves alone. *)
Definition frame (w w' : world) : Prop :=
  vault_path w' = vault_path w ∧ drop_folder w' = drop_folder w ∧
  drop_dir w' = drop_dir w ∧ scripts_dir w' = scripts_dir w ∧
  ticks w' = ticks w.

(** A node with its modification time erased. *)
Definition strip_mtime (n : node) : node :=
  match n with
  | File content _ => File content 0
  | Dir _ => Dir 0
  end.

(** The character class [[A-Za-z0-9_-]] of the specification. *)
Definition name_class (c : Z) : bool :=
  ((48 <=? c) && (c <=? 57)) || ((65 <=? c) && (c <=? 90)) ||
  ((97 <=? c) && (c <=? 122)) || (c =? 95) || (c =? 45).

End Watcher.

(** ** orchestrator.py *)

Module Orchestrator.

(** The folders of the vault that hold documents. *)
Inductive folder := Inbox | Needs_Action | Plans | Approved | Rejected | Done.

#[global] Instance folder_eq_dec : EqDecision folder.
Proof. solve_decision. Defined.

Definition folder_name (f : folder) : list Z :=
  match f with
  | Inbox => lit "Inbox"
  | Needs_Action => lit "Needs_Action"
  | Plans => lit "Plans"
  | Approved => lit "Approved"
  | Rejected => lit "Rejected"
  | Done => lit "Done"
  end.

(** The orchestrator object together with the vault on disk.
    [dashboard_file] is [None] when [Dashboard.md] does not exist, and
    [scripts_dir] when the [scripts] directory does not; [logs_dir] holds
    the daily [.json] files of the [Logs] folder. *)
Record world := {
  vault_path : list Z;
  running : bool;
  processed_files : gset (list Z);
  claude_command : list Z;
  folders : folder → gmap (list Z) node;
  dashboard_file : option (list Z);
  logs_dir : gmap (list Z) payload;
  scripts_dir : option (gmap (list Z) payload);
  logger : list (level * list Z);
  ticks : nat
}.

Definition set_running (b : bool) (w : world) : world :=
  {| vault_path := vault_path w; running := b;
     processed_files := processed_files w; claude_command := claude_command w;
     folders := folders w; dashboard_file := dashboard_file w;
     logs_dir := logs_dir w; scripts_dir := scripts_dir w;
     logger := logger w; ticks := ticks w |}.

Definition set_processed_files (p : gset (list Z)) (w : world) : world :=
  {| vault_path := vault_path w; running := running w;
     processed_files := p; claude_command := claude_command w;
     folders := folders w; dashboard_file := dashboard_file w;
     logs_dir := logs_dir w; scripts_dir := scripts_dir w;
     logger := logger w; ticks := ticks w |}.

Definition set_folders (d : folder → gmap (list Z) node) (w : world) : world :=
  {| vault_path := vault_path w; running := running w;
     processed_files := processed_files w; claude_command := claude_command w;
     folders := d; dashboard_file := dashboard_file w;
     logs_dir := logs_dir w; scripts_dir := scripts_dir w;
     logger := logger w; ticks := ticks w |}.

Definition set_dashboard_file (d : option (list Z)) (w : world) : world :=
  {| vault_path := vault_path w; running := running w;
     processed_files := processed_files w; claude_command := claude_command w;
     folders := folders w; dashboard_file := d;
     logs_dir := logs_dir w; scripts_dir := scripts_dir w;
     logger := logger w; ticks := ticks w |}.

Definition set_logs_dir (d : gmap (list Z) payload) (w : world) : world :=
  {| vault_path := vault_path w; running := running w;
     processed_files := processed_files w; claude_command := claude_command w;
     folders := folders w; dashboard_file := dashboard_file w;
     logs_dir := d; scripts_dir := scripts_dir w;
     logger := logger w; ticks := ticks w |}.

Definition set_scripts_dir (d : option (gmap (list Z) payload)) (w : world) : world :=
  {| vault_path := vault_path w; running := running w;
     processed_files := processed_files w; claude_command := claude_command w;
     folders := folders w; dashboard_file := dashboard_file w;
     logs_dir := logs_dir w; scripts_dir := d;
     logger := logger w; ticks := ticks w |}.

Definition set_logger (l : list (level * list Z)) (w : world) : world :=
  {| vault_path := vault_path w; running := running w;
     processed_files := processed_files w; claude_command := claude_command w;
     folders := folders w; dashboard_file := dashboard_file w;
     logs_dir := logs_dir w; scripts_dir := scripts_dir w;
     logger := l; ticks := ticks w |}.

Definition set_ticks (n : nat) (w : world) : world :=
  {| vault_path := vault_path w; running := running w;
     processed_files := processed_files w; claude_command := claude_command w;
     folders := folders w; dashboard_file := dashboard_file w;
     logs_dir := logs_dir w; scripts_dir := scripts_dir w;
     logger := logger w; ticks := n |}.

(** [str(self.<folder>)], [str(self.<folder> / name)] and the other paths. *)
Definition folder_path (w : world) (f : folder) : list Z :=
  joinpath (vault_path w) (folder_name f).

Definition file_path (w : world) (f : folder) (name : list Z) : list Z :=
  joinpath (folder_path w f) name.

Definition dashboard_path (w : world) : list Z :=
  joinpath (vault_path w) (lit "Dashboard.md").

Definition log_path (w : world) (name : list Z) : list Z :=
  joinpath (joinpath (vault_path w) (lit "Logs")) name.

Definition scripts_path (w : world) (name : list Z) : list Z :=
  joinpath (joinpath (vault_path w) (lit "scripts")) name.

(** [f.suffix == '.md' and f.is_file()] *)
Definition is_md_file (e : list Z * node) : bool :=
  bool_decide (suffix e.1 = lit ".md") && is_file e.2.

(** [sorted(files, key=lambda f: f.stat().st_mtime)]: a stable sort. *)
Fixpoint insert_by_mtime (x : list Z * node) (l : list (list Z * node))
  : list (list Z * node) :=
  match l with
  | [] => [x]
  | y :: l' =>
    if st_mtime x.2 <=? st_mtime y.2 then x :: y :: l'
    else y :: insert_by_mtime x l'
  end.

Definition sorted_by_mtime (l : list (list Z * node)) : list (list Z * node) :=
  foldr insert_by_mtime [] l.

(** The status strings of the dashboard, as the source file spells them. *)
Definition status_running : list Z := [240; 376; 376; 162] ++ lit " Running".
Definition status_stopped : list Z := [240; 376; 8221; 180] ++ lit " Stopped".

(** The loop of [update_dashboard] over [replacements.items()]. *)
Definition render (replacements : list (list Z * list Z)) (content : list Z)
  : list Z :=
  foldl (λ content r, replace r.1 r.2 content) content replacements.

(** The plan document that [process_with_claude] writes. *)
Definition plan_content (created action_name : list Z) : list Z :=
  lit "---
created: " ++ created ++ lit "
status: in_progress
source_file: " ++ action_name ++ lit "
---

# Plan for Processing: " ++ action_name ++ lit "

## Objective
Process the action file and complete the required task.

## Steps
- [x] Read action file
- [ ] Analyze requirements
- [ ] Execute required actions
- [ ] Update Dashboard
- [ ] Move to /Done when complete

## Notes
*Plan created by Orchestrator (Bronze Tier - Claude simulation)*
".

(** The local variables of [update_dashboard] that hold counts. *)
Record counts := {
  inbox_count : nat;
  needs_action_count : nat;
  pending_approval_count : nat;
  approved_count : nat;
  active_plans_count : nat;
  completed_today : nat;
  completed_this_week : nat
}.

Section Methods.
Context (E : env).

Definition log (l : level) (msg : list Z) : M world unit :=
  modify (λ w, set_logger (logger w ++ [(l, msg)]) w).

(** [datetime.now()] *)
Definition now : M world datetime :=
  λ w, (inl (clock E (ticks w)), set_ticks (S (ticks w)) w).

(** [folder.iterdir()] *)
Definition iterdir (f : folder) : M world (list (list Z * node)) :=
  λ w, if fault E OpList (folder_path w f)
       then (inr (OSError (folder_path w f)), w)
       else (inl (map_to_list (folders w f)), w).

(** [(folder / name).read_text()] *)
Definition read_text (f : folder) (name : list Z) : M world (list Z) :=
  λ w, match folders w f !! name with
       | Some (File content _) =>
         if fault E OpRead (file_path w f name)
         then (inr (OSError (file_path w f name)), w)
         else (inl content, w)
       | _ => (inr (OSError (file_path w f name)), w)
       end.

(** [(folder / name).write_text(content)]; the file gets the current time
    as its modification time. *)
Definition write_text (f : folder) (name content : list Z) : M world unit :=
  λ w, match folders w f !! name with
       | Some (Dir _) => (inr (OSError (file_path w f name)), w)
       | _ =>
         if fault E OpWrite (file_path w f name)
         then (inr (OSError (file_path w f name)), w)
         else (inl tt,
               set_folders
                 (<[f := <[name := File content (timestamp (clock E (ticks w)))]>
                           (folders w f)]> (folders w)) w)
       end.

(** [shutil.move(str(src / name), str(dst / name))].  An existing regular
    file at the destination is replaced; when the destination is a
    directory (the model keeps directories without their content) the file
    is moved inside it and leaves the model. *)
Definition shutil_move (src : folder) (name : list Z) (dst : folder)
  : M world unit :=
  λ w, match folders w src !! name with
       | None => (inr (OSError (file_path w src name)), w)
       | Some n =>
         if fault E OpMove (file_path w src name)
         then (inr (OSError (file_path w src name)), w)
         else
           let removed := <[src := delete name (folders w src)]> (folders w) in
           match folders w dst !! name with
           | Some (Dir _) => (inl tt, set_folders removed w)
           | _ => (inl tt,
                   set_folders (<[dst := <[name := n]> (removed dst)]> removed) w)
           end
       end.

(** [Orchestrator._save_state] *)
Definition _save_state : M world unit :=
  try_except
    (do t <- now;
     do w <- get;
     let state := JObj [(lit "processed_files",
                         JList (JStr <$> elements (processed_files w)));
                        (lit "last_updated", JStr (isoformat t))] in
     λ w, match scripts_dir w with
          | Some d =>
            if fault E OpWrite (scripts_path w (lit "orchestrator_state.json"))
            then (inr (OSError (scripts_path w (lit "orchestrator_state.json"))), w)
            else (inl tt,
                  set_scripts_dir
                    (Some (<[lit "orchestrator_state.json" := Doc state]> d)) w)
          | None =>
            (inr (OSError (scripts_path w (lit "orchestrator_state.json"))), w)
          end)
    (λ e, log ERROR (lit "Could not save state: " ++ str_exn e)).

(** [Orchestrator._count_files_in_folder] *)
Definition _count_files_in_folder (f : folder) : M world nat :=
  try_except
    (do entries <- iterdir f;
     ret (length (filter (λ e, is_md_file e = true) entries)))
    (λ _, ret 0%nat).

(** [Orchestrator._get_today_completed_count] *)
Definition _get_today_completed_count : M world nat :=
  try_except
    (do t <- now;
     let today := fmt_date t in
     do entries <- iterdir Done;
     ret (length (filter (λ e : list Z * node,
                            bool_decide (suffix e.1 = lit ".md")
                            && contains today e.1 = true) entries)))
    (λ _, ret 0%nat).

(** [datetime.fromtimestamp(f.stat().st_mtime) >= week_ago], false when
    the conversion raises: both sides are naive local datetimes. *)
Definition modified_since (week_ago : datetime) (n : node) : bool :=
  match localtime E (st_mtime n) with
  | Some mtime => naive_le week_ago mtime
  | None => false
  end.

(** [Orchestrator._get_week_completed_count] *)
Definition _get_week_completed_count : M world nat :=
  try_except
    (do t <- now;
     match week_before t with
     | Some week_ago =>
       do entries <- iterdir Done;
       ret (length (filter (λ e : list Z * node,
                              bool_decide (suffix e.1 = lit ".md")
                              && modified_since week_ago e.2 = true) entries))
     | None => raise OverflowError
     end)
    (λ _, ret 0%nat).

(** The counts that [update_dashboard] takes before it reads the
    template. *)
Definition count_folders : M world counts :=
  do inbox_count <- _count_files_in_folder Inbox;
  do needs_action_count <- _count_files_in_folder Needs_Action;
  do pending_approval_count <- _count_files_in_folder Approved;
  do approved_count <- _count_files_in_folder Approved;
  do active_plans_count <- _count_files_in_folder Plans;
  do completed_today <- _get_today_completed_count;
  do completed_this_week <- _get_week_completed_count;
  ret {| inbox_count := inbox_count;
         needs_action_count := needs_action_count;
         pending_approval_count := pending_approval_count;
         approved_count := approved_count;
         active_plans_count := active_plans_count;
         completed_today := completed_today;
         completed_this_week := completed_this_week |}.

(** The dictionary [replacements] of [update_dashboard], in insertion
    order. *)
Definition replacements (c : counts) : M world (list (list Z * list Z)) :=
  do w <- get;
  do t1 <- now;
  do t2 <- now;
  ret [ (lit "{{pending_count}}", str_of_nat (needs_action_count c));
        (lit "{{active_plans_count}}", str_of_nat (active_plans_count c));
        (lit "{{completed_today}}", str_of_nat (completed_today c));
        (lit "{{completed_this_week}}", str_of_nat (completed_this_week c));
        (lit "{{inbox_count}}", str_of_nat (inbox_count c));
        (lit "{{needs_action_count}}", str_of_nat (needs_action_count c));
        (lit "{{pending_approval_count}}", str_of_nat (pending_approval_count c));
        (lit "{{approved_count}}", str_of_nat (approved_count c));
        (lit "{{watcher_status}}",
           if running w then status_running else status_stopped);
        (lit "{{orchestrator_status}}",
           if running w then status_running else status_stopped);
        (lit "{{last_sync}}", fmt_date_time t1);
        (lit "{{timestamp}}", isoformat t2) ].

(** [self.dashboard_file.read_text()] and [write_text]. *)
Definition read_dashboard : M world (list Z) :=
  λ w, match dashboard_file w with
       | Some content =>
         if fault E OpRead (dashboard_path w)
         then (inr (OSError (dashboard_path w)), w)
         else (inl content, w)
       | None => (inr (OSError (dashboard_path w)), w)
       end.

Definition write_dashboard (content : list Z) : M world unit :=
  λ w, if fault E OpWrite (dashboard_path w)
       then (inr (OSError (dashboard_path w)), w)
       else (inl tt, set_dashboard_file (Some content) w).

(** [Orchestrator.update_dashboard] *)
Definition update_dashboard : M world unit :=
  try_except
    (do w <- get;
     match dashboard_file w with
     | None => log WARNING (lit "Dashboard.md not found")
     | Some _ =>
       do c <- count_folders;
       do content <- read_dashboard;
       do rs <- replacements c;
       run write_dashboard (render rs content);
       log DEBUG (lit "Dashboard updated")
     end)
    (λ e, log ERROR (lit "Error updating dashboard: " ++ str_exn e)).

(** [json.load] of a daily log file. *)
Definition load_log (name : list Z) : M world json :=
  λ w, match logs_dir w !! name with
       | Some p =>
         if fault E OpRead (log_path w name)
         then (inr (OSError (log_path w name)), w)
         else match p with
              | Doc j => (inl j, w)
              | Garbage => (inr JSONDecodeError, w)
              end
       | None => (inr (OSError (log_path w name)), w)
       end.

(** [json.dump] into a daily log file. *)
Definition dump_log (name : list Z) (j : json) : M world unit :=
  λ w, if fault E OpWrite (log_path w name)
       then (inr (OSError (log_path w name)), w)
       else (inl tt, set_logs_dir (<[name := Doc j]> (logs_dir w)) w).

(** The entry that [_log_action] builds. *)
Definition log_entry (stamp action_type : list Z)
    (details : list (list Z * list Z)) (result : list Z) : json :=
  JObj [ (lit "timestamp", JStr stamp);
         (lit "action_type", JStr action_type);
         (lit "actor", JStr (lit "orchestrator"));
         (lit "parameters", JObj (prod_map id JStr <$> details));
         (lit "result", JStr result) ].

(** [Orchestrator._log_action] *)
Definition _log_action (action_type : list Z)
    (details : list (list Z * list Z)) (result : list Z) : M world unit :=
  try_except
    (do t <- now;
     let log_file := fmt_date t ++ lit ".json" in
     do w <- get;
     do logs <-
       match logs_dir w !! log_file with
       | Some _ => try_except (load_log log_file) (λ _, ret (JList []))
       | None => ret (JList [])
       end;
     do t' <- now;
     let entry := log_entry (isoformat t') action_type details result in
     match logs with
     | JList l => dump_log log_file (JList (l ++ [entry]))
     | _ => raise AttributeError
     end)
    (λ e, log ERROR (lit "Error logging action: " ++ str_exn e)).

(** The listing shared by [get_pending_files] and [get_approved_files]:
    the names of the [.md] files of a folder, oldest first. *)
Definition md_files_by_mtime (f : folder) : M world (list (list Z)) :=
  do entries <- iterdir f;
  let files := filter (λ e, is_md_file e = true) entries in
  ret ((sorted_by_mtime files).*1).

(** [Orchestrator.get_pending_files] *)
Definition get_pending_files : M world (list (list Z)) :=
  try_except (md_files_by_mtime Needs_Action)
    (λ e, run log ERROR (lit "Error getting pending files: " ++ str_exn e);
          ret []).

(** [Orchestrator.get_approved_files] *)
Definition get_approved_files : M world (list (list Z)) :=
  try_except (md_files_by_mtime Approved)
    (λ e, run log ERROR (lit "Error getting approved files: " ++ str_exn e);
          ret []).

(** The lookup of the command at the head of [process_with_claude]:
    [true] when [which] reports that the command is missing, in which case
    the method returns [False].  When the lookup itself raises, the inner
    [except Exception: pass] lets processing go on. *)
Definition claude_missing (name : list Z) : M world bool :=
  do w <- get;
  match which_rc E with
  | Some rc =>
    if bool_decide (rc ≠ 0) then
      run log WARNING (lit "Claude command " ++ [34] ++ claude_command w
                         ++ [34] ++ lit " not found. Skipping processing.");
      run _log_action (lit "claude_process")
            [(lit "file", file_path w Needs_Action name)]
            (lit "skipped_claude_not_found");
      ret true
    else ret false
  | None => ret false
  end.

(** [Orchestrator.process_with_claude], for the file [name] of the
    Needs_Action folder. *)
Definition process_with_claude (name : list Z) : M world bool :=
  try_except
    (run log INFO (lit "Processing with Claude: " ++ name);
     do missing <- claude_missing name;
     if missing : bool then ret false
     else
       run log INFO (lit "[SIMULATED] Claude would process: " ++ name);
       do t <- now;
       let plan_file := lit "PLAN_" ++ stem name ++ lit "_" ++ fmt_compact t
                          ++ lit ".md" in
       do t' <- now;
       run write_text Plans plan_file (plan_content (isoformat t') name);
       do content <- read_text Needs_Action name;
       run (if contains (lit "status: pending") content
            then write_text Needs_Action name
                   (replace (lit "status: pending") (lit "status: in_progress")
                      content)
            else ret tt);
       do w <- get;
       run _log_action (lit "claude_process")
             [(lit "file", file_path w Needs_Action name);
              (lit "plan", file_path w Plans plan_file)]
             (lit "success");
       ret true)
    (λ e, do w <- get;
          run log ERROR (lit "Error processing with Claude: " ++ str_exn e);
          run _log_action (lit "claude_process")
                [(lit "file", file_path w Needs_Action name);
                 (lit "error", str_exn e)]
                (lit "error");
          ret false).

(** [Orchestrator.move_to_done], for the file [name] of the folder [src]. *)
Definition move_to_done (src : folder) (name : list Z) : M world unit :=
  try_except
    (run shutil_move src name Done;
     run log INFO (lit "Moved to Done: " ++ name);
     do w <- get;
     _log_action (lit "move_to_done") [(lit "file", file_path w src name)]
       (lit "success"))
    (λ e, log ERROR (lit "Error moving file to Done: " ++ str_exn e)).

(** The body of the loop over [pending_files] in [run]. *)
Definition process_pending (name : list Z) : M world unit :=
  do w <- get;
  if bool_decide (file_path w Needs_Action name ∈ processed_files w) then ret tt
  else
    do success <- process_with_claude name;
    if success
    then modify (λ w, set_processed_files
                        ({[file_path w Needs_Action name]} ∪ processed_files w) w)
    else ret tt.

(** One pass of the [while self.running] loop of [Orchestrator.run]. *)
Definition cycle : M world unit :=
  try_except
    (run update_dashboard;
     do pending_files <- get_pending_files;
     run (if bool_decide (pending_files ≠ [])
          then run log INFO (lit "Found " ++ str_of_nat (length pending_files)
                               ++ lit " pending file(s)");
               for_each pending_files process_pending
          else ret tt);
     do approved_files <- get_approved_files;
     run (if bool_decide (approved_files ≠ [])
          then run log INFO (lit "Found " ++ str_of_nat (length approved_files)
                               ++ lit " approved file(s) ready for action");
               for_each approved_files (move_to_done Approved)
          else ret tt);
     _save_state)
    (λ e, log ERROR (lit "Error in orchestration cycle: " ++ str_exn e)).

End Methods.

(** *** The daily log without the monad *)

(** The array that [_log_action] writes into the day's file [name] when it
    adds [entry]; [None] when it writes nothing. *)
Definition log_outcome (E : env) (w : world) (name : list Z) (entry : json)
  : option (list json) :=
  match
    match logs_dir w !! name with
    | Some p =>
      if fault E OpRead (log_path w name) then Some [entry]
      else match p with
           | Garbage => Some [entry]
           | Doc (JList l) => Some (l ++ [entry])
           | Doc _ => None
           end
    | None => Some [entry]
    end
  with
  | Some l => if fault E OpWrite (log_path w name) then None else Some l
  | None => None
  end.

Definition logs_after (E : env) (w : world) (name : list Z) (entry : json)
  : gmap (list Z) payload :=
  match log_outcome E w name entry with
  | Some l => <[name := Doc (JList l)]> (logs_dir w)
  | None => logs_dir w
  end.

(** *** The dashboard without the monad *)

(** The number of [.md] files of a folder, and what
    [_count_files_in_folder] makes of it when listing may fail. *)
Definition md_count (w : world) (f : folder) : nat :=
  length (filter (λ e, is_md_file e = true) (map_to_list (folders w f))).

Definition counted (E : env) (w : world) (f : folder) : nat :=
  if fault E OpList (folder_path w f) then 0%nat else md_count w f.

Definition today_count (E : env) (w : world) : nat :=
  if fault E OpList (folder_path w Done) then 0%nat
  else length (filter (λ e : list Z * node,
                         bool_decide (suffix e.1 = lit ".md")
                         && contains (fmt_date (clock E (ticks w))) e.1 = true)
                 (map_to_list (folders w Done))).

Definition week_count (E : env) (w : world) : nat :=
  match week_before (clock E (S (ticks w))) with
  | Some week_ago =>
    if fault E OpList (folder_path w Done) then 0%nat
    else length (filter (λ e : list Z * node,
                           bool_decide (suffix e.1 = lit ".md")
                           && modified_since E week_ago e.2 = true)
                   (map_to_list (folders w Done)))
  | None => 0%nat
  end.

(** [{{key}}] *)
Definition placeholder (key : list Z) : list Z := lit "{{" ++ key ++ lit "}}".

(** The names of the recognized placeholders with the values that
    [update_dashboard] computes for them in the state [w]. *)
Definition dashboard_values (E : env) (w : world) : list (list Z * list Z) :=
  [ (lit "pending_count", str_of_nat (counted E w Needs_Action));
    (lit "active_plans_count", str_of_nat (counted E w Plans));
    (lit "completed_today", str_of_nat (today_count E w));
    (lit "completed_this_week", str_of_nat (week_count E w));
    (lit "inbox_count", str_of_nat (counted E w Inbox));
    (lit "needs_action_count", str_of_nat (counted E w Needs_Action));
    (lit "pending_approval_count", str_of_nat (counted E w Approved));
    (lit "approved_count", str_of_nat (counted E w Approved));
    (lit "watcher_status",
       if running w then status_running else status_stopped);
    (lit "orchestrator_status",
       if running w then status_running else status_stopped);
    (lit "last_sync", fmt_date_time (clock E (2 + ticks w)%nat));
    (lit "timestamp", isoformat (clock E (3 + ticks w)%nat)) ].

(** [d[key]] for a dictionary given by its items, [None] for a missing
    key. *)
Fixpoint assoc (key : list Z) (rs : list (list Z * list Z)) : option (list Z) :=
  match rs with
  | [] => None
  | r :: rs' => if bool_decide (r.1 = key) then Some r.2 else assoc key rs'
  end.

(** The items of the dictionary [replacements] of [update_dashboard]. *)
Definition substitutions (values : list (list Z * list Z))
  : list (list Z * list Z) :=
  (λ r, (placeholder r.1, r.2)) <$> values.

(** What [update_dashboard] makes of the template [s] in the state [w]. *)
Definition rendered (E : env) (w : world) (s : list Z) : list Z :=
  render (substitutions (dashboard_values E w)) s.

(** A string without braces. *)
Definition brace_free (s : list Z) : bool :=
  forallb (λ c, negb (c =? 123) && negb (c =? 125)) s.

(** The characters of the recognized keys: lower-case letters and the
    underscore lie between [_] and [z]. *)
Definition key_char (c : Z) : bool := (95 <=? c) && (c <=? 122).

(** A string whose first character lies outside the range from [_] to the
    closing brace, so that it is no character of a placeholder with a key
    of [key_char]s. *)
Definition outside (t : list Z) : bool :=
  match t with
  | [] => false
  | c :: _ => (c <? 95) || (125 <? c)
  end.

(** Text that a substitution neither changes nor joins with what stands
    before it: it begins outside the placeholders' characters and holds no
    opening brace. *)
Definition inert (t : list Z) : bool :=
  outside t && forallb (λ x, negb (x =? 123)) t.

(** *** Processing and moving without the monad *)

Section Outcomes.
Context (E : env) (w : world).

(** [which] reports that the command is missing. *)
Definition tool_missing : bool :=
  match which_rc E with
  | Some rc => bool_decide (rc ≠ 0)
  | None => false
  end.

(** The name and the content of the plan that [process_with_claude]
    writes for the action file [name] when it starts in the state [w]. *)
Definition plan_name (name : list Z) : list Z :=
  lit "PLAN_" ++ stem name ++ lit "_" ++ fmt_compact (clock E (ticks w))
    ++ lit ".md".

Definition plan_doc (name : list Z) : list Z :=
  plan_content (isoformat (clock E (S (ticks w)))) name.

(** The plan can be written: no directory is in its place and the write
    is not refused. *)
Definition plan_written (name : list Z) : bool :=
  match folders w Plans !! plan_name name with
  | Some (Dir _) => false
  | _ => negb (fault E OpWrite (file_path w Plans (plan_name name)))
  end.

(** The content of the action file, when it can be read. *)
Definition readable (name : list Z) : option (list Z) :=
  match folders w Needs_Action !! name with
  | Some (File content _) =>
    if fault E OpRead (file_path w Needs_Action name) then None
    else Some content
  | _ => None
  end.

(** The action file with its status marked. *)
Definition mark (content : list Z) : list Z :=
  if contains (lit "status: pending") content
  then replace (lit "status: pending") (lit "status: in_progress") content
  else content.

(** The value that [process_with_claude] returns. *)
Definition succeeds (name : list Z) : bool :=
  negb tool_missing && plan_written name &&
  match readable name with
  | Some content =>
    negb (contains (lit "status: pending") content)
    || negb (fault E OpWrite (file_path w Needs_Action name))
  | None => false
  end.

(** The folders that [process_with_claude] leaves behind. *)
Definition folders_after (name : list Z) : folder → gmap (list Z) node :=
  if negb tool_missing && plan_written name then
    let stamp := timestamp (clock E (2 + ticks w)%nat) in
    let planned :=
      <[Plans := <[plan_name name := File (plan_doc name) stamp]>
                   (folders w Plans)]> (folders w) in
    match readable name with
    | Some content =>
      if contains (lit "status: pending") content
         && negb (fault E OpWrite (file_path w Needs_Action name))
      then <[Needs_Action := <[name := File (mark content) stamp]>
                               (folders w Needs_Action)]> planned
      else planned
    | None => planned
    end
  else folders w.

(** The folders that [shutil_move] leaves behind. *)
Definition folders_moved (src : folder) (name : list Z) (dst : folder)
  : folder → gmap (list Z) node :=
  match folders w src !! name with
  | None => folders w
  | Some n =>
    if fault E OpMove (file_path w src name) then folders w
    else
      let removed := <[src := delete name (folders w src)]> (folders w) in
      match folders w dst !! name with
      | Some (Dir _) => removed
      | _ => <[dst := <[name := n]> (removed dst)]> removed
      end
  end.

End Outcomes.

(** The names that [get_pending_files] and [get_approved_files] return
    for a folder. *)
Definition md_names (w : world) (f : folder) : list (list Z) :=
  (sorted_by_mtime
     (filter (λ e, is_md_file e = true) (map_to_list (folders w f)))).*1.

Definition listed (E : env) (w : world) (f : folder) : list (list Z) :=
  if fault E OpList (folder_path w f) then [] else md_names w f.

(** *** Positions of action records *)

(** The folders in which the orchestrator keeps action records.  The
    Plans folder holds the plan documents that [process_with_claude]
    creates; the orchestrator never places an action record there. *)
Definition action_folders : list folder :=
  [Needs_Action; Approved; Rejected; Done].

(** The order of the workflow. *)
Definition rank (f : folder) : nat :=
  match f with
  | Inbox => 0
  | Needs_Action => 1
  | Plans => 2
  | Approved => 3
  | Rejected => 4
  | Done => 4
  end.

(** An action record named [name] lies in the folder [f]. *)
Definition record_at (w : world) (f : folder) (name : list Z) : Prop :=
  ∃ n, folders w f !! name = Some n ∧ is_md_file (name, n) = true.

(** No entry of another action folder carries the name of an action
    record: every record is one file in one folder. *)
Definition unique_location (w : world) : Prop :=
  ∀ name f1 f2,
    f1 ∈ action_folders → f2 ∈ action_folders →
    record_at w f1 name → is_Some (folders w f2 !! name) → f1 = f2.

(** Every record of [w] is still a record in [w'], in the same folder or
    in a later one. *)
Definition progress (w w' : world) : Prop :=
  ∀ name f,
    f ∈ action_folders → record_at w f name →
    ∃ f', f' ∈ action_folders ∧ record_at w' f' name ∧ (rank f ≤ rank f')%nat.

(** What no method of the orchestrator changes except as described:
    the vault path, the folders and the processed set. *)
Definition same_vault (w w' : world) : Prop :=
  vault_path w' = vault_path w ∧ folders w' = folders w ∧
  processed_files w' = processed_files w.

(** The facts about one turn of the loop over the pending files. *)
Definition pending_step (w w' : world) : Prop :=
  vault_path w' = vault_path w ∧
  processed_files w ⊆ processed_files w' ∧
  (∀ f, f ≠ Needs_Action → f ≠ Plans → folders w' f = folders w f) ∧
  (∀ m, is_file <$> folders w' Needs_Action !! m
        = is_file <$> folders w Needs_Action !! m).

(** The state after one pass under the environment [E]. *)
Definition after_cycle (E : env) (w : world) : world := (cycle E w).2.


(** *** A pass, one pending record at a time *)

(** The pass up to its loop over the pending files; the result is the
    list that the loop goes through. *)
Definition pass_head (E : env) : M world (list (list Z)) :=
  run update_dashboard E;
  do pending_files <- get_pending_files E;
  run (if bool_decide (pending_files ≠ [])
       then log INFO (lit "Found " ++ str_of_nat (length pending_files)
                        ++ lit " pending file(s)")
       else ret tt);
  ret pending_files.

(** The pass after that loop. *)
Definition pass_tail (E : env) : M world unit :=
  do approved_files <- get_approved_files E;
  run (if bool_decide (approved_files ≠ [])
       then run log INFO (lit "Found " ++ str_of_nat (length approved_files)
                            ++ lit " approved file(s) ready for action");
            for_each approved_files (move_to_done E Approved)
       else ret tt);
  _save_state E.

(** The files of a listing that come before [name]. *)
Fixpoint before (name : list Z) (l : list (list Z)) : list (list Z) :=
  match l with
  | [] => []
  | x :: l' => if bool_decide (x = name) then [] else x :: before name l'
  end.

(** The state in which the loop of a pass comes to the file [name]: the
    pass has got as far as its loop, and the files listed before [name]
    have had their turn. *)
Definition reaches (E : env) (w : world) (name : list Z) : world :=
  match pass_head E w with
  | (inl pending_files, w1) =>
    (for_each (before name pending_files) (process_pending E) w1).2
  | (inr _, w1) => w1
  end.

End Orchestrator.

(** ** What the save methods write *)

Module Saved.

(** The documents that the three save methods write. *)
Definition watcher_state_doc (E : env) (w : Watcher.world) : json :=
  JObj [(lit "processed_ids",
         JList (JStr <$> elements (Watcher.processed_ids w)));
        (lit "last_updated", JStr (isoformat (clock E (Watcher.ticks w))))].

Definition hashes_doc (w : Watcher.world) : json :=
  JObj (prod_map id JStr <$> map_to_list (Watcher.file_hashes w)).

Definition orchestrator_state_doc (E : env) (w : Orchestrator.world) : json :=
  JObj [(lit "processed_files",
         JList (JStr <$> elements (Orchestrator.processed_files w)));
        (lit "last_updated", JStr (isoformat (clock E (Orchestrator.ticks w))))].

(** What a save leaves in the [scripts] directory: the document under the
    file name when the directory exists and the write is not refused,
    the directory as it was otherwise. *)
Definition saved (dir : option (gmap (list Z) payload)) (refused : bool)
    (name : list Z) (doc : json) : option (gmap (list Z) payload) :=
  match dir with
  | Some d => if refused then Some d else Some (<[name := Doc doc]> d)
  | None => None
  end.

Definition save_failed (dir : option (gmap (list Z) payload)) (refused : bool)
  : bool :=
  match dir with
  | Some _ => refused
  | None => true
  end.

End Saved.

(** ** Concrete values for evaluating the model *)

Module Sample.

(** A Unicode database that knows nothing beyond Latin-1. *)
Definition latin1_only : Unicode :=
  {| uni_isalnum := λ _, false; uni_lower := λ c, [c];
     uni_final_sigma := λ _ _, false |}.

(** A stand-in for the digest and the decoder: the digest of a content is
    the content behind a tag, and bytes decode to themselves. *)
Definition tagged_codec : Watcher.Codec :=
  {| Watcher.md5_hexdigest := λ d, lit "md5:" ++ d;
     Watcher.decode_ignore := λ d, d |}.

Definition morning : datetime :=
  {| year := 2026; month := 11; day := 3; hour := 9; minute := 5;
     second := 7; microsecond := 0; timestamp := 1793696707 |}.

(** An environment in which nothing fails and the tool is installed. *)
Definition calm : env :=
  {| clock := λ _, morning; fault := λ _ _, false; which_rc := Some 0;
     localtime := λ _, Some morning |}.

(** The tool is not installed. *)
Definition no_tool : env :=
  {| clock := λ _, morning; fault := λ _ _, false; which_rc := Some 1;
     localtime := λ _, Some morning |}.

(** Reading fails everywhere, everything else works. *)
Definition unreadable : env :=
  {| clock := λ _, morning;
     fault := λ op _, match op with OpRead => true | _ => false end;
     which_rc := Some 0;
     localtime := λ _, Some morning |}.

(** A watcher whose drop folder holds one file it has not seen yet. *)
Definition fresh_drop : Watcher.world :=
  {| Watcher.vault_path := lit "/vault";
     Watcher.drop_folder := lit "/vault/Drop_Folder";
     Watcher.running := false;
     Watcher.processed_ids := ∅;
     Watcher.file_hashes := ∅;
     Watcher.drop_dir :=
       Some {[ lit "urgent_invoice.txt" := File (lit "please pay") 5 ]};
     Watcher.scripts_dir := Some ∅;
     Watcher.logger := [];
     Watcher.ticks := 0 |}.

(** A vault with the given Needs_Action and Approved folders and the
    given dashboard template; everything else is empty. *)
Definition vault (needs_action approved : gmap (list Z) node)
    (dashboard : option (list Z)) : Orchestrator.world :=
  {| Orchestrator.vault_path := lit "/vault";
     Orchestrator.running := true;
     Orchestrator.processed_files := ∅;
     Orchestrator.claude_command := lit "claude";
     Orchestrator.folders := λ f,
       match f with
       | Orchestrator.Needs_Action => needs_action
       | Orchestrator.Approved => approved
       | _ => ∅
       end;
     Orchestrator.dashboard_file := dashboard;
     Orchestrator.logs_dir := ∅;
     Orchestrator.scripts_dir := Some ∅;
     Orchestrator.logger := [];
     Orchestrator.ticks := 0 |}.

Definition pending_doc : list Z := lit "---
type: file_drop
status: pending
---
".

(** Three action records wait in Needs_Action. *)
Definition three_records : Orchestrator.world :=
  vault (<[lit "a.md" := File pending_doc 1]>
           (<[lit "b.md" := File pending_doc 2]>
              {[ lit "c.md" := File pending_doc 3 ]}))
        ∅ (Some (lit "Pending: {{pending_count}}")).

(** Three files that are not [.md] documents lie in Needs_Action. *)
Definition three_text_files : Orchestrator.world :=
  vault (<[lit "a.txt" := File [] 1]>
           (<[lit "b.txt" := File [] 2]> {[ lit "c.txt" := File [] 3 ]}))
        ∅ (Some (lit "Pending: {{pending_count}}")).

(** The vault of [three_records] with one entry in today's log. *)
Definition with_log : Orchestrator.world :=
  Orchestrator.set_logs_dir
    {[ lit "2026-11-03.json" :=
         Doc (JList [Orchestrator.log_entry (lit "2026-11-03T08:00:00")
                       (lit "move_to_done") [(lit "file", lit "x.md")]
                       (lit "success")]) ]}
    three_records.

(** One record waits in the Approved folder. *)
Definition one_approved : Orchestrator.world :=
  vault ∅ {[ lit "z.md" := File pending_doc 4 ]} None.

End Sample.

(** ** The messages that the log shows *)

Module Logging.



End Logging.

(** ** Loading the state files

    [Orchestrator._load_processed_files], [BaseWatcher._load_processed_ids]
    and [FileSystemWatcher._load_file_hashes].  What a state file holds
    need not be what a save method wrote, so the value that a loader
    assigns is modelled in full: a loaded set may hold [None] beside
    strings, and the loaded fingerprints may be any JSON document.  Each
    loader is a computation that yields the value it assigns to the
    attribute; [current] is the value the attribute had before. *)

Module Loading.

(** [d.get(key)] for the dictionary that [json.load] makes of a JSON
    object: of two members with the same key the later one counts. *)
Fixpoint dict_get (key : list Z) (kv : list (list Z * json)) : option json :=
  match kv with
  | [] => None
  | r :: kv' =>
    match dict_get key kv' with
    | Some v => Some v
    | None => if bool_decide (r.1 = key) then Some r.2 else None
    end
  end.

(** What goes wrong inside the [try] block of a loader. *)
Inductive load_error :=
  | Raised (e : exn)
  | NoGet (state : json)
  | NotIterable
  | Unhashable (item : json)
  | NoLen.

Definition type_name (j : json) : list Z :=
  match j with
  | JNull => lit "NoneType"
  | JStr _ => lit "str"
  | JList _ => lit "list"
  | JObj _ => lit "dict"
  end.

(** [str(e)] *)
Definition str_error (e : load_error) : list Z :=
  match e with
  | Raised e => str_exn e
  | NoGet j => lit "'" ++ type_name j ++ lit "' object has no attribute 'get'"
  | NotIterable => lit "'NoneType' object is not iterable"
  | Unhashable j => lit "unhashable type: '" ++ type_name j ++ lit "'"
  | NoLen => lit "object of type 'NoneType' has no len()"
  end.

(** A Python set of strings and [None]. *)
Definition items : Type := gset (option (list Z)).

(** [set(l)] for a list: the first element that is a list or a dictionary
    makes it raise. *)
Fixpoint set_of_list (l : list json) : items + load_error :=
  match l with
  | [] => inl ∅
  | j :: l' =>
    match j with
    | JStr s =>
      match set_of_list l' with
      | inl X => inl ({[Some s]} ∪ X)
      | inr e => inr e
      end
    | JNull =>
      match set_of_list l' with
      | inl X => inl ({[None]} ∪ X)
      | inr e => inr e
      end
    | _ => inr (Unhashable j)
    end
  end.

(** [set(value)]: a string gives its characters, a dictionary its keys. *)
Definition py_set (value : json) : items + load_error :=
  match value with
  | JNull => inr NotIterable
  | JStr s => inl (list_to_set ((λ c, Some [c]) <$> s))
  | JList l => set_of_list l
  | JObj kv => inl (list_to_set (Some <$> kv.*1))
  end.

(** [set(state.get(key, []))] *)
Definition stored_set (key : list Z) (state : json) : items + load_error :=
  match state with
  | JObj kv =>
    match dict_get key kv with
    | Some value => py_set value
    | None => inl ∅
    end
  | _ => inr (NoGet state)
  end.

(** [len(value)] *)
Definition py_len (value : json) : nat + load_error :=
  match value with
  | JNull => inr NoLen
  | JStr s => inl (length s)
  | JList l => inl (length l)
  | JObj kv => inl (length (remove_dups kv.*1))
  end.

(** [json.load] of a file of the [scripts] directory: [None] when the file
    does not exist. *)
Definition load_json (dir : option (gmap (list Z) payload)) (refused : bool)
    (path name : list Z) : option (json + load_error) :=
  match dir ≫= (.!! name) with
  | None => None
  | Some p =>
    Some (if refused then inr (Raised (OSError path))
          else match p with
               | Garbage => inr (Raised JSONDecodeError)
               | Doc j => inl j
               end)
  end.

Section OfOrchestrator.
Import Orchestrator.
Context (E : env).

(** [Orchestrator._load_processed_files] *)
Definition _load_processed_files (current : items) : M world items :=
  do w <- get;
  let name := lit "orchestrator_state.json" in
  match load_json (scripts_dir w) (fault E OpRead (scripts_path w name))
          (scripts_path w name) name with
  | None => ret current
  | Some loaded =>
    match
      match loaded with
      | inl state => stored_set (lit "processed_files") state
      | inr e => inr e
      end
    with
    | inl X => ret X
    | inr e =>
      run log WARNING (lit "Could not load state: " ++ str_error e);
      ret ∅
    end
  end.

End OfOrchestrator.

Section OfWatcher.
Import Watcher.
Context (E : env).

(** [BaseWatcher._load_processed_ids], for the class
    [FileSystemWatcher]. *)
Definition _load_processed_ids : M world items :=
  do w <- get;
  let name := lit "FileSystemWatcher_state.json" in
  match load_json (scripts_dir w) (fault E OpRead (scripts_path w name))
          (scripts_path w name) name with
  | None => ret ∅
  | Some loaded =>
    match
      match loaded with
      | inl state => stored_set (lit "processed_ids") state
      | inr e => inr e
      end
    with
    | inl X =>
      run log INFO (lit "Loaded " ++ str_of_nat (size X)
                  ++ lit " previously processed IDs");
      ret X
    | inr e =>
      run log WARNING (lit "Could not load state file: " ++ str_error e);
      ret ∅
    end
  end.

(** [FileSystemWatcher._load_file_hashes]: the document is taken as it
    is. *)
Definition _load_file_hashes (current : json) : M world json :=
  do w <- get;
  let name := lit "filesystem_watcher_hashes.json" in
  match load_json (scripts_dir w) (fault E OpRead (scripts_path w name))
          (scripts_path w name) name with
  | None => ret current
  | Some loaded =>
    match
      match loaded with
      | inl value =>
        match py_len value with
        | inl n => inl (value, n)
        | inr e => inr e
        end
      | inr e => inr e
      end
    with
    | inl (value, n) =>
      run log INFO (lit "Loaded " ++ str_of_nat n ++ lit " file hashes");
      ret value
    | inr e =>
      run log WARNING (lit "Could not load file hashes: " ++ str_error e);
      ret (JObj [])
    end
  end.

End OfWatcher.

End Loading.

(** ** The order of a listing *)

Module Listing.

(** Every entry is at most as old as the entries behind it. *)
Fixpoint oldest_first (l : list (list Z * node)) : Prop :=
  match l with
  | [] => True
  | x :: l' => Forall (λ y, st_mtime x.2 ≤ st_mtime y.2) l' ∧ oldest_first l'
  end.

End Listing.

(** ** What a step of the orchestrator leaves alone *)

Module Frames.
Import Orchestrator.

(** The vault and the object are as before, except for the messages of
    the logger, the clock and the [scripts] directory. *)
Definition untouched (w w' : world) : Prop :=
  vault_path w' = vault_path w ∧ running w' = running w ∧
  folders w' = folders w ∧ processed_files w' = processed_files w ∧
  logs_dir w' = logs_dir w ∧ dashboard_file w' = dashboard_file w.

(** No file name has left the vault: the folders that the orchestrator
    only reads are as they were, Needs_Action holds the same names with
    the same kinds, Plans and Done hold at least the names they held, and
    a name that has left Approved is in Done. *)
Definition names_kept (w w' : world) : Prop :=
  folders w' Inbox = folders w Inbox ∧
  folders w' Rejected = folders w Rejected ∧
  (∀ m, is_file <$> folders w' Needs_Action !! m
        = is_file <$> folders w Needs_Action !! m) ∧
  (∀ m, is_Some (folders w Plans !! m) → is_Some (folders w' Plans !! m)) ∧
  (∀ m, is_Some (folders w Done !! m) → is_Some (folders w' Done !! m)) ∧
  (∀ m n, folders w' Approved !! m = Some n →
          folders w Approved !! m = Some n) ∧
  (∀ m, is_Some (folders w Approved !! m) →
        is_Some (folders w' Approved !! m) ∨ is_Some (folders w' Done !! m)).

End Frames.

(** ** filesystem_watcher.py: action files, and the loop of base_watcher.py *)

Module Emitter.
Import Watcher.

(** [str.upper] maps code point by code point; ASCII is tabulated, the
    rest is the Unicode database's. *)
Class Casing := {
  uni_upper : Z → list Z
}.

Definition upper_char `{Casing} (c : Z) : list Z :=
  if (97 <=? c) && (c <=? 122) then [c - 32]
  else if c <? 128 then [c]
  else uni_upper c.

(** [s.upper()] *)
Definition upper `{Casing} (s : list Z) : list Z := flat_map upper_char s.

(** The encoding of the locale, which [write_text] takes when it is given
    none: whether it has a code for every character of a text. *)
Class Locale := {
  encodable : list Z → bool
}.

(** The watcher together with the two folders of the vault that it writes
    to; a folder is [None] when it does not exist.  The drop folder,
    [Needs_Action] and [Inbox] are three different directories, as in the
    default layout. *)
Record world := {
  watcher : Watcher.world;
  needs_action : option (gmap (list Z) node);
  inbox : option (gmap (list Z) node)
}.

Definition set_watcher (v : Watcher.world) (w : world) : world :=
  {| watcher := v; needs_action := needs_action w; inbox := inbox w |}.

Definition set_needs_action (d : option (gmap (list Z) node)) (w : world)
  : world :=
  {| watcher := watcher w; needs_action := d; inbox := inbox w |}.

Definition set_inbox (d : option (gmap (list Z) node)) (w : world) : world :=
  {| watcher := watcher w; needs_action := needs_action w; inbox := d |}.

(** [str(self.needs_action_folder / name)] and [str(self.vault_path / 'Inbox')] *)
Definition action_path (w : world) (name : list Z) : list Z :=
  joinpath (joinpath (vault_path (watcher w)) (lit "Needs_Action")) name.

Definition inbox_path (w : world) : list Z :=
  joinpath (vault_path (watcher w)) (lit "Inbox").

(** The entry of the disk that a path names.  Of the files that a path
    may name the model holds those of the drop folder. *)
Definition source_node (w : world) (path : list Z) : option node :=
  let prefix := drop_folder (watcher w) ++ lit "/" in
  match drop_dir (watcher w) with
  | Some d =>
    if startswith prefix path then d !! drop (length prefix) path else None
  | None => None
  end.

(** The f-string of [create_action_file]; [detected] is the value of
    [datetime.now().isoformat()]. *)
Definition action_content `{Casing} (it : item) (detected : list Z) : list Z :=
  lit "---
type: file_drop
source: " ++ file_name it ++ lit "
file_path: " ++ file_path it ++ lit "
file_size: " ++ str_of_nat (file_size it) ++ lit " bytes
file_type: " ++ file_type it ++ lit "
priority: " ++ priority it ++ lit "
detected: " ++ detected ++ lit "
status: pending
hash: " ++ hash it ++ lit "
---

# File Drop for Processing

## Source File
- **Name:** " ++ file_name it ++ lit "
- **Size:** " ++ str_of_nat (file_size it) ++ lit " bytes
- **Type:** " ++ file_type it ++ lit "
- **Priority:** " ++ upper (priority it) ++ lit "

## Content Preview
```
" ++ (if bool_decide (content_preview it ≠ []) then content_preview it
      else lit "(Binary file or could not read)") ++ lit "
```

## Suggested Actions
- [ ] Review file content
- [ ] Categorize file
- [ ] Take appropriate action
- [ ] Move to /Done when complete

## Notes
*Add any notes or observations here.*

---
*Auto-generated by FileSystemWatcher*
".

Section Methods.
Context `{Unicode} `{Codec} `{Casing} `{Locale} (E : env).

(** A method of the watcher that touches neither folder of the vault. *)
Definition lift {A} (m : M Watcher.world A) : M world A :=
  λ w, let r := m (watcher w) in (r.1, set_watcher r.2 w).

Definition log (l : level) (msg : list Z) : M world unit :=
  lift (Watcher.log l msg).

Definition now : M world datetime := lift (Watcher.now E).

(** [action_file.write_text(content)]: the file is opened for writing,
    which creates it or empties it, and then the text is encoded and
    written.  A text that the encoding of the locale cannot encode raises
    when the file is open already, and leaves it empty. *)
Definition write_action (name content : list Z) : M world unit :=
  λ w, match needs_action w with
       | Some d =>
         match d !! name with
         | Some (Dir _) => (inr (OSError (action_path w name)), w)
         | _ =>
           if fault E OpWrite (action_path w name)
           then (inr (OSError (action_path w name)), w)
           else
             let opened (text : list Z) :=
               set_needs_action
                 (Some (<[name := File text
                                    (timestamp (clock E (ticks (watcher w))))]> d))
                 w in
             if encodable content
             then (inl tt, opened content)
             else (inr UnicodeEncodeError, opened [])
         end
       | None => (inr (OSError (action_path w name)), w)
       end.

(** [dest_folder.mkdir(parents=True, exist_ok=True)]; creating the
    directory is a write at its path. *)
Definition mkdir_inbox : M world unit :=
  λ w, match inbox w with
       | Some _ => (inl tt, w)
       | None =>
         if fault E OpWrite (inbox_path w)
         then (inr (OSError (inbox_path w)), w)
         else (inl tt, set_inbox (Some ∅) w)
       end.

(** [shutil.copy2(path, dest_folder / name)]: the content goes with the
    modification time.  An existing regular file at the destination is
    replaced; when the destination is a directory the copy is made inside
    it, where the model does not look. *)
Definition copy2 (path name : list Z) : M world unit :=
  λ w, match source_node w path with
       | Some (File data mtime) =>
         if fault E OpRead path then (inr (OSError path), w)
         else
           match inbox w with
           | Some d =>
             if fault E OpWrite (joinpath (inbox_path w) name)
             then (inr (OSError (joinpath (inbox_path w) name)), w)
             else match d !! name with
                  | Some (Dir _) => (inl tt, w)
                  | _ => (inl tt,
                          set_inbox (Some (<[name := File data mtime]> d)) w)
                  end
           | None => (inr (OSError (joinpath (inbox_path w) name)), w)
           end
       | _ => (inr (OSError path), w)
       end.

(** [FileSystemWatcher.create_action_file]; the result is the name of the
    action file, [None] for Python's [None]. *)
Definition create_action_file (it : item) : M world (option (list Z)) :=
  try_except
    (do filename <- lift (_generate_filename E (lit "FILE") (file_name it));
     do t <- now;
     let content := action_content it (isoformat t) in
     run write_action filename content;
     run try_except
           (run mkdir_inbox;
            do w <- get;
            let dest_name := lit "copy_" ++ file_name it in
            run copy2 (file_path it) dest_name;
            log INFO (lit "Copied source file to "
                        ++ joinpath (inbox_path w) dest_name))
           (λ e, log WARNING (lit "Could not copy source file: " ++ str_exn e));
     ret (Some filename))
    (λ e, run log ERROR (lit "Error creating action file: " ++ str_exn e);
          ret None).

(** The body of the loop over [items] in [BaseWatcher.run]. *)
Definition emit (it : item) : M world unit :=
  try_except
    (do action_file <- create_action_file it;
     match action_file with
     | Some name => log INFO (lit "Created action file: " ++ name)
     | None => ret tt
     end)
    (λ e, log ERROR (lit "Error creating action file: " ++ str_exn e)).

(** One pass of the [while self.running] loop of [BaseWatcher.run], for a
    [FileSystemWatcher]. *)
Definition cycle : M world unit :=
  try_except
    (do items <- lift (check_for_updates E);
     run (if bool_decide (items ≠ [])
          then run log INFO (lit "Found " ++ str_of_nat (length items)
                               ++ lit " new item(s) to process");
               for_each items emit
          else ret tt);
     lift (_save_state E))
    (λ e, log ERROR (lit "Error in check loop: " ++ str_exn e)).

End Methods.

(** *** Creating an action file without the monad *)

Section Outcomes.
Context `{Unicode} `{Casing} `{Locale} (E : env) (it : item) (w : world).

(** The name and the content of the action file that [create_action_file]
    writes for [it] when it starts in the state [w]. *)
Definition record_name : list Z :=
  lit "FILE" ++ lit "_" ++ safe_id (file_name it) ++ lit "_"
    ++ fmt_file_stamp (clock E (ticks (watcher w))) ++ lit ".md".

Definition record_doc : list Z :=
  action_content it (isoformat (clock E (S (ticks (watcher w))))).

(** The action file can be opened for writing: the folder exists, no
    directory is in the place of the file and the write is not refused. *)
Definition record_opened : bool :=
  match needs_action w with
  | Some d =>
    match d !! record_name with
    | Some (Dir _) => false
    | _ => negb (fault E OpWrite (action_path w record_name))
    end
  | None => false
  end.

(** The action file can be written: it can be opened, and the encoding of
    the locale can encode the document. *)
Definition record_written : bool := record_opened && encodable record_doc.

(** The Inbox after [mkdir], [None] when the directory cannot be
    created. *)
Definition inbox_ready : option (gmap (list Z) node) :=
  match inbox w with
  | Some d => Some d
  | None => if fault E OpWrite (inbox_path w) then None else Some ∅
  end.

(** The Inbox that [create_action_file] leaves behind when it has written
    the action file. *)
Definition inbox_after : option (gmap (list Z) node) :=
  let dest_name := lit "copy_" ++ file_name it in
  match inbox_ready with
  | Some d =>
    match source_node w (file_path it) with
    | Some (File data mtime) =>
      if fault E OpRead (file_path it)
         || fault E OpWrite (joinpath (inbox_path w) dest_name)
      then Some d
      else match d !! dest_name with
           | Some (Dir _) => Some d
           | _ => Some (<[dest_name := File data mtime]> d)
           end
    | _ => Some d
    end
  | None => inbox w
  end.

End Outcomes.

(** *** What the loop leaves alone *)

(** A computation of the watcher that leaves [processed_ids] and
    [running] as they are. *)
Definition keeps_ids {A} (m : M Watcher.world A) : Prop :=
  ∀ v, processed_ids (m v).2 = processed_ids v ∧ running (m v).2 = running v.

(** The folder [d] exists and has an entry named [m]. *)
Definition holds (d : option (gmap (list Z) node)) (m : list Z) : Prop :=
  ∃ g, d = Some g ∧ is_Some (g !! m).

(** From [w] to [w'] the watcher has kept the drop folder, the
    fingerprints and the processed ids, and no name has left Needs_Action
    or the Inbox. *)
Definition grown (w w' : world) : Prop :=
  vault_path (watcher w') = vault_path (watcher w) ∧
  drop_folder (watcher w') = drop_folder (watcher w) ∧
  drop_dir (watcher w') = drop_dir (watcher w) ∧
  file_hashes (watcher w') = file_hashes (watcher w) ∧
  processed_ids (watcher w') = processed_ids (watcher w) ∧
  (∀ m, holds (needs_action w) m → holds (needs_action w') m) ∧
  (∀ m, holds (inbox w) m → holds (inbox w') m).

End Emitter.

(** Sample data for the watcher's loop. *)
Module Scene.

(** An upper-case table that leaves everything beyond ASCII alone. *)
Definition ascii_upper : Emitter.Casing := {| Emitter.uni_upper := λ c, [c] |}.

(** UTF-8, which encodes every code point but the surrogates. *)
Definition utf8 : Emitter.Locale :=
  {| Emitter.encodable :=
       forallb (λ c, (0 <=? c) && (c <? 55296) || (57343 <? c) && (c <=? 1114111)) |}.

(** The watcher of [Sample.fresh_drop] in a vault whose folders are
    empty. *)
Definition fresh_vault : Emitter.world :=
  {| Emitter.watcher := Sample.fresh_drop;
     Emitter.needs_action := Some ∅;
     Emitter.inbox := Some ∅ |}.

(** The item that the scan reports for the file of [Sample.fresh_drop]. *)
Definition invoice : Watcher.item :=
  @Watcher.entry_item Sample.latin1_only Sample.tagged_codec Sample.calm
    (lit "/vault/Drop_Folder") (lit "urgent_invoice.txt") (lit "please pay").

(** Two items whose names sanitize alike. *)
Definition spaced : Watcher.item :=
  @Watcher.entry_item Sample.latin1_only Sample.tagged_codec Sample.calm
    (lit "/vault/Drop_Folder") (lit "a b.txt") (lit "one").

Definition underscored : Watcher.item :=
  @Watcher.entry_item Sample.latin1_only Sample.tagged_codec Sample.calm
    (lit "/vault/Drop_Folder") (lit "a_b.txt") (lit "two").

(** An item whose name holds a byte that the file system encoding could
    not decode: [os] hands it on as the surrogate U+DCE9. *)
Definition escaped : Watcher.item :=
  @Watcher.entry_item Sample.latin1_only Sample.tagged_codec Sample.calm
    (lit "/vault/Drop_Folder") (lit "caf" ++ [56553] ++ lit ".txt") (lit "menu").

End Scene.

(** * Properties *)

(** ** Strings *)

Module PyFacts.

Lemma startswith_app (p t : list Z) : startswith p (p ++ t) = true.
Proof.
  induction p as [|a p IH]; simpl; [done|].
  by rewrite Z.eqb_refl, IH.
Qed.

Lemma startswith_inv (p s : list Z) :
  startswith p s = true → ∃ t, s = p ++ t.
Proof.
  revert s. induction p as [|a p IH]; intros s Hs.
  - by exists s.
  - destruct s as [|b s]; simpl in Hs; [done|].
    apply andb_true_iff in Hs as [Hab Hs].
    apply Z.eqb_eq in Hab as ->.
    destruct (IH _ Hs) as [t ->]. by exists t.
Qed.

Lemma startswith_spec (p s : list Z) :
  startswith p s = true ↔ ∃ t, s = p ++ t.
Proof.
  split; [apply startswith_inv|]. intros [t ->]. apply startswith_app.
Qed.

Lemma startswith_nil (s : list Z) : startswith [] s = true.
Proof. by destruct s. Qed.

Lemma startswith_length (p s : list Z) :
  startswith p s = true → (length p ≤ length s)%nat.
Proof. intros [t ->]%startswith_inv. rewrite length_app. lia. Qed.

Lemma startswith_extend (p s t : list Z) :
  startswith p s = true → startswith p (s ++ t) = true.
Proof.
  intros [u ->]%startswith_inv. rewrite <- app_assoc. apply startswith_app.
Qed.

(** A prefix that does not contain [c] cannot reach across [c]. *)
Lemma startswith_barrier (q x : list Z) (c : Z) (z : list Z) :
  c ∉ q → startswith q (x ++ c :: z) = true → startswith q x = true.
Proof.
  revert x. induction q as [|a q IH]; intros x Hc Hs; [apply startswith_nil|].
  apply not_elem_of_cons in Hc as [Hca Hc].
  destruct x as [|b x]; cbn [app startswith] in *.
  - apply andb_true_iff in Hs as [Hac _]. apply Z.eqb_eq in Hac. congruence.
  - apply andb_true_iff in Hs as [Hab Hs]. rewrite Hab. cbn [andb].
    by apply IH.
Qed.

Lemma contains_spec (sub s : list Z) :
  contains sub s = true ↔ ∃ a b, s = a ++ sub ++ b.
Proof.
  induction s as [|c s IH]; simpl.
  - rewrite orb_false_r. rewrite startswith_spec. split.
    + intros [t Ht]. by exists [], t.
    + intros (a & b & Hab). symmetry in Hab.
      apply app_eq_nil in Hab as [-> Hab]. by exists b.
  - rewrite orb_true_iff, IH, startswith_spec. split.
    + intros [[t Ht]|(a & b & ->)].
      * by exists [], t.
      * by exists (c :: a), b.
    + intros (a & b & Hab). destruct a as [|c' a]; simpl in Hab.
      * left. by exists b.
      * right. injection Hab as -> ->. by exists a, b.
Qed.

Lemma contains_app_l (sub s t : list Z) :
  contains sub s = true → contains sub (s ++ t) = true.
Proof.
  rewrite !contains_spec. intros (a & b & ->).
  exists a, (b ++ t). by rewrite <- !app_assoc.
Qed.

(** Lowering goes through a prefix without a capital sigma. *)
Lemma lower_from_app `{Unicode} (before s t : list Z) :
  931 ∉ s →
  lower_from before (s ++ t)
  = lower_from before s ++ lower_from (before ++ s) t.
Proof.
  revert before. induction s as [|c s IH]; intros before Hs.
  - by rewrite app_nil_r.
  - apply not_elem_of_cons in Hs as [Hc Hs].
    cbn [app lower_from]. rewrite (proj2 (Z.eqb_neq c 931)) by done.
    rewrite IH by done. by rewrite <- !app_assoc.
Qed.

Lemma lower_app `{Unicode} (s t : list Z) :
  931 ∉ s → lower (s ++ t) = lower s ++ lower_from s t.
Proof. intros Hs. unfold lower. by rewrite lower_from_app. Qed.

(** *** [replace] *)

Lemma replace_from_skip (old new : list Z) (k : nat) (s : list Z) :
  replace_from old new k s = replace_from old new 0 (drop k s).
Proof.
  revert k. induction s as [|c s IH]; intros k.
  - by rewrite drop_nil.
  - destruct k as [|k]; [done|]. simpl. apply IH.
Qed.

Lemma replace_nil (old new : list Z) : old ≠ [] → replace old new [] = [].
Proof. by destruct old. Qed.

(** A character at which no occurrence starts is copied. *)
Lemma replace_cons (old new : list Z) (c : Z) (s : list Z) :
  old ≠ [] → startswith old (c :: s) = false →
  replace old new (c :: s) = c :: replace old new s.
Proof.
  intros Hold Hno. destruct old as [|o old]; [done|].
  unfold replace. cbn [replace_from]. by rewrite Hno.
Qed.

(** An occurrence at the front is replaced, and the scan goes on behind
    it. *)
Lemma replace_match (old new s : list Z) :
  old ≠ [] → replace old new (old ++ s) = new ++ replace old new s.
Proof.
  intros Hold. destruct old as [|o old]; [done|].
  unfold replace. change ((o :: old) ++ s) with (o :: (old ++ s)).
  cbn [replace_from].
  change (o :: (old ++ s)) with ((o :: old) ++ s).
  rewrite startswith_app. f_equal.
  rewrite replace_from_skip.
  replace (length (o :: old) - 1)%nat with (length old) by (simpl; lia).
  by rewrite drop_app_length.
Qed.

(** A prefix none of whose characters is the first character of [old] is
    copied. *)
Lemma replace_skip (o : Z) (old new a s : list Z) :
  Forall (λ c, c ≠ o) a →
  replace (o :: old) new (a ++ s) = a ++ replace (o :: old) new s.
Proof.
  induction 1 as [|c a Hc Ha IH]; [done|].
  change ((c :: a) ++ s) with (c :: (a ++ s)).
  rewrite replace_cons, IH; [done..|].
  simpl. by rewrite (proj2 (Z.eqb_neq o c)) by done.
Qed.

Lemma replace_nonempty (old new s : list Z) :
  old ≠ [] → replace old new s = replace_from old new 0 s.
Proof. by destruct old. Qed.

(** When no occurrence of [old] that starts in [x] reaches into [z], the
    two parts are scanned independently. *)
Lemma replace_from_split (old new z : list Z) :
  (∀ x, x ≠ [] → startswith old (x ++ z) = true → startswith old x = true) →
  ∀ x k,
    replace_from old new k (x ++ z)
    = replace_from old new k x ++ replace_from old new (k - length x) z.
Proof.
  intros Hz. induction x as [|a x IH]; intros k.
  - cbn [app length replace_from]. by rewrite Nat.sub_0_r.
  - destruct k as [|k]; cbn [app length replace_from Nat.sub].
    + destruct (startswith old (a :: x)) eqn:Hx.
      * change (a :: x ++ z) with ((a :: x) ++ z).
        rewrite (startswith_extend _ _ z Hx). rewrite IH, <- app_assoc.
        apply startswith_length in Hx. cbn [length] in Hx.
        by replace (length old - 1 - length x)%nat with 0%nat by lia.
      * destruct (startswith old (a :: x ++ z)) eqn:Hxz.
        { apply (Hz (a :: x)) in Hxz; [congruence|done]. }
        rewrite IH. by cbn [Nat.sub app].
    + apply IH.
Qed.

Lemma replace_split (old new z x : list Z) :
  old ≠ [] →
  (∀ x, x ≠ [] → startswith old (x ++ z) = true → startswith old x = true) →
  replace old new (x ++ z) = replace old new x ++ replace old new z.
Proof.
  intros Hold Hz. rewrite !replace_nonempty by done.
  by rewrite replace_from_split.
Qed.

(** The first occurrence is replaced. *)
Lemma replace_find (old new s : list Z) (i : nat) :
  old ≠ [] → find old s = Some i →
  replace old new s
  = take i s ++ new ++ replace old new (drop (i + length old) s).
Proof.
  intros Hold. revert i. induction s as [|c s IH]; intros i; cbn [find].
  - destruct (startswith old []) eqn:Hs; [|done].
    apply startswith_inv in Hs as [t Ht]. symmetry in Ht.
    apply app_eq_nil in Ht as [-> _]. done.
  - destruct (startswith old (c :: s)) eqn:Hs.
    + intros [= <-]. apply startswith_inv in Hs as [t Ht]. rewrite Ht.
      rewrite replace_match by done. rewrite take_0, Nat.add_0_l.
      by rewrite drop_app_length.
    + destruct (find old s) as [j|] eqn:Hj; [|done].
      intros [= <-]. rewrite replace_cons by done.
      rewrite firstn_cons. cbn [Nat.add]. rewrite skipn_cons.
      cbn [app]. f_equal. by apply IH.
Qed.

Lemma find_contains (sub s : list Z) :
  contains sub s = true ↔ is_Some (find sub s).
Proof.
  induction s as [|c s IH]; cbn [contains find].
  - destruct (startswith sub []); [by split|].
    cbn. split; [done|by intros [? ?]].
  - destruct (startswith sub (c :: s)); [by split|].
    cbn [orb]. rewrite IH. destruct (find sub s); cbn; [by split|].
    split; intros [? ?]; done.
Qed.

Lemma endswith_spec (p s : list Z) :
  endswith p s = true ↔ ∃ a, s = a ++ p.
Proof.
  unfold endswith. rewrite startswith_spec. split.
  - intros [t Ht]. exists (reverse t).
    apply (inj reverse). by rewrite reverse_app, reverse_involutive.
  - intros [a ->]. exists (reverse a). by rewrite reverse_app.
Qed.

Lemma rfind_None (c : Z) (s : list Z) : rfind c s = None ↔ c ∉ s.
Proof.
  induction s as [|x s IH]; simpl.
  - split; [intros _; apply not_elem_of_nil|done].
  - rewrite not_elem_of_cons. destruct (rfind c s) as [i|].
    + split; [done|]. intros [_ Hs]. by apply IH in Hs.
    + destruct (Z.eqb_spec x c) as [->|Hne].
      * split; [done|]. by intros [? _].
      * split; [|done]. intros _. split; [congruence|]. by apply IH.
Qed.

Lemma rfind_last (c : Z) (a b : list Z) :
  c ∉ b → rfind c (a ++ c :: b) = Some (length a).
Proof.
  intros Hb. induction a as [|x a IH]; simpl.
  - apply rfind_None in Hb. by rewrite Hb, Z.eqb_refl.
  - by rewrite IH.
Qed.

Lemma rfind_Some (c : Z) (s : list Z) (i : nat) :
  rfind c s = Some i → s = take i s ++ c :: drop (S i) s.
Proof.
  revert i. induction s as [|x s IH]; intros i; simpl; [done|].
  destruct (rfind c s) as [j|] eqn:Hj.
  - intros [= <-]. simpl. f_equal. by apply IH.
  - destruct (Z.eqb_spec x c) as [->|]; [|done]. intros [= <-].
    simpl. by rewrite drop_0.
Qed.

(** For a name that does not begin with a dot, the suffix is [.tmp]
    exactly when the name ends in [.tmp]. *)
Lemma suffix_tmp (name : list Z) :
  startswith (lit ".") name = false →
  suffix name = lit ".tmp" ↔ endswith (lit ".tmp") name = true.
Proof.
  intros Hdot. rewrite endswith_spec. unfold suffix. split.
  - destruct (rfind 46 name) as [i|]; [|done].
    destruct ((0 <? i)%nat && (i <? length name - 1)%nat); [|done].
    intros Hdrop. exists (take i name). by rewrite <- Hdrop, take_drop.
  - intros [a ->]. destruct a as [|x a]; [done|].
    change (lit ".tmp") with (46 :: [116; 109; 112]).
    rewrite (rfind_last 46 (x :: a) [116; 109; 112]).
    + rewrite drop_app_length.
      replace (_ && _) with true; [done|].
      symmetry. apply andb_true_iff. rewrite length_app. cbn [length].
      split; apply Nat.ltb_lt; lia.
    + intros Hin. repeat (apply elem_of_cons in Hin as [?|Hin]; [done|]).
      by apply elem_of_nil in Hin.
Qed.

(** *** The string functions on concrete inputs *)

Example replace_leftmost_first :
  replace (lit "aa") (lit "b") (lit "aaaa a aaa") = lit "bb a ba".
Proof. reflexivity. Qed.

Example replace_empty_pattern :
  replace [] (lit "-") (lit "abc") = lit "-a-b-c-".
Proof. reflexivity. Qed.

Example suffix_and_stem :
  suffix (lit "a.tar.gz") = lit ".gz" ∧ stem (lit "a.tar.gz") = lit "a.tar" ∧
  suffix (lit ".bashrc") = [] ∧ suffix (lit "a.") = [] ∧
  suffix (lit "..md") = lit ".md" ∧ stem (lit "..md") = lit ".".
Proof. vm_compute. tauto. Qed.

End PyFacts.

(** ** Priority classification *)

Module PriorityFacts.
Import Watcher PyFacts.

Section WithUnicode.
Context `{Unicode}.

(** The high and medium keywords are written in lower case. *)
Lemma keywords_lower :
  lower <$> priority_keywords high = priority_keywords high ∧
  lower <$> priority_keywords medium = priority_keywords medium.
Proof. split; reflexivity. Qed.

Lemma existsb_ci (text : list Z) (l : list (list Z)) :
  lower <$> l = l →
  existsb (λ k, ci_contains k text) l = existsb (λ k, contains k (lower text)) l.
Proof.
  induction l as [|k l IH]; simpl; [done|].
  intros Hl. injection Hl as Hk Hl'.
  unfold ci_contains at 1. rewrite Hk. f_equal. by apply IH.
Qed.

Lemma sigma_free_name : 931 ∉ lit "urgent_invoice.txt".
Proof.
  intros Hin. repeat (apply elem_of_cons in Hin as [?|Hin]; [done|]).
  by apply elem_of_nil in Hin.
Qed.

(** C5, as the code has it.  [_detect_priority] is a case-insensitive
    substring match of the file name and the preview, joined by one space,
    against the keyword tiers in the order high, medium, low, where the
    first tier with a match wins and no match gives [low].  A file named
    [urgent_invoice.txt] is classified [high] whatever its content,
    although the medium keyword [invoice] occurs in it too. *)
Theorem detect_priority_tiers (filename preview : list Z) :
  _detect_priority filename preview
  = classify (filename ++ lit " " ++ preview) ∧
  _detect_priority (lit "urgent_invoice.txt") preview = lit "high" ∧
  existsb (λ k, ci_contains k (lit "urgent_invoice.txt" ++ lit " " ++ preview))
          (priority_keywords medium) = true.
Proof.
  destruct keywords_lower as [Hh Hm].
  split; [|split].
  - unfold _detect_priority, classify.
    cbv [List.find].
    rewrite (existsb_ci _ _ Hh), (existsb_ci _ _ Hm).
    destruct (existsb _ (priority_keywords high)); [done|].
    destruct (existsb _ (priority_keywords medium)); [done|].
    by destruct (existsb _ (priority_keywords low)).
  - unfold _detect_priority.
    replace (existsb _ (priority_keywords high)) with true; [done|].
    symmetry. apply existsb_exists. exists (lit "urgent"). split.
    + by left.
    + rewrite lower_app by apply sigma_free_name.
      apply contains_app_l. reflexivity.
  - apply existsb_exists. exists (lit "invoice"). split.
    + by left.
    + unfold ci_contains. rewrite lower_app by apply sigma_free_name.
      apply contains_app_l. reflexivity.
Qed.

End WithUnicode.

(** C5, as stated, fails when a keyword arises only where the file name
    and the preview meet: the name [ur] with the preview [gent] is
    classified [low], although the two concatenated read [urgent]. *)
Lemma detect_priority_separates_name_and_preview :
  @_detect_priority Sample.latin1_only (lit "ur") (lit "gent") = lit "low" ∧
  @spec_priority Sample.latin1_only (lit "ur") (lit "gent") = lit "high".
Proof. split; vm_compute; reflexivity. Qed.

End PriorityFacts.

(** ** File names of action records *)

Module FilenameFacts.
Import Watcher.

Section WithUnicode.
Context `{Unicode}.

Lemma dash_or_underscore (c : Z) :
  contains [c] (lit "-_") = (c =? 45) || (c =? 95).
Proof.
  change (lit "-_") with [45; 95]. simpl.
  destruct (c =? 45), (c =? 95); reflexivity.
Qed.

Lemma safe_char_ascii (c : Z) :
  0 ≤ c < 128 →
  name_class (if isalnum c || contains [c] (lit "-_") then c else 95) = true.
Proof.
  intros Hc. rewrite dash_or_underscore.
  destruct (isalnum c || ((c =? 45) || (c =? 95))) eqn:Hk; [|reflexivity].
  unfold isalnum in Hk. unfold name_class.
  destruct (Z.ltb_spec c 256); [|lia].
  rewrite ?orb_true_iff, ?andb_true_iff, ?Z.leb_le, ?Z.eqb_eq in Hk.
  rewrite ?orb_true_iff, ?andb_true_iff, ?Z.leb_le, ?Z.eqb_eq.
  lia.
Qed.

(** C9, as the code has it.  The file name is
    [<prefix>_<sanitized identifier>_<timestamp>.md] with the time stamp
    [%Y-%m-%d_%H-%M-%S]; sanitizing keeps the length, keeps every character
    that [str.isalnum] accepts or that is [-] or [_], and turns every other
    character into [_].  For an ASCII identifier every character of the
    result lies in [[A-Za-z0-9_-]]. *)
Theorem generate_filename_shape (E : env) (prefix identifier : list Z)
    (w : world) :
  _generate_filename E prefix identifier w =
    (inl (prefix ++ lit "_" ++ safe_id identifier ++ lit "_"
            ++ fmt_file_stamp (clock E (ticks w)) ++ lit ".md"),
     set_ticks (S (ticks w)) w) ∧
  length (safe_id identifier) = length identifier ∧
  (∀ i c, identifier !! i = Some c →
     safe_id identifier !! i =
       Some (if isalnum c || (c =? 45) || (c =? 95) then c else 95)) ∧
  (Forall (λ c, 0 ≤ c < 128) identifier →
   Forall (λ c, name_class c = true) (safe_id identifier)).
Proof.
  split; [reflexivity|]. split; [apply length_fmap|]. split.
  - intros i c Hi. unfold safe_id. rewrite list_lookup_fmap, Hi.
    cbn [fmap option_fmap option_map].
    by rewrite dash_or_underscore, orb_assoc.
  - intros Hascii. unfold safe_id. apply Forall_fmap.
    eapply List.Forall_impl; [|exact Hascii]. intros c Hc.
    by apply safe_char_ascii.
Qed.

End WithUnicode.

(** The identifier [ab] is ASCII, so its sanitized form lies in the
    class. *)
Lemma generate_filename_shape_witness :
  Forall (λ c, name_class c = true) (@safe_id Sample.latin1_only (lit "ab")).
Proof.
  pose proof (@generate_filename_shape Sample.latin1_only Sample.calm
                (lit "FILE") (lit "ab")
                {| vault_path := []; drop_folder := []; running := false;
                   processed_ids := ∅; file_hashes := ∅; drop_dir := None;
                   scripts_dir := None; logger := []; ticks := 0 |})
    as (_ & _ & _ & Hclass).
  apply Hclass. repeat constructor; vm_compute; discriminate.
Defined.

(** C9, as stated, fails on an accented letter: [str.isalnum] accepts
    U+00E9, so the identifier keeps it and the file name contains a
    character outside [[A-Za-z0-9_-]]. *)
Lemma generate_filename_keeps_accent :
  (@_generate_filename Sample.latin1_only Sample.calm (lit "FILE") [233]
     {| vault_path := []; drop_folder := []; running := false;
        processed_ids := ∅; file_hashes := ∅; drop_dir := None;
        scripts_dir := None; logger := []; ticks := 0 |}).1
  = inl (lit "FILE_" ++ [233] ++ lit "_2026-11-03_09-05-07.md") ∧
  @safe_id Sample.latin1_only [233] = [233] ∧
  name_class 233 = false.
Proof. repeat split. Qed.

End FilenameFacts.

(** ** The change detector *)

Module ScanFacts.
Import Watcher PyFacts.

Section WithEnv.
Context `{Unicode} `{Codec} (E : env).

Lemma calculate_hash_file (w : world) d name data mt :
  drop_dir w = Some d → d !! name = Some (File data mt) →
  ∃ w', _calculate_hash E name w = (inl (fingerprint E (drop_folder w) name data), w')
        ∧ frame w w' ∧ file_hashes w' = file_hashes w.
Proof.
  intros Hd Hn. unfold _calculate_hash, try_except, bind, read_bytes, fingerprint.
  rewrite Hd, Hn. unfold drop_path.
  destruct (fault E OpRead _); simpl; eexists; (split; [reflexivity|]);
    by repeat split.
Qed.

Lemma check_file_scan (acc : list item) (w : world) d name data mt :
  drop_dir w = Some d → d !! name = Some (File data mt) →
  ∃ w', check_file E acc name (length data) w =
          (inl (scan_step E (drop_folder w) (acc, file_hashes w)
                  (name, File data mt)).1, w')
        ∧ file_hashes w' =
            (scan_step E (drop_folder w) (acc, file_hashes w)
               (name, File data mt)).2
        ∧ frame w w'.
Proof.
  intros Hd Hn. unfold check_file, scan_step, changed, eligible.
  cbn [fst snd].
  destruct (startswith (lit ".") name || bool_decide (suffix name = lit ".tmp")).
  { eexists; split; [reflexivity|]. by repeat split. }
  destruct (calculate_hash_file w d name data mt Hd Hn) as (w1 & Hh & Hf & Hfh).
  unfold bind at 1. rewrite Hh. cbn [negb andb].
  destruct (bool_decide (fingerprint E (drop_folder w) name data = [])) eqn:Hnil.
  { eexists; split; [reflexivity|]. split; [done|].
    destruct Hf as (?&?&?&?&?). by repeat split. }
  cbn [negb andb]. unfold bind at 1, get at 1.
  destruct Hf as (Hvp & Hdf & Hdd & Hsd & Htk).
  unfold drop_path. rewrite Hfh, Hdf.
  destruct (bool_decide (file_hashes w !! joinpath (drop_folder w) name
                         ≠ Some (fingerprint E (drop_folder w) name data)));
    [|eexists; split; [reflexivity|]; by repeat split].
  assert (fault E OpRead (joinpath (drop_folder w) name) = false) as Hfault.
  { apply bool_decide_eq_false in Hnil. unfold fingerprint in Hnil.
    by destruct (fault E OpRead _). }
  unfold bind, log, modify, try_except, read_bytes, ret, drop_path, entry_item.
  destruct (bool_decide (suffix name ∈ text_suffixes));
    cbn [drop_dir set_logger drop_folder file_hashes set_file_hashes fst snd];
    rewrite ?Hdd, ?Hd, ?Hn, ?Hdf, ?Hfault, ?Hfh;
    (eexists; split; [reflexivity|]);
    cbn [drop_dir set_logger drop_folder file_hashes set_file_hashes fst snd];
    rewrite ?Hfh, ?Hdf; (split; [reflexivity|]);
    repeat split; assumption.
Qed.

Lemma frame_refl (w : world) : frame w w.
Proof. by repeat split. Qed.

Lemma frame_trans (w1 w2 w3 : world) : frame w1 w2 → frame w2 w3 → frame w1 w3.
Proof.
  intros (?&?&?&?&?) (?&?&?&?&?). repeat split; congruence.
Qed.

Lemma fold_scan (l : list (list Z * node)) (acc : list item) (w : world) d :
  drop_dir w = Some d →
  (∀ e, e ∈ l → d !! e.1 = Some e.2) →
  ∃ w', fold_each l (loop_body E) acc w =
          (inl (scan E (drop_folder w) l (acc, file_hashes w)).1, w')
        ∧ file_hashes w' = (scan E (drop_folder w) l (acc, file_hashes w)).2
        ∧ frame w w'.
Proof.
  revert acc w. induction l as [|[name n] l IH]; intros acc w Hd Hl.
  - exists w. split; [reflexivity|]. split; [reflexivity|]. apply frame_refl.
  - assert (d !! name = Some n) as Hn by (apply (Hl (name, n)); left).
    assert (∃ w1, loop_body E acc (name, n) w =
                    (inl (scan_step E (drop_folder w) (acc, file_hashes w) (name, n)).1, w1)
                  ∧ file_hashes w1 =
                      (scan_step E (drop_folder w) (acc, file_hashes w) (name, n)).2
                  ∧ frame w w1) as (w1 & Hrun & Hfh & Hfr).
    { destruct n as [data mt|mt].
      - exact (check_file_scan acc w d name data mt Hd Hn).
      - exists w. split; [reflexivity|]. split; [reflexivity|]. apply frame_refl. }
    destruct (IH (scan_step E (drop_folder w) (acc, file_hashes w) (name, n)).1 w1)
      as (w' & Hrun' & Hfh' & Hfr').
    { destruct Hfr as (?&?&?&?&?). congruence. }
    { intros e He. apply Hl. by right. }
    exists w'. cbn [fold_each]. unfold bind. rewrite Hrun.
    assert (drop_folder w1 = drop_folder w) as Hdf by apply Hfr.
    rewrite Hdf, Hfh in Hrun', Hfh'.
    unfold scan. cbn [foldl]. unfold scan in Hrun', Hfh'.
    rewrite <- surjective_pairing in Hrun', Hfh'.
    split; [exact Hrun'|]. split; [exact Hfh'|].
    eapply frame_trans; eassumption.
Qed.

Lemma save_file_hashes_run (w : world) :
  ∃ w', _save_file_hashes E w = (inl tt, w')
        ∧ file_hashes w' = file_hashes w ∧ drop_dir w' = drop_dir w
        ∧ drop_folder w' = drop_folder w ∧ vault_path w' = vault_path w
        ∧ ticks w' = ticks w.
Proof.
  unfold _save_file_hashes, try_except, bind, get, write_json, log, modify.
  destruct (scripts_dir w); [destruct (fault E OpWrite _)|];
    eexists; (split; [reflexivity|]); by repeat split.
Qed.

Lemma check_for_updates_scan (w : world) d :
  drop_dir w = Some d →
  ∃ w', check_for_updates E w =
          (inl (scan E (drop_folder w) (listing d) ([], file_hashes w)).1, w')
        ∧ file_hashes w' =
            (scan E (drop_folder w) (listing d) ([], file_hashes w)).2
        ∧ drop_dir w' = Some d ∧ drop_folder w' = drop_folder w
        ∧ vault_path w' = vault_path w ∧ ticks w' = ticks w.
Proof.
  intros Hd.
  destruct (fold_scan (listing d) [] w d Hd) as (w1 & Hrun & Hfh & Hfr).
  { intros [name n] He. apply elem_of_map_to_list.
    unfold listing in He. apply list_elem_of_filter in He. apply He. }
  destruct (save_file_hashes_run w1) as (w2 & Hsave & Hfh2 & Hdd2 & Hdf2 & Hvp2 & Htk2).
  exists w2. unfold check_for_updates, try_except.
  unfold bind at 1. unfold list_drop_folder. rewrite Hd.
  unfold bind at 1. rewrite Hrun. unfold bind. rewrite Hsave.
  destruct Hfr as (?&?&?&?&?).
  split; [reflexivity|]. repeat split; congruence.
Qed.

Lemma check_for_updates_no_dir (w : world) :
  drop_dir w = None →
  ∃ w', check_for_updates E w = (inl [], w') ∧ drop_dir w' = None
        ∧ file_hashes w' = file_hashes w.
Proof.
  intros Hd. unfold check_for_updates, try_except, bind, list_drop_folder.
  rewrite Hd. unfold log, modify, ret. eexists. by repeat split.
Qed.

(** *** The scan without the monad *)

Section Pure.
Context (folder : list Z).

Lemma nodup_fst_unique {A B} (l : list (A * B)) x y1 y2 :
  NoDup l.*1 → (x, y1) ∈ l → (x, y2) ∈ l → y1 = y2.
Proof.
  induction l as [|[a b] l IH]; intros Hnd H1 H2.
  - by apply elem_of_nil in H1.
  - rewrite fmap_cons in Hnd. apply list.NoDup_cons in Hnd as [Hnotin Hnd].
    cbn [fst] in Hnotin.
    apply elem_of_cons in H1 as [H1|H1], H2 as [H2|H2].
    + congruence.
    + exfalso. apply Hnotin. injection H1 as <- <-.
      apply list_elem_of_fmap. by exists (x, y2).
    + exfalso. apply Hnotin. injection H2 as <- <-.
      apply list_elem_of_fmap. by exists (x, y1).
    + by apply IH.
Qed.

Lemma joinpath_inj (a b : list Z) : joinpath folder a = joinpath folder b → a = b.
Proof.
  unfold joinpath. intros Hab. apply app_inv_head in Hab.
  by apply app_inv_head in Hab.
Qed.

Lemma changed_ext (h h' : gmap (list Z) (list Z)) name data :
  h !! joinpath folder name = h' !! joinpath folder name →
  changed E folder h name data = changed E folder h' name data.
Proof. intros Heq. unfold changed. by rewrite Heq. Qed.

Lemma scan_step_lookup st (e : list Z * node) key :
  joinpath folder e.1 ≠ key →
  (scan_step E folder st e).2 !! key = st.2 !! key.
Proof.
  intros Hne. unfold scan_step. destruct e.2 as [data mt|mt]; [|done].
  destruct (changed E folder st.2 e.1 data); [|done].
  cbn [snd]. by rewrite lookup_insert_ne.
Qed.

Lemma scan_lookup l st key :
  (∀ e, e ∈ l → joinpath folder e.1 ≠ key) →
  (scan E folder l st).2 !! key = st.2 !! key.
Proof.
  revert st. induction l as [|e l IH]; intros st Hl; [done|].
  unfold scan. cbn [foldl]. fold (scan E folder l (scan_step E folder st e)).
  rewrite IH; [|intros e' He'; apply Hl; by right].
  apply scan_step_lookup. apply Hl. by left.
Qed.

Lemma hits_ext (h h' : gmap (list Z) (list Z)) l :
  (∀ e, e ∈ l → h !! joinpath folder e.1 = h' !! joinpath folder e.1) →
  hits E folder h l = hits E folder h' l.
Proof.
  induction l as [|e l IH]; intros Hl; [done|].
  unfold hits. cbn [flat_map]. fold (hits E folder h l) (hits E folder h' l).
  rewrite IH; [|intros e' He'; apply Hl; by right].
  destruct e.2 as [data mt|mt]; [|done].
  rewrite (changed_ext h h'); [done|]. apply Hl. by left.
Qed.

Lemma scan_step_hits st (e : list Z * node) :
  (scan_step E folder st e).1 = st.1 ++ hits E folder st.2 [e].
Proof.
  unfold scan_step, hits. cbn [flat_map]. rewrite app_nil_r.
  destruct e.2 as [data mt|mt]; [|by rewrite app_nil_r].
  destruct (changed E folder st.2 e.1 data); [done|by rewrite app_nil_r].
Qed.

(** File names are unique, so every file is judged against the dictionary
    the scan started with. *)
Lemma scan_items l st :
  NoDup l.*1 → (scan E folder l st).1 = st.1 ++ hits E folder st.2 l.
Proof.
  revert st. induction l as [|e l IH]; intros st Hnd.
  - by rewrite app_nil_r.
  - rewrite fmap_cons in Hnd. apply list.NoDup_cons in Hnd as [Hnotin Hnd].
    unfold scan. cbn [foldl]. fold (scan E folder l (scan_step E folder st e)).
    rewrite (IH _ Hnd), scan_step_hits, <- app_assoc. f_equal.
    change (e :: l) with ([e] ++ l). unfold hits at 3. rewrite flat_map_app.
    fold (hits E folder st.2 [e]) (hits E folder st.2 l). f_equal.
    apply hits_ext. intros e' He'. apply scan_step_lookup.
    intros Heq. apply joinpath_inj in Heq. apply Hnotin.
    rewrite Heq. apply list_elem_of_fmap. by exists e'.
Qed.

Lemma elem_of_hits (h : gmap (list Z) (list Z)) l name data mt :
  NoDup l.*1 → (name, File data mt) ∈ l →
  (∃ it, it ∈ hits E folder h l ∧ file_path it = joinpath folder name)
  ↔ changed E folder h name data = true.
Proof.
  intros Hnd Hin. unfold hits. split.
  - intros (it & Hit & Hpath). apply list_elem_of_In, in_flat_map in Hit.
    destruct Hit as ([name' n'] & Hin' & Hit). apply list_elem_of_In in Hin'.
    cbn [fst snd] in Hit. destruct n' as [data' mt'|mt']; [|done].
    destruct (changed E folder h name' data') eqn:Hch; [|done].
    destruct Hit as [<-|[]]. cbn [file_path entry_item] in Hpath.
    apply joinpath_inj in Hpath. subst name'.
    assert (File data' mt' = File data mt) as Heq
      by (eapply nodup_fst_unique; eassumption).
    congruence.
  - intros Hch. exists (entry_item E folder name data). split; [|done].
    apply list_elem_of_In, in_flat_map. exists (name, File data mt).
    split; [by apply list_elem_of_In|]. cbn [fst snd]. rewrite Hch. by left.
Qed.

(** After a scan no file of the listing differs from the dictionary. *)
Lemma scan_settles l st name data mt :
  NoDup l.*1 → (name, File data mt) ∈ l →
  changed E folder (scan E folder l st).2 name data = false.
Proof.
  revert st. induction l as [|e l IH]; intros st Hnd Hin.
  - by apply elem_of_nil in Hin.
  - rewrite fmap_cons in Hnd. apply list.NoDup_cons in Hnd as [Hnotin Hnd].
    unfold scan. cbn [foldl]. fold (scan E folder l (scan_step E folder st e)).
    apply elem_of_cons in Hin as [<-|Hin]; [|by apply IH].
    rewrite (changed_ext _ (scan_step E folder st (name, File data mt)).2).
    + unfold scan_step. cbn [fst snd].
      destruct (changed E folder st.2 name data) eqn:Hch; [|done].
      cbn [snd]. unfold changed. rewrite lookup_insert_eq.
      rewrite (bool_decide_eq_false_2 (Some _ ≠ Some _)); [|by intros []].
      by rewrite andb_false_r.
    + apply scan_lookup. intros e' He' Heq. apply joinpath_inj in Heq.
      apply Hnotin. cbn [fst] in *. rewrite <- Heq.
      apply list_elem_of_fmap. by exists e'.
Qed.

(** The same for a scan in another environment, as far as the first scan
    could read what the second can. *)
Lemma scan_settles_for (E' : env) l st name data mt :
  NoDup l.*1 → (name, File data mt) ∈ l →
  (fault E' OpRead (joinpath folder name) = false →
   fault E OpRead (joinpath folder name) = false) →
  changed E' folder (scan E folder l st).2 name data = false.
Proof.
  intros Hnd Hin Hread.
  pose proof (scan_settles l st name data mt Hnd Hin) as Hsame.
  unfold changed, fingerprint in *.
  destruct (fault E' OpRead (joinpath folder name)).
  - by rewrite bool_decide_eq_true_2, andb_false_r.
  - by rewrite (Hread eq_refl) in Hsame.
Qed.

Lemma hits_settled (h : gmap (list Z) (list Z)) l :
  (∀ name data mt, (name, File data mt) ∈ l →
     changed E folder h name data = false) →
  hits E folder h l = [].
Proof.
  induction l as [|[name n] l IH]; intros Hl; [done|].
  unfold hits. cbn [flat_map fst snd]. fold (hits E folder h l).
  rewrite IH; [|intros ????; eapply Hl; by right].
  destruct n as [data mt|mt]; [|done].
  rewrite (Hl name data mt); [done|by left].
Qed.

(** The scan does not look at modification times. *)
Lemma scan_strip l st :
  scan E folder (prod_map id strip_mtime <$> l) st = scan E folder l st.
Proof.
  revert st. induction l as [|[name n] l IH]; intros st; [done|].
  rewrite fmap_cons. unfold scan. cbn [foldl].
  fold (scan E folder (prod_map id strip_mtime <$> l)).
  fold (scan E folder l).
  replace (scan_step E folder st (prod_map id strip_mtime (name, n)))
    with (scan_step E folder st (name, n)); [apply IH|].
  by destruct n.
Qed.

Lemma listing_strip (d : gmap (list Z) node) :
  listing (strip_mtime <$> d) = prod_map id strip_mtime <$> listing d.
Proof.
  unfold listing. rewrite map_to_list_fmap.
  induction (map_to_list d) as [|[name n] l IH]; [done|].
  rewrite fmap_cons. cbn [prod_map id fst snd].
  rewrite !filter_cons. cbn [snd]. rewrite IH.
  destruct n; cbn [strip_mtime is_file]; repeat case_decide; try done.
Qed.

Lemma scan_same_bytes (d d' : gmap (list Z) node) st :
  strip_mtime <$> d' = strip_mtime <$> d →
  scan E folder (listing d') st = scan E folder (listing d) st.
Proof.
  intros Heq. rewrite <- (scan_strip (listing d')), <- (scan_strip (listing d)).
  by rewrite <- !listing_strip, Heq.
Qed.

Lemma NoDup_listing (d : gmap (list Z) node) : NoDup (listing d).*1.
Proof.
  eapply sublist_NoDup; [apply (NoDup_fst_map_to_list d)|].
  apply fmap_sublist, sublist_filter.
Qed.

Lemma elem_of_listing (d : gmap (list Z) node) name data mt :
  (name, File data mt) ∈ listing d ↔ d !! name = Some (File data mt).
Proof.
  unfold listing. rewrite list_elem_of_filter, elem_of_map_to_list.
  cbn [snd is_file]. split; [by intros [_ ?]|done].
Qed.

End Pure.

(** *** Two scans in a row *)

Lemma rescan_empty (w : world) d d' :
  drop_dir w = Some d →
  strip_mtime <$> d' = strip_mtime <$> d →
  (check_for_updates E (set_drop_dir (Some d') (check_for_updates E w).2)).1
  = inl [].
Proof.
  intros Hd Hsame.
  destruct (check_for_updates_scan w d Hd) as (w1 & Hrun & Hfh & Hdd & Hdf & _).
  rewrite Hrun. cbn [snd].
  destruct (check_for_updates_scan (set_drop_dir (Some d') w1) d' eq_refl)
    as (w2 & Hrun2 & _).
  rewrite Hrun2. cbn [fst drop_folder file_hashes set_drop_dir].
  rewrite (scan_same_bytes _ d d' _ Hsame), Hdf.
  rewrite scan_items by apply NoDup_listing. cbn [fst snd app].
  f_equal. apply hits_settled. intros name data mt Hin.
  rewrite Hfh. apply (scan_settles _ _ _ _ _ mt); [apply NoDup_listing|done].
Qed.

(** C1.  A regular file of the drop folder that is not hidden, does not end
    in [.tmp] and whose hash is computed is reported exactly when no
    fingerprint is stored for its path or the stored one differs from the
    computed one.  Modification times play no part: a folder with the same
    names and bytes gives the same report, and after a scan a folder in
    which only modification times have changed gives an empty report. *)
Theorem change_detection_by_fingerprint (w : world) d name data mt h :
  drop_dir w = Some d →
  d !! name = Some (File data mt) →
  startswith (lit ".") name = false →
  endswith (lit ".tmp") name = false →
  (_calculate_hash E name w).1 = inl h →
  h ≠ [] →
  ∃ new_files,
    (check_for_updates E w).1 = inl new_files ∧
    ((∃ it, it ∈ new_files ∧ file_path it = drop_path w name) ↔
     (file_hashes w !! drop_path w name = None ∨
      ∃ stored, file_hashes w !! drop_path w name = Some stored ∧ stored ≠ h)) ∧
    (∀ d', strip_mtime <$> d' = strip_mtime <$> d →
       (check_for_updates E (set_drop_dir (Some d') w)).1 = inl new_files) ∧
    (∀ d', strip_mtime <$> d' = strip_mtime <$> d →
       (check_for_updates E
          (set_drop_dir (Some d') (check_for_updates E w).2)).1 = inl []).
Proof.
  intros Hd Hn Hdot Htmp Hh Hne.
  destruct (check_for_updates_scan w d Hd) as (w1 & Hrun & _).
  exists (scan E (drop_folder w) (listing d) ([], file_hashes w)).1.
  split; [by rewrite Hrun|]. split; [|split].
  - destruct (calculate_hash_file w d name data mt Hd Hn) as (w' & Hcalc & _).
    rewrite Hcalc in Hh. injection Hh as <-.
    rewrite scan_items by apply NoDup_listing. cbn [fst snd app].
    unfold drop_path.
    rewrite (elem_of_hits (drop_folder w) _ _ name data mt);
      [|apply NoDup_listing|by apply elem_of_listing].
    unfold changed, eligible. rewrite Hdot.
    rewrite (bool_decide_eq_false_2 (suffix name = lit ".tmp")).
    2:{ intros Hs. apply suffix_tmp in Hs; [congruence|done]. }
    rewrite (bool_decide_eq_false_2 (fingerprint _ _ _ _ = [])) by done.
    cbn [orb negb andb]. rewrite bool_decide_eq_true.
    destruct (file_hashes w !! joinpath (drop_folder w) name) as [stored|].
    + split.
      * intros Hs. right. exists stored. split; [done|]. congruence.
      * intros [?|(? & [= <-] & ?)]; congruence.
    + split; [by left|done].
  - intros d' Hsame.
    destruct (check_for_updates_scan (set_drop_dir (Some d') w) d' eq_refl)
      as (w2 & Hrun2 & _).
    rewrite Hrun2. cbn [fst drop_folder file_hashes set_drop_dir].
    by rewrite (scan_same_bytes _ d d' _ Hsame).
  - intros d' Hsame. by apply rescan_empty with d.
Qed.

End WithEnv.

Section TwoScans.
Context `{Unicode} `{Codec} (E E' : env).

(** C3.  A second scan of a drop folder whose files have the bytes they
    had at the first scan, whatever has become of their modification
    times, reports nothing, provided the first scan could read every file
    that the second can: the first scan has stored the fingerprint of
    every file it reported.  What may be read need not be the same in the
    two scans otherwise.  A scan of a drop folder that does not exist
    reports nothing either. *)
Theorem second_scan_reports_nothing (w : world) :
  (∀ d d',
     drop_dir w = Some d →
     strip_mtime <$> d' = strip_mtime <$> d →
     (∀ name data mt,
        d !! name = Some (File data mt) →
        fault E' OpRead (drop_path w name) = false →
        fault E OpRead (drop_path w name) = false) →
     (check_for_updates E' (set_drop_dir (Some d') (check_for_updates E w).2)).1
     = inl []) ∧
  (drop_dir w = None →
   (check_for_updates E' (check_for_updates E w).2).1 = inl []).
Proof.
  split.
  - intros d d' Hd Hsame Hread.
    destruct (check_for_updates_scan E w d Hd)
      as (w1 & Hrun & Hfh & Hdd & Hdf & _).
    rewrite Hrun. cbn [snd].
    destruct (check_for_updates_scan E' (set_drop_dir (Some d') w1) d' eq_refl)
      as (w2 & Hrun2 & _).
    rewrite Hrun2. cbn [fst drop_folder file_hashes set_drop_dir].
    rewrite (scan_same_bytes E' _ d d' _ Hsame), Hdf.
    rewrite scan_items by apply NoDup_listing. cbn [fst snd app].
    f_equal. apply hits_settled. intros name data mt Hin.
    rewrite Hfh.
    apply (scan_settles_for E _ E' _ _ _ _ mt); [apply NoDup_listing|done|].
    apply (Hread name data mt). by apply elem_of_listing in Hin.
  - intros Hd.
    destruct (check_for_updates_no_dir E w Hd) as (w1 & Hrun & Hdd & _).
    rewrite Hrun. cbn [snd].
    destruct (check_for_updates_no_dir E' w1 Hdd) as (w2 & Hrun2 & _).
    by rewrite Hrun2.
Qed.

End TwoScans.

(** The sample drop folder holds one new file: it is reported. *)
Lemma change_detection_by_fingerprint_witness :
  ∃ new_files,
    (@check_for_updates Sample.latin1_only Sample.tagged_codec Sample.calm
       Sample.fresh_drop).1 = inl new_files ∧
    ∃ it, it ∈ new_files ∧
          file_path it = lit "/vault/Drop_Folder/urgent_invoice.txt".
Proof.
  destruct (@change_detection_by_fingerprint Sample.latin1_only
              Sample.tagged_codec Sample.calm Sample.fresh_drop
              {[ lit "urgent_invoice.txt" := File (lit "please pay") 5 ]}
              (lit "urgent_invoice.txt") (lit "please pay") 5
              (lit "md5:please pay"))
    as (new_files & Hrun & Hiff & _).
  - reflexivity.
  - vm_compute. reflexivity.
  - reflexivity.
  - reflexivity.
  - reflexivity.
  - discriminate.
  - exists new_files. split; [exact Hrun|]. apply Hiff. left.
    vm_compute. reflexivity.
Defined.

(** The sample file keeps its bytes and gets a new modification time: a
    second scan reports nothing. *)
Lemma second_scan_reports_nothing_witness :
  (@check_for_updates Sample.latin1_only Sample.tagged_codec Sample.calm
     (set_drop_dir
        (Some {[ lit "urgent_invoice.txt" := File (lit "please pay") 9 ]})
        (@check_for_updates Sample.latin1_only Sample.tagged_codec Sample.calm
           Sample.fresh_drop).2)).1
  = inl [].
Proof.
  destruct (@second_scan_reports_nothing Sample.latin1_only Sample.tagged_codec
              Sample.calm Sample.calm Sample.fresh_drop) as [Hsame _].
  apply (Hsame {[ lit "urgent_invoice.txt" := File (lit "please pay") 5 ]}).
  - reflexivity.
  - by rewrite !map_fmap_singleton.
  - intros name data mt _ _. reflexivity.
Defined.

(** C3, as stated, fails when the first scan could not read a file: the
    file is not reported and no fingerprint is stored for it, so the
    second scan, which can read it, reports it although neither its bytes
    nor anything else in the folder has changed. *)
Lemma second_scan_retries_unread_file :
  (@check_for_updates Sample.latin1_only Sample.tagged_codec Sample.unreadable
     Sample.fresh_drop).1 = inl [] ∧
  drop_dir (@check_for_updates Sample.latin1_only Sample.tagged_codec
              Sample.unreadable Sample.fresh_drop).2
  = drop_dir Sample.fresh_drop ∧
  ∃ it,
    (@check_for_updates Sample.latin1_only Sample.tagged_codec Sample.calm
       (@check_for_updates Sample.latin1_only Sample.tagged_codec
          Sample.unreadable Sample.fresh_drop).2).1 = inl [it] ∧
    file_name it = lit "urgent_invoice.txt".
Proof.
  split; [vm_compute; reflexivity|]. split; [vm_compute; reflexivity|].
  eexists. split; vm_compute; reflexivity.
Qed.

End ScanFacts.

(** ** The dashboard *)

Module DashboardFacts.
Import Orchestrator PyFacts.

Lemma brace_free_Forall (s : list Z) :
  brace_free s = true ↔ Forall (λ c, c ≠ 123 ∧ c ≠ 125) s.
Proof.
  unfold brace_free. rewrite forallb_forall, Forall_forall.
  split; intros Hs c Hc.
  - specialize (Hs c Hc).
    apply andb_true_iff in Hs as [H1 H2].
    apply negb_true_iff, Z.eqb_neq in H1, H2. done.
  - destruct (Hs c Hc) as [H1 H2].
    apply andb_true_iff. split; by apply negb_true_iff, Z.eqb_neq.
Qed.

Lemma brace_free_app (s t : list Z) :
  brace_free (s ++ t) = brace_free s && brace_free t.
Proof. apply forallb_app. Qed.

(** Two brace-free keys whose placeholders agree up to the closing braces
    are equal. *)
Lemma key_prefix (name key rest : list Z) :
  brace_free name = true → brace_free key = true →
  startswith (name ++ lit "}}") (key ++ lit "}}" ++ rest) = true →
  name = key.
Proof.
  revert key. induction name as [|a name IH]; intros key Hn Hk Hs.
  - destruct key as [|c key]; [done|]. exfalso.
    cbn in Hs. apply andb_true_iff in Hs as [Hc _]. apply Z.eqb_eq in Hc.
    cbn in Hk. apply andb_true_iff in Hk as [Hk _].
    rewrite <- Hc in Hk. done.
  - cbn in Hn. apply andb_true_iff in Hn as [Ha Hn].
    destruct key as [|c key].
    + exfalso. cbn in Hs. apply andb_true_iff in Hs as [Hc _].
      apply Z.eqb_eq in Hc. rewrite Hc in Ha. done.
    + cbn in Hk. apply andb_true_iff in Hk as [_ Hk].
      change (startswith (name ++ lit "}}") (key ++ lit "}}" ++ rest)) with
        (startswith (name ++ lit "}}") (key ++ lit "}}" ++ rest)) in *.
      cbn [app startswith] in Hs. apply andb_true_iff in Hs as [Hc Hs].
      apply Z.eqb_eq in Hc. subst c. f_equal. by apply IH.
Qed.

Lemma key_chars_brace_free (key : list Z) :
  forallb key_char key = true → brace_free key = true.
Proof.
  unfold brace_free. rewrite !forallb_forall. intros Hk c Hc.
  specialize (Hk c Hc). unfold key_char in Hk.
  apply andb_true_iff in Hk as [H1 H2].
  apply andb_true_iff. split; apply negb_true_iff, Z.eqb_neq; lia.
Qed.

Lemma placeholder_chars (key : list Z) (c : Z) :
  forallb key_char key = true → c ∈ placeholder key → 95 ≤ c ≤ 125.
Proof.
  intros Hk. rewrite forallb_forall in Hk.
  change (placeholder key) with (123 :: 123 :: (key ++ [125; 125])).
  intros Hin. do 2 (apply elem_of_cons in Hin as [->|Hin]; [lia|]).
  apply elem_of_app in Hin as [Hin|Hin].
  - apply list_elem_of_In, Hk in Hin. unfold key_char in Hin. lia.
  - repeat (apply elem_of_cons in Hin as [->|Hin]; [lia|]).
    by apply elem_of_nil in Hin.
Qed.

Lemma inert_inv (t : list Z) :
  inert t = true →
  ∃ c t', t = c :: t' ∧ (c < 95 ∨ 125 < c) ∧ Forall (λ x, x ≠ 123) t.
Proof.
  destruct t as [|c t']; [done|]. unfold inert, outside.
  intros [Hc Ht]%andb_true_iff. exists c, t'. split; [done|]. split.
  - apply orb_true_iff in Hc as [Hc|Hc]; [left|right]; lia.
  - rewrite forallb_forall in Ht. apply Forall_forall. intros x Hx.
    specialize (Ht x Hx). apply negb_true_iff, Z.eqb_neq in Ht. done.
Qed.

Lemma inert_intro (t : list Z) :
  outside t = true → brace_free t = true → inert t = true.
Proof.
  intros Ho Hb. unfold inert. rewrite Ho. cbn [andb].
  unfold brace_free in Hb. rewrite forallb_forall in *. intros c Hc.
  specialize (Hb c Hc). by apply andb_true_iff in Hb as [? _].
Qed.

(** An occurrence of [{{name}}] that starts before a placeholder ends
    before it: the two opening braces of the placeholder fit nowhere else
    in [{{name}}]. *)
Lemma open_brace_stops (name key b x : list Z) :
  brace_free name = true → brace_free key = true → x ≠ [] →
  startswith (placeholder name) (x ++ placeholder key ++ b) = true →
  startswith (placeholder name) x = true.
Proof.
  intros Hn Hk Hx.
  change (placeholder name) with (123 :: 123 :: (name ++ lit "}}")).
  change (placeholder key ++ b) with (123 :: 123 :: ((key ++ lit "}}") ++ b)).
  assert (123 ∉ name ++ lit "}}") as Hclosed.
  { apply brace_free_Forall in Hn. rewrite Forall_forall in Hn.
    intros [Hin|Hin]%elem_of_app.
    - apply list_elem_of_In in Hin. by destruct (Hn _ Hin).
    - repeat (apply elem_of_cons in Hin as [?|Hin]; [done|]).
      by apply elem_of_nil in Hin. }
  destruct x as [|c1 [|c2 x]]; [done|..]; cbn [app startswith].
  - intros Hs. exfalso.
    apply andb_true_iff in Hs as [_ Hs]. apply andb_true_iff in Hs as [_ Hs].
    apply Hclosed. apply startswith_inv in Hs as [t Ht].
    destruct name as [|n0 name]; [done|]. injection Ht as <- _. left.
  - intros Hs.
    apply andb_true_iff in Hs as [-> Hs]. apply andb_true_iff in Hs as [-> Hs].
    cbn [andb].
    by apply (startswith_barrier _ _ 123 (123 :: (key ++ lit "}}") ++ b)).
Qed.

(** *** One pass of the loop of [update_dashboard] *)

Section Replace.
Context (name v : list Z) (Hname : forallb key_char name = true).

Lemma replace_hole_other (key rest : list Z) :
  brace_free key = true → key ≠ name →
  replace (placeholder name) v (placeholder key ++ rest)
  = placeholder key ++ replace (placeholder name) v rest.
Proof.
  intros Hk Hne. pose proof (key_chars_brace_free _ Hname) as Hn.
  change (placeholder key ++ rest) with (123 :: 123 :: ((key ++ lit "}}") ++ rest)).
  rewrite replace_cons; [|done|].
  2:{ change (placeholder name) with (123 :: 123 :: (name ++ lit "}}")).
      cbn [startswith]. rewrite !Z.eqb_refl. cbn [andb].
      apply not_true_iff_false. intros Hs. apply Hne. symmetry.
      rewrite <- app_assoc in Hs. by apply (key_prefix name key rest). }
  rewrite replace_cons; [|done|].
  2:{ change (placeholder name) with (123 :: 123 :: (name ++ lit "}}")).
      destruct key as [|c key].
      - reflexivity.
      - cbn in Hk. apply andb_true_iff in Hk as [Hc _].
        apply andb_true_iff in Hc as [Hc _].
        apply negb_true_iff, Z.eqb_neq in Hc.
        cbn [app startswith]. rewrite Z.eqb_refl.
        rewrite (proj2 (Z.eqb_neq 123 c)) by done. done. }
  change (placeholder name) with (123 :: (123 :: name ++ lit "}}")).
  rewrite replace_skip.
  - unfold placeholder. by rewrite <- !app_assoc.
  - apply Forall_app. split.
    + apply brace_free_Forall in Hk.
      eapply List.Forall_impl; [|exact Hk]. by intros c [? _].
    + by repeat constructor.
Qed.

(** Inert text is copied, and no occurrence reaches across it. *)
Lemma replace_inert (a t b : list Z) :
  inert t = true →
  replace (placeholder name) v (a ++ t ++ b)
  = replace (placeholder name) v a ++ t ++ replace (placeholder name) v b.
Proof.
  intros (c & t' & Ht & Hc & Hopen)%inert_inv.
  rewrite replace_split; [|done|].
  - f_equal. change (placeholder name) with (123 :: (123 :: name ++ lit "}}")).
    by apply replace_skip.
  - intros x _. rewrite Ht. cbn [app]. apply startswith_barrier.
    intros Hin. apply (placeholder_chars _ _ Hname) in Hin. lia.
Qed.

(** Every occurrence of the placeholder is replaced, wherever it
    stands. *)
Lemma replace_occurrence (a b : list Z) :
  replace (placeholder name) v (a ++ placeholder name ++ b)
  = replace (placeholder name) v a ++ v ++ replace (placeholder name) v b.
Proof.
  rewrite replace_split; [|done|].
  - f_equal. by apply replace_match.
  - intros x Hx.
    apply open_brace_stops; [by apply key_chars_brace_free..|done].
Qed.

(** Every other placeholder stays, wherever it stands. *)
Lemma replace_other (a key b : list Z) :
  brace_free key = true → key ≠ name →
  replace (placeholder name) v (a ++ placeholder key ++ b)
  = replace (placeholder name) v a ++ placeholder key
    ++ replace (placeholder name) v b.
Proof.
  intros Hk Hne. rewrite replace_split; [|done|].
  - f_equal. by apply replace_hole_other.
  - intros x Hx.
    apply open_brace_stops; [by apply key_chars_brace_free|done..].
Qed.

Lemma replace_plain (t : list Z) :
  Forall (λ x, x ≠ 123) t → replace (placeholder name) v t = t.
Proof.
  intros Ht. rewrite <- (app_nil_r t) at 1.
  change (placeholder name) with (123 :: (123 :: name ++ lit "}}")).
  rewrite replace_skip by done. by rewrite app_nil_r.
Qed.

End Replace.

(** *** The whole loop *)

Lemma substitutions_cons (name v : list Z) (values : list (list Z * list Z))
    (s : list Z) :
  render (substitutions ((name, v) :: values)) s
  = render (substitutions values) (replace (placeholder name) v s).
Proof. reflexivity. Qed.

Lemma render_plain (values : list (list Z * list Z)) (t : list Z) :
  Forall (λ x, x ≠ 123) t → render (substitutions values) t = t.
Proof.
  intros Ht. induction values as [|[name v] values IH]; [done|].
  by rewrite substitutions_cons, replace_plain.
Qed.

Lemma render_inert (values : list (list Z * list Z)) (a t b : list Z) :
  forallb (λ r, forallb key_char r.1) values = true →
  inert t = true →
  render (substitutions values) (a ++ t ++ b)
  = render (substitutions values) a ++ t ++ render (substitutions values) b.
Proof.
  intros Hkeys Ht. revert a b.
  induction values as [|[name v] values IH]; intros a b; [done|].
  cbn [forallb fst] in Hkeys. apply andb_true_iff in Hkeys as [Hname Hkeys].
  rewrite !substitutions_cons, replace_inert by done. by apply IH.
Qed.

(** A placeholder with a value becomes that value and any other
    placeholder stays, whatever stands before and behind it; the rest of
    the template is rendered as it would be on its own. *)
Lemma render_placeholder (values : list (list Z * list Z)) (a key b : list Z) :
  forallb (λ r, forallb key_char r.1) values = true →
  forallb (λ r, inert r.2) values = true →
  brace_free key = true →
  render (substitutions values) (a ++ placeholder key ++ b)
  = render (substitutions values) a
    ++ default (placeholder key) (assoc key values)
    ++ render (substitutions values) b.
Proof.
  intros Hkeys Hvalues Hkey. revert a b.
  induction values as [|[name v] values IH]; intros a b; [done|].
  cbn [forallb fst snd] in Hkeys, Hvalues.
  apply andb_true_iff in Hkeys as [Hname Hkeys].
  apply andb_true_iff in Hvalues as [Hv Hvalues].
  rewrite !substitutions_cons. cbn [assoc fst snd]. case_bool_decide as Hk.
  - subst key. rewrite replace_occurrence by done. by apply render_inert.
  - rewrite replace_other by (done || congruence). by apply IH.
Qed.

Lemma assoc_Some (key v : list Z) (values : list (list Z * list Z)) :
  assoc key values = Some v → (key, v) ∈ values.
Proof.
  induction values as [|[k x] values IH]; [done|]. cbn [assoc fst snd].
  case_bool_decide as Hk.
  - intros [= <-]. subst k. left.
  - intros Ha. right. by apply IH.
Qed.

(** *** The values are free of braces *)

Lemma brace_free_digits (d : Decimal.uint) : brace_free (uint_digits d) = true.
Proof. induction d; [done|exact IHd ..]. Qed.

Lemma brace_free_str_of_nat (n : nat) : brace_free (str_of_nat n) = true.
Proof. apply brace_free_digits. Qed.

Lemma brace_free_pad (width n : nat) : brace_free (pad width n) = true.
Proof.
  unfold pad. rewrite brace_free_app, brace_free_str_of_nat, andb_true_r.
  induction (width - length (str_of_nat n))%nat as [|k IH]; [done|].
  cbn. exact IH.
Qed.

Lemma brace_free_fmt_date (t : datetime) : brace_free (fmt_date t) = true.
Proof. unfold fmt_date. by rewrite !brace_free_app, !brace_free_pad. Qed.

Lemma brace_free_fmt_date_time (t : datetime) :
  brace_free (fmt_date_time t) = true.
Proof.
  unfold fmt_date_time.
  by rewrite !brace_free_app, brace_free_fmt_date, !brace_free_pad.
Qed.

Lemma brace_free_isoformat (t : datetime) : brace_free (isoformat t) = true.
Proof.
  unfold isoformat.
  rewrite !brace_free_app, brace_free_fmt_date, !brace_free_pad.
  destruct (microsecond t =? 0)%nat; [done|].
  by rewrite brace_free_app, brace_free_pad.
Qed.

Lemma dashboard_values_brace_free (E : env) (w : world) :
  forallb (λ r, brace_free r.1) (dashboard_values E w) = true ∧
  forallb (λ r, brace_free r.2) (dashboard_values E w) = true.
Proof.
  split; [reflexivity|]. unfold dashboard_values. cbn [forallb snd].
  rewrite !brace_free_str_of_nat, brace_free_fmt_date_time, brace_free_isoformat.
  by destruct (running w).
Qed.

(** *** The values are inert *)

Lemma outside_app (a b : list Z) : outside a = true → outside (a ++ b) = true.
Proof. by destruct a. Qed.

Lemma to_uint_nonnil (n : nat) : Nat.to_uint n ≠ Nil.
Proof.
  rewrite <- (Unsigned.of_to n) at 1. rewrite Unsigned.to_of.
  apply unorm_nonnil.
Qed.

Lemma outside_str_of_nat (n : nat) : outside (str_of_nat n) = true.
Proof.
  unfold str_of_nat. pose proof (to_uint_nonnil n) as Hn.
  by destruct (Nat.to_uint n).
Qed.

Lemma outside_pad (width n : nat) : outside (pad width n) = true.
Proof.
  unfold pad. destruct (width - length (str_of_nat n))%nat; [|done].
  apply outside_str_of_nat.
Qed.

Lemma dashboard_values_inert (E : env) (w : world) :
  forallb (λ r, forallb key_char r.1) (dashboard_values E w) = true ∧
  forallb (λ r, inert r.2) (dashboard_values E w) = true.
Proof.
  split; [reflexivity|].
  destruct (dashboard_values_brace_free E w) as [_ Hb]. revert Hb.
  unfold dashboard_values. cbn [forallb snd].
  rewrite !andb_true_iff. intros Hb.
  repeat match goal with
         | H : _ ∧ _ |- _ => destruct H
         | |- _ ∧ _ => split
         end;
    try done; apply inert_intro; try done;
    try apply outside_str_of_nat;
    try (by destruct (running w));
    unfold fmt_date_time, isoformat, fmt_date; rewrite <- ?app_assoc;
    apply outside_app, outside_pad.
Qed.

(** *** [update_dashboard] step by step *)

(** Reduce the projections of an updated state. *)
Ltac fields :=
  unfold file_path, folder_path, dashboard_path, log_path, scripts_path in *;
  cbn [vault_path running processed_files claude_command folders
       dashboard_file logs_dir scripts_dir logger ticks
       set_running set_processed_files set_folders set_dashboard_file
       set_logs_dir set_scripts_dir set_logger set_ticks fst snd] in *.

(** Unfold the monad. *)
Ltac run_monad :=
  cbv [try_except bind get modify ret raise log now];
  fields.

Section WithEnv.
Context (E : env).

Lemma count_files_run (f : folder) (w : world) :
  _count_files_in_folder E f w = (inl (counted E w f), w).
Proof.
  unfold _count_files_in_folder, try_except, bind, iterdir, ret, counted, md_count.
  by destruct (fault E OpList (folder_path w f)).
Qed.

Lemma today_count_run (w : world) :
  _get_today_completed_count E w
  = (inl (today_count E w), set_ticks (S (ticks w)) w).
Proof.
  unfold _get_today_completed_count, try_except, bind, iterdir, now, ret,
    today_count. fields.
  by destruct (fault E OpList _).
Qed.

Lemma week_count_run (w : world) :
  _get_week_completed_count E (set_ticks (S (ticks w)) w)
  = (inl (week_count E w), set_ticks (2 + ticks w) w).
Proof.
  unfold _get_week_completed_count, try_except, bind, iterdir, now, ret,
    raise, week_count. fields.
  destruct (week_before _); [|done].
  by destruct (fault E OpList _).
Qed.

Lemma count_folders_run (w : world) :
  count_folders E w =
  (inl {| inbox_count := counted E w Inbox;
          needs_action_count := counted E w Needs_Action;
          pending_approval_count := counted E w Approved;
          approved_count := counted E w Approved;
          active_plans_count := counted E w Plans;
          completed_today := today_count E w;
          completed_this_week := week_count E w |},
   set_ticks (2 + ticks w) w).
Proof.
  unfold count_folders, bind.
  rewrite !count_files_run, today_count_run, week_count_run.
  reflexivity.
Qed.

Lemma replacements_run (w : world) :
  ∀ c, c = {| inbox_count := counted E w Inbox;
              needs_action_count := counted E w Needs_Action;
              pending_approval_count := counted E w Approved;
              approved_count := counted E w Approved;
              active_plans_count := counted E w Plans;
              completed_today := today_count E w;
              completed_this_week := week_count E w |} →
  replacements E c (set_ticks (2 + ticks w) w) =
  (inl (substitutions (dashboard_values E w)), set_ticks (4 + ticks w) w).
Proof. intros c ->. reflexivity. Qed.

(** [update_dashboard] when the template exists and can be read and
    written. *)
Lemma update_dashboard_run (w : world) (content : list Z) :
  dashboard_file w = Some content →
  fault E OpRead (dashboard_path w) = false →
  fault E OpWrite (dashboard_path w) = false →
  update_dashboard E w =
  (inl tt,
   set_logger (logger w ++ [(DEBUG, lit "Dashboard updated")])
     (set_dashboard_file (Some (rendered E w content))
        (set_ticks (4 + ticks w) w))).
Proof.
  intros Hd Hr Hw. unfold update_dashboard, try_except.
  unfold bind at 1. unfold get at 1. rewrite Hd.
  unfold bind at 1. rewrite count_folders_run.
  unfold bind at 1. unfold read_dashboard. fields. rewrite Hd, Hr.
  unfold bind at 1. rewrite (replacements_run w _ eq_refl).
  unfold bind, write_dashboard, log, modify. fields. rewrite Hw.
  reflexivity.
Qed.

(** [update_dashboard] never raises. *)
Lemma update_dashboard_total (w : world) :
  ∃ w', update_dashboard E w = (inl tt, w').
Proof.
  unfold update_dashboard, try_except.
  destruct (bind _ _ w) as [[[]|e] w'] eqn:Hrun.
  - by exists w'.
  - unfold log, modify. by eexists.
Qed.

Lemma rendered_placeholder (w : world) (a key b : list Z) :
  brace_free key = true →
  rendered E w (a ++ placeholder key ++ b)
  = rendered E w a
    ++ default (placeholder key) (assoc key (dashboard_values E w))
    ++ rendered E w b.
Proof.
  intros Hk. destruct (dashboard_values_inert E w) as [Hkeys Hvalues].
  by apply render_placeholder.
Qed.

(** C8, as the code has it.  [update_dashboard] never raises, and without
    a template it only logs a warning.  A template that can be read and
    written is replaced by its rendering.  In the rendering of any
    template, every occurrence of a placeholder that has a value is
    replaced by that value, every placeholder without a value (its key
    free of braces) stays as it is, what stands before and behind is
    rendered as it would be on its own, and a template without an opening
    brace is left unchanged.  When the template contains
    [Pending: {{pending_count}}] and Needs_Action holds exactly three
    regular files with the suffix [.md], the result contains
    [Pending: 3] in that place. *)
Theorem dashboard_rendering (w : world) :
  (∃ w', update_dashboard E w = (inl tt, w')) ∧
  (dashboard_file w = None →
   update_dashboard E w =
     (inl tt,
      set_logger (logger w ++ [(WARNING, lit "Dashboard.md not found")]) w)) ∧
  (∀ template,
     dashboard_file w = Some template →
     fault E OpRead (dashboard_path w) = false →
     fault E OpWrite (dashboard_path w) = false →
     dashboard_file (update_dashboard E w).2 = Some (rendered E w template)) ∧
  (∀ a key b v,
     assoc key (dashboard_values E w) = Some v →
     rendered E w (a ++ placeholder key ++ b)
     = rendered E w a ++ v ++ rendered E w b) ∧
  (∀ a key b,
     brace_free key = true →
     assoc key (dashboard_values E w) = None →
     rendered E w (a ++ placeholder key ++ b)
     = rendered E w a ++ placeholder key ++ rendered E w b) ∧
  (∀ t, Forall (λ c, c ≠ 123) t → rendered E w t = t) ∧
  (∀ a b,
     dashboard_file w = Some (a ++ lit "Pending: {{pending_count}}" ++ b) →
     fault E OpRead (dashboard_path w) = false →
     fault E OpWrite (dashboard_path w) = false →
     fault E OpList (folder_path w Needs_Action) = false →
     md_count w Needs_Action = 3%nat →
     dashboard_file (update_dashboard E w).2
     = Some (rendered E w a ++ lit "Pending: 3" ++ rendered E w b)).
Proof.
  assert (∀ template,
     dashboard_file w = Some template →
     fault E OpRead (dashboard_path w) = false →
     fault E OpWrite (dashboard_path w) = false →
     dashboard_file (update_dashboard E w).2 = Some (rendered E w template))
    as Hrun.
  { intros template Hd Hr Hw. by rewrite (update_dashboard_run w _ Hd Hr Hw). }
  destruct (dashboard_values_inert E w) as [Hkeys Hvalues].
  split; [apply update_dashboard_total|].
  split; [|split; [exact Hrun|split; [|split; [|split]]]].
  - intros Hd. unfold update_dashboard, try_except, bind, get. by rewrite Hd.
  - intros a key b v Hv. rewrite rendered_placeholder, Hv; [done|].
    apply assoc_Some, list_elem_of_In in Hv.
    rewrite forallb_forall in Hkeys.
    by apply key_chars_brace_free, (Hkeys _ Hv).
  - intros a key b Hk Hv. by rewrite rendered_placeholder, Hv.
  - intros t Ht. by apply render_plain.
  - intros a b Hd Hr Hw Hl Hcount. rewrite (Hrun _ Hd Hr Hw). f_equal.
    change (lit "Pending: {{pending_count}}")
      with (lit "Pending: " ++ placeholder (lit "pending_count")).
    rewrite <- app_assoc.
    rewrite (app_assoc a), rendered_placeholder by done.
    rewrite <- (app_nil_r (lit "Pending: ")) at 1.
    unfold rendered at 1. rewrite render_inert by done.
    rewrite (render_plain _ []) by done.
    change (default _ _) with (str_of_nat (counted E w Needs_Action)).
    unfold counted. rewrite Hl, Hcount.
    rewrite app_nil_r, <- !app_assoc. reflexivity.
Qed.

(** C10.  The values that a rendering substitutes for
    [{{pending_approval_count}}] and [{{approved_count}}] are the same
    string, the count of the [.md] files of the Approved folder; those for
    [{{pending_count}}] and [{{needs_action_count}}] are the same string,
    the count for Needs_Action. *)
Theorem dashboard_equal_counts (w : world) :
  ∃ c w1 rs w2,
    count_folders E w = (inl c, w1) ∧
    replacements E c w1 = (inl rs, w2) ∧
    pending_approval_count c = approved_count c ∧
    assoc (lit "{{pending_approval_count}}") rs
      = Some (str_of_nat (counted E w Approved)) ∧
    assoc (lit "{{approved_count}}") rs
      = Some (str_of_nat (counted E w Approved)) ∧
    assoc (lit "{{pending_count}}") rs
      = Some (str_of_nat (counted E w Needs_Action)) ∧
    assoc (lit "{{needs_action_count}}") rs
      = Some (str_of_nat (counted E w Needs_Action)).
Proof.
  eexists _, _, _, _.
  split; [apply count_folders_run|].
  split; [by apply replacements_run|].
  repeat split.
Qed.

End WithEnv.

(** Three [.md] records and the template [Pending: {{pending_count}}]. *)
Lemma dashboard_rendering_witness :
  dashboard_file (update_dashboard Sample.calm Sample.three_records).2
  = Some (lit "Pending: 3").
Proof.
  destruct (dashboard_rendering Sample.calm Sample.three_records)
    as (_ & _ & _ & _ & _ & _ & Hthree).
  apply (Hthree [] []); reflexivity.
Defined.

(** C8, as stated, fails when the three files are not [.md] documents:
    they are not counted, and the result reads [Pending: 0]. *)
Lemma dashboard_ignores_other_files :
  size (folders Sample.three_text_files Needs_Action) = 3%nat ∧
  dashboard_file Sample.three_text_files = Some (lit "Pending: {{pending_count}}") ∧
  dashboard_file (update_dashboard Sample.calm Sample.three_text_files).2
    = Some (lit "Pending: 0") ∧
  contains (lit "Pending: 3") (lit "Pending: 0") = false.
Proof. repeat split; vm_compute; reflexivity. Qed.

End DashboardFacts.

(** ** Saving state *)

Module SaveFacts.
Import Saved.

(** C7, as the code has it.  Each of the three save methods returns
    without raising and leaves the in-memory mapping as it was.  When the
    [scripts] directory exists and the write is not refused, the file holds
    the full mapping afterwards, whatever it held before: with a
    [last_updated] time stamp for the two processed-set stores, and as the
    bare mapping for the fingerprint store.  When the directory does not
    exist it is not created; then, and when the write is refused, nothing
    is stored and an error is logged. *)
Theorem save_overwrites_and_swallows (E : env) :
  (∀ w : Watcher.world,
     let name := lit "FileSystemWatcher_state.json" in
     let refused := fault E OpWrite (Watcher.scripts_path w name) in
     let r := Watcher._save_state E w in
     r.1 = inl tt ∧
     Watcher.processed_ids r.2 = Watcher.processed_ids w ∧
     Watcher.file_hashes r.2 = Watcher.file_hashes w ∧
     Watcher.scripts_dir r.2
       = saved (Watcher.scripts_dir w) refused name (watcher_state_doc E w) ∧
     (save_failed (Watcher.scripts_dir w) refused = true →
      ∃ msg, Watcher.logger r.2 = Watcher.logger w ++ [(ERROR, msg)])) ∧
  (∀ w : Watcher.world,
     let name := lit "filesystem_watcher_hashes.json" in
     let refused := fault E OpWrite (Watcher.scripts_path w name) in
     let r := Watcher._save_file_hashes E w in
     r.1 = inl tt ∧
     Watcher.processed_ids r.2 = Watcher.processed_ids w ∧
     Watcher.file_hashes r.2 = Watcher.file_hashes w ∧
     Watcher.scripts_dir r.2
       = saved (Watcher.scripts_dir w) refused name (hashes_doc w) ∧
     (save_failed (Watcher.scripts_dir w) refused = true →
      ∃ msg, Watcher.logger r.2 = Watcher.logger w ++ [(ERROR, msg)])) ∧
  (∀ w : Orchestrator.world,
     let name := lit "orchestrator_state.json" in
     let refused := fault E OpWrite (Orchestrator.scripts_path w name) in
     let r := Orchestrator._save_state E w in
     r.1 = inl tt ∧
     Orchestrator.processed_files r.2 = Orchestrator.processed_files w ∧
     Orchestrator.scripts_dir r.2
       = saved (Orchestrator.scripts_dir w) refused name
           (orchestrator_state_doc E w) ∧
     (save_failed (Orchestrator.scripts_dir w) refused = true →
      ∃ msg, Orchestrator.logger r.2 = Orchestrator.logger w ++ [(ERROR, msg)])).
Proof.
  split; [|split]; intros w name refused r; subst name refused r.
  - unfold Watcher._save_state, try_except, bind, Watcher.now, get,
      Watcher.write_json, Watcher.log, modify, saved, save_failed.
    cbn [Watcher.scripts_dir Watcher.set_ticks Watcher.vault_path
         Watcher.scripts_path Watcher.processed_ids fst snd].
    unfold Watcher.scripts_path.
    cbn [Watcher.scripts_dir Watcher.set_ticks Watcher.vault_path].
    destruct (Watcher.scripts_dir w) as [d|] eqn:Hd;
      [destruct (fault E OpWrite _)|]; cbn; repeat split; try done; eauto.
  - unfold Watcher._save_file_hashes, try_except, bind, get,
      Watcher.write_json, Watcher.log, modify, saved, save_failed.
    destruct (Watcher.scripts_dir w) as [d|] eqn:Hd;
      [destruct (fault E OpWrite _)|]; cbn; repeat split; try done; eauto.
  - unfold Orchestrator._save_state, try_except, bind, Orchestrator.now, get,
      Orchestrator.log, modify, saved, save_failed.
    unfold Orchestrator.scripts_path.
    cbn [Orchestrator.scripts_dir Orchestrator.set_ticks
         Orchestrator.vault_path fst snd].
    destruct (Orchestrator.scripts_dir w) as [d|] eqn:Hd;
      [destruct (fault E OpWrite _)|]; cbn; repeat split; try done; eauto.
Qed.

(** The [scripts] directory of the sample watcher is missing: the save
    fails, and the error is logged. *)
Lemma save_overwrites_and_swallows_witness :
  ∃ msg,
    Watcher.logger
      (Watcher._save_state Sample.calm
         (Watcher.set_scripts_dir None Sample.fresh_drop)).2
    = [(ERROR, msg)].
Proof.
  destruct (save_overwrites_and_swallows Sample.calm) as (Hstate & _ & _).
  destruct (Hstate (Watcher.set_scripts_dir None Sample.fresh_drop))
    as (_ & _ & _ & _ & Hlog).
  apply Hlog. reflexivity.
Defined.

(** C7, as stated, fails on both counts: a missing [scripts] directory is
    still missing after each of the saves, and the fingerprint store is
    written without a time stamp. *)
Lemma save_creates_no_directory :
  Orchestrator.scripts_dir
    (Orchestrator._save_state Sample.calm
       (Orchestrator.set_scripts_dir None Sample.three_records)).2 = None ∧
  Watcher.scripts_dir
    (Watcher._save_state Sample.calm
       (Watcher.set_scripts_dir None Sample.fresh_drop)).2 = None ∧
  Watcher.scripts_dir
    (Watcher._save_file_hashes Sample.calm
       (Watcher.set_scripts_dir None Sample.fresh_drop)).2 = None ∧
  Watcher.scripts_dir (Watcher._save_file_hashes Sample.calm Sample.fresh_drop).2
    = Some {[ lit "filesystem_watcher_hashes.json" := Doc (JObj []) ]}.
Proof. repeat split. Qed.

End SaveFacts.

(** ** The daily log *)

Module LogFacts.
Import Orchestrator DashboardFacts.

Section WithEnv.
Context (E : env).

Lemma log_action_run (action_type : list Z)
    (details : list (list Z * list Z)) (result : list Z) (w : world) :
  let name := fmt_date (clock E (ticks w)) ++ lit ".json" in
  let entry :=
    log_entry (isoformat (clock E (S (ticks w)))) action_type details result in
  ∃ lg, _log_action E action_type details result w =
        (inl tt,
         set_logger lg
           (set_logs_dir (logs_after E w name entry)
              (set_ticks (2 + ticks w) w))).
Proof.
  intros name entry. subst entry.
  unfold _log_action, logs_after, log_outcome, load_log, dump_log. run_monad.
  fold name.
  destruct (logs_dir w !! name) as [p|] eqn:Hlook; fields.
  - rewrite Hlook.
    destruct (fault E OpRead _) eqn:Hr; fields;
      [|destruct p as [|[| |l|]]; fields];
      try destruct (fault E OpWrite _) eqn:Hw; fields;
      eexists; reflexivity.
  - destruct (fault E OpWrite _) eqn:Hw; fields; eexists; reflexivity.
Qed.

(** C6, as the code has it.  [_log_action] never raises and never touches
    the log file of another day.  When the write is not refused: if the
    day's file does not exist yet it holds exactly the new entry
    afterwards; if it holds a JSON array that can be read, it holds the
    same entries followed by the new one; if it cannot be read or parsed,
    its content is discarded and it holds the new entry only.  When the
    write is refused, or the file holds a JSON document that is not an
    array, the logs stay as they are.  The new entry carries the fields
    timestamp, action_type, actor, parameters and result. *)
Theorem log_action_appends (action_type : list Z)
    (details : list (list Z * list Z)) (result : list Z) (w : world) :
  let name := fmt_date (clock E (ticks w)) ++ lit ".json" in
  let entry :=
    log_entry (isoformat (clock E (S (ticks w)))) action_type details result in
  let r := _log_action E action_type details result w in
  r.1 = inl tt ∧
  (∃ keyed, entry = JObj keyed ∧
     keyed.*1 = [lit "timestamp"; lit "action_type"; lit "actor";
                 lit "parameters"; lit "result"]) ∧
  (∀ other, other ≠ name → logs_dir r.2 !! other = logs_dir w !! other) ∧
  (fault E OpWrite (log_path w name) = false →
     (logs_dir w !! name = None →
      logs_dir r.2 !! name = Some (Doc (JList [entry]))) ∧
     (∀ l, logs_dir w !! name = Some (Doc (JList l)) →
           fault E OpRead (log_path w name) = false →
           logs_dir r.2 !! name = Some (Doc (JList (l ++ [entry])))) ∧
     (∀ p, logs_dir w !! name = Some p →
           p = Garbage ∨ fault E OpRead (log_path w name) = true →
           logs_dir r.2 !! name = Some (Doc (JList [entry])))) ∧
  (fault E OpWrite (log_path w name) = true ∨
   (∃ j, logs_dir w !! name = Some (Doc j) ∧ (∀ l, j ≠ JList l) ∧
         fault E OpRead (log_path w name) = false) →
   logs_dir r.2 = logs_dir w).
Proof.
  intros name entry r.
  destruct (log_action_run action_type details result w) as [lg Hrun].
  fold name entry in Hrun. subst r. rewrite Hrun. cbn [fst snd].
  cbn [logs_dir set_logger set_logs_dir].
  unfold logs_after, log_outcome.
  split; [done|]. split; [eexists; split; reflexivity|]. split; [|split].
  - intros other Hother.
    repeat case_match; try done; by rewrite lookup_insert_ne.
  - intros Hw. rewrite Hw. split; [|split].
    + intros ->. by rewrite lookup_insert_eq.
    + intros l -> ->. by rewrite lookup_insert_eq.
    + intros p -> [-> | ->]; [destruct (fault E OpRead _)|];
        by rewrite lookup_insert_eq.
  - intros [-> | (j & -> & Hj & ->)].
    + by repeat case_match.
    + destruct j; try done. by destruct (Hj l).
Qed.

End WithEnv.

(** Today's log holds one entry and everything works: the entry is kept
    and the new one follows it. *)
Lemma log_action_appends_witness :
  ∃ old new,
    logs_dir (_log_action Sample.calm (lit "claude_process")
                [(lit "file", lit "a.md")] (lit "success") Sample.with_log).2
      !! lit "2026-11-03.json"
    = Some (Doc (JList [old; new])).
Proof.
  destruct (log_action_appends Sample.calm (lit "claude_process")
              [(lit "file", lit "a.md")] (lit "success") Sample.with_log)
    as (_ & _ & _ & Hwrite & _).
  destruct (Hwrite eq_refl) as (_ & Happend & _).
  eexists _, _. apply (Happend [_]); reflexivity.
Defined.

(** C6, as stated, fails when today's log cannot be read: the entry it
    holds is discarded and the file holds the new entry only. *)
Lemma log_action_discards_unreadable_log :
  (∃ old, logs_dir Sample.with_log !! lit "2026-11-03.json"
          = Some (Doc (JList [old]))) ∧
  logs_dir (_log_action Sample.unreadable (lit "claude_process")
              [(lit "file", lit "a.md")] (lit "success") Sample.with_log).2
    !! lit "2026-11-03.json"
  = Some (Doc (JList [log_entry (lit "2026-11-03T09:05:07")
                        (lit "claude_process") [(lit "file", lit "a.md")]
                        (lit "success")])).
Proof. split; [eexists|]; vm_compute; reflexivity. Qed.

End LogFacts.

(** ** One pass of the orchestrator *)

Module CycleFacts.
Import Orchestrator PyFacts DashboardFacts LogFacts.

Section WithEnv.
Context (E : env).

(** Replace a call of [_log_action] by its result. *)
Ltac log_step :=
  match goal with
  | |- context [_log_action E ?a ?d ?r ?w0] =>
    let lg := fresh "lg" in
    let Hlg := fresh "Hlg" in
    destruct (log_action_run E a d r w0) as [lg Hlg];
    rewrite Hlg; clear Hlg; fields
  end.

Lemma process_with_claude_run (name : list Z) (w : world) :
  ∃ w', process_with_claude E name w = (inl (succeeds E w name), w')
        ∧ vault_path w' = vault_path w
        ∧ folders w' = folders_after E w name
        ∧ processed_files w' = processed_files w.
Proof.
  unfold process_with_claude, claude_missing, succeeds, folders_after,
    tool_missing, plan_written, readable, mark, plan_name, plan_doc,
    write_text, read_text.
  run_monad.
  destruct (which_rc E) as [rc|]; [case_bool_decide|]; fields;
    repeat (first
      [ log_step
      | rewrite fn_lookup_insert_ne by done
      | match goal with
        | H : ?X = _ |- context [match ?X with _ => _ end] => rewrite H
        | H : ?X = _ |- context [if ?X then _ else _] => rewrite H
        | |- context [match folders w ?f !! ?n with _ => _ end] =>
          destruct (folders w f !! n) as [[? ?|?]|] eqn:?
        | |- context [if fault E ?o ?p then _ else _] =>
          destruct (fault E o p) eqn:?
        | |- context [if contains ?a ?b then _ else _] =>
          destruct (contains a b) eqn:?
        end ]; fields);
    eexists; repeat split.
Qed.

Lemma process_pending_run (name : list Z) (w : world) :
  ∃ w', process_pending E name w = (inl tt, w')
        ∧ vault_path w' = vault_path w
        ∧ folders w' =
            (if bool_decide (file_path w Needs_Action name ∈ processed_files w)
             then folders w else folders_after E w name)
        ∧ processed_files w' =
            (if bool_decide (file_path w Needs_Action name ∈ processed_files w)
             then processed_files w
             else if succeeds E w name
                  then {[file_path w Needs_Action name]} ∪ processed_files w
                  else processed_files w).
Proof.
  unfold process_pending. unfold bind at 1. unfold get at 1.
  case_bool_decide as Hin.
  - exists w. by repeat split.
  - destruct (process_with_claude_run name w) as (w1 & Hrun & Hvp & Hf & Hp).
    unfold bind. rewrite Hrun.
    destruct (succeeds E w name).
    + eexists. split; [reflexivity|]. unfold file_path, folder_path. fields.
      rewrite Hvp, Hp. by repeat split.
    + exists w1. by repeat split.
Qed.

Lemma move_to_done_run (src : folder) (name : list Z) (w : world) :
  ∃ w', move_to_done E src name w = (inl tt, w')
        ∧ vault_path w' = vault_path w
        ∧ folders w' = folders_moved E w src name Done
        ∧ processed_files w' = processed_files w.
Proof.
  unfold move_to_done, shutil_move, folders_moved. run_monad.
  destruct (folders w src !! name) as [n|] eqn:Hsrc; fields.
  - destruct (fault E OpMove _) eqn:Hmv; fields.
    + eexists. by repeat split.
    + destruct (folders w Done !! name) as [[? ?|?]|] eqn:Hdst; fields;
        log_step; eexists; by repeat split.
  - eexists. by repeat split.
Qed.

(** [update_dashboard] touches neither the folders nor the processed
    set. *)
Lemma update_dashboard_frame (w : world) :
  ∃ w', update_dashboard E w = (inl tt, w') ∧ same_vault w w'.
Proof.
  unfold update_dashboard, try_except.
  unfold bind at 1. unfold get at 1.
  destruct (dashboard_file w) as [content|] eqn:Hd.
  - unfold bind at 1. rewrite count_folders_run.
    unfold bind at 1. unfold read_dashboard. fields. rewrite Hd.
    destruct (fault E OpRead _).
    { run_monad. eexists. by repeat split. }
    unfold bind at 1. rewrite (replacements_run E w _ eq_refl).
    unfold write_dashboard. run_monad.
    destruct (fault E OpWrite _); eexists; by repeat split.
  - run_monad. eexists. by repeat split.
Qed.

Lemma save_state_frame (w : world) :
  ∃ w', _save_state E w = (inl tt, w') ∧ same_vault w w'.
Proof.
  unfold _save_state. run_monad.
  destruct (scripts_dir w); [destruct (fault E OpWrite _)|];
    eexists; by repeat split.
Qed.

(** A loop whose body never raises and keeps a property of the state. *)
Lemma for_each_keeps {A} (P : world → Prop) (l : list A)
    (body : A → M world unit) (w : world) :
  (∀ x w0, x ∈ l → P w0 → ∃ w1, body x w0 = (inl tt, w1) ∧ P w1) →
  P w → ∃ w', for_each l body w = (inl tt, w') ∧ P w'.
Proof.
  revert w. induction l as [|x l IH]; intros w Hbody HP.
  - by exists w.
  - destruct (Hbody x w) as (w1 & Hrun & HP1); [by left|done|].
    destruct (IH w1) as (w' & Hrun' & HP'); [|done|].
    { intros y w0 Hy. apply Hbody. by right. }
    exists w'. cbn [for_each]. unfold bind. by rewrite Hrun.
Qed.

(** *** Listing a folder *)

Lemma insert_by_mtime_perm (x : list Z * node) (l : list (list Z * node)) :
  insert_by_mtime x l ≡ₚ x :: l.
Proof.
  induction l as [|y l IH]; [done|]. cbn [insert_by_mtime].
  destruct (st_mtime x.2 <=? st_mtime y.2); [done|].
  rewrite IH. apply Permutation_swap.
Qed.

Lemma sorted_by_mtime_perm (l : list (list Z * node)) : sorted_by_mtime l ≡ₚ l.
Proof.
  induction l as [|x l IH]; [done|]. unfold sorted_by_mtime. cbn [foldr].
  fold (sorted_by_mtime l). by rewrite insert_by_mtime_perm, IH.
Qed.

Lemma elem_of_md_names (w : world) (f : folder) (name : list Z) :
  name ∈ md_names w f ↔ record_at w f name.
Proof.
  unfold md_names, record_at. rewrite sorted_by_mtime_perm.
  rewrite list_elem_of_fmap. split.
  - intros ([name' n] & -> & Hin). apply list_elem_of_filter in Hin as [Hmd Hin].
    apply elem_of_map_to_list in Hin. by exists n.
  - intros (n & Hn & Hmd). exists (name, n). split; [done|].
    apply list_elem_of_filter. split; [done|]. by apply elem_of_map_to_list.
Qed.

Lemma NoDup_md_names (w : world) (f : folder) : NoDup (md_names w f).
Proof.
  unfold md_names. rewrite sorted_by_mtime_perm.
  eapply sublist_NoDup; [apply (NoDup_fst_map_to_list (folders w f))|].
  apply fmap_sublist, sublist_filter.
Qed.

Lemma NoDup_listed (w : world) (f : folder) : NoDup (listed E w f).
Proof.
  unfold listed. destruct (fault E OpList _); [constructor|apply NoDup_md_names].
Qed.

Lemma listed_record (w : world) (f : folder) (name : list Z) :
  name ∈ listed E w f → record_at w f name.
Proof.
  unfold listed. destruct (fault E OpList _); [by intros ?%elem_of_nil|].
  apply elem_of_md_names.
Qed.

Lemma listed_ext (w w' : world) (f : folder) :
  vault_path w' = vault_path w → folders w' f = folders w f →
  listed E w' f = listed E w f.
Proof.
  intros Hvp Hf. unfold listed, md_names, folder_path. by rewrite Hvp, Hf.
Qed.

Lemma get_pending_files_run (w : world) :
  ∃ w', get_pending_files E w = (inl (listed E w Needs_Action), w')
        ∧ same_vault w w'.
Proof.
  unfold get_pending_files, md_files_by_mtime, iterdir, listed, md_names.
  run_monad. destruct (fault E OpList _); eexists; by repeat split.
Qed.

Lemma get_approved_files_run (w : world) :
  ∃ w', get_approved_files E w = (inl (listed E w Approved), w')
        ∧ same_vault w w'.
Proof.
  unfold get_approved_files, md_files_by_mtime, iterdir, listed, md_names.
  run_monad. destruct (fault E OpList _); eexists; by repeat split.
Qed.

(** *** The phases of one pass *)

Lemma cycle_phases (w : world) :
  ∃ w1 w2 w3 w4 w5,
    same_vault w w1 ∧
    for_each (listed E w Needs_Action) (process_pending E) w1 = (inl tt, w2) ∧
    same_vault w2 w3 ∧
    for_each (listed E w2 Approved) (move_to_done E Approved) w3 = (inl tt, w4) ∧
    same_vault w4 w5 ∧
    cycle E w = (inl tt, w5).
Proof.
  destruct (update_dashboard_frame w) as (wa & Hdash & Hsa).
  destruct (get_pending_files_run wa) as (wb & Hpend & Hsb).
  assert (listed E wa Needs_Action = listed E w Needs_Action) as Hl1.
  { destruct Hsa as (Hvp & Hf & _). apply listed_ext; [done|by rewrite Hf]. }
  rewrite Hl1 in Hpend.
  set (w1 := if bool_decide (listed E w Needs_Action ≠ [])
             then set_logger
                    (logger wb ++
                     [(INFO, lit "Found "
                               ++ str_of_nat (length (listed E w Needs_Action))
                               ++ lit " pending file(s)")]) wb
             else wb).
  assert (same_vault w w1) as Hs1.
  { destruct Hsa as (?&?&?), Hsb as (?&?&?). subst w1.
    case_bool_decide; repeat split; fields; congruence. }
  destruct (for_each_keeps (λ _, True) (listed E w Needs_Action)
              (process_pending E) w1) as (w2 & Hloop1 & _); [|done|].
  { intros x w0 _ _. destruct (process_pending_run x w0) as (w' & Hr & _).
    by exists w'. }
  destruct (get_approved_files_run w2) as (wc & Happ & Hsc).
  set (w3 := if bool_decide (listed E w2 Approved ≠ [])
             then set_logger
                    (logger wc ++
                     [(INFO, lit "Found "
                               ++ str_of_nat (length (listed E w2 Approved))
                               ++ lit " approved file(s) ready for action")]) wc
             else wc).
  assert (same_vault w2 w3) as Hs3.
  { destruct Hsc as (?&?&?). subst w3.
    case_bool_decide; repeat split; fields; congruence. }
  destruct (for_each_keeps (λ _, True) (listed E w2 Approved)
              (move_to_done E Approved) w3) as (w4 & Hloop2 & _); [|done|].
  { intros x w0 _ _. destruct (move_to_done_run Approved x w0) as (w' & Hr & _).
    by exists w'. }
  destruct (save_state_frame w4) as (w5 & Hsave & Hs5).
  exists w1, w2, w3, w4, w5.
  repeat (split; [done|]).
  unfold cycle, try_except.
  unfold bind at 1. rewrite Hdash.
  unfold bind at 1. rewrite Hpend.
  unfold bind at 1.
  replace ((if bool_decide (listed E w Needs_Action ≠ []) then _ else _) wb)
    with (inl tt : unit + exn, w2).
  2:{ subst w1. case_bool_decide as Hne.
      - unfold bind, log, modify. by rewrite Hloop1.
      - rewrite Hne in Hloop1.
        cbn in Hloop1. by injection Hloop1 as <-. }
  unfold bind at 1. rewrite Happ.
  unfold bind at 1.
  replace ((if bool_decide (listed E w2 Approved ≠ []) then _ else _) wc)
    with (inl tt : unit + exn, w4).
  2:{ subst w3. case_bool_decide as Hne.
      - unfold bind, log, modify. by rewrite Hloop2.
      - rewrite Hne in Hloop2.
        cbn in Hloop2. by injection Hloop2 as <-. }
  by rewrite Hsave.
Qed.

(** *** What processing does to the folders *)

Lemma file_path_inj (w : world) (f : folder) (a b : list Z) :
  file_path w f a = file_path w f b → a = b.
Proof.
  unfold file_path, joinpath. intros Hab.
  by repeat apply app_inv_head in Hab.
Qed.

Lemma folders_after_frame (w : world) (name : list Z) (f : folder) :
  f ≠ Needs_Action → f ≠ Plans → folders_after E w name f = folders w f.
Proof.
  intros Hna Hpl. unfold folders_after.
  repeat case_match; rewrite ?fn_lookup_insert_ne by done; done.
Qed.

Lemma folders_after_failure (w : world) (name : list Z) :
  succeeds E w name = false →
  folders_after E w name Needs_Action = folders w Needs_Action.
Proof.
  unfold succeeds, folders_after.
  destruct (negb (tool_missing E) && plan_written E w name); [|done].
  cbn [andb]. destruct (readable E w name) as [content|]; [|done].
  destruct (contains (lit "status: pending") content); cbn [negb orb andb];
    [|done].
  by intros ->.
Qed.

Lemma folders_after_success (w : world) (name : list Z) :
  succeeds E w name = true →
  ∃ content mt,
    folders w Needs_Action !! name = Some (File content mt) ∧
    ∃ mt', folders_after E w name Needs_Action !! name
           = Some (File (mark content) mt').
Proof.
  unfold succeeds, folders_after.
  destruct (negb (tool_missing E) && plan_written E w name); [|done].
  cbn [andb]. unfold readable.
  destruct (folders w Needs_Action !! name) as [[content mt|mt]|] eqn:Hn;
    [|done..].
  destruct (fault E OpRead _); [done|].
  intros Hok. exists content, mt. split; [done|].
  unfold mark.
  destruct (contains (lit "status: pending") content); cbn [negb orb andb] in *.
  - rewrite Hok. cbn [negb]. rewrite fn_lookup_insert, lookup_insert_eq. eauto.
  - rewrite fn_lookup_insert_ne by done. eauto.
Qed.

Lemma folders_after_other (w : world) (name m : list Z) :
  m ≠ name →
  folders_after E w name Needs_Action !! m = folders w Needs_Action !! m.
Proof.
  intros Hm. unfold folders_after.
  repeat case_match;
    rewrite ?fn_lookup_insert, ?fn_lookup_insert_ne by done;
    rewrite ?lookup_insert_ne by done; done.
Qed.

Lemma folders_after_shape (w : world) (name m : list Z) :
  is_file <$> folders_after E w name Needs_Action !! m
  = is_file <$> folders w Needs_Action !! m.
Proof.
  destruct (decide (m = name)) as [->|Hm]; [|by rewrite folders_after_other].
  destruct (succeeds E w name) eqn:Hs.
  - destruct (folders_after_success w name Hs) as (c & mt & -> & mt' & ->). done.
  - by rewrite folders_after_failure.
Qed.

Lemma pending_step_refl (w : world) : pending_step w w.
Proof. unfold pending_step. by repeat split. Qed.

Lemma pending_step_trans (w1 w2 w3 : world) :
  pending_step w1 w2 → pending_step w2 w3 → pending_step w1 w3.
Proof.
  intros (Hv1 & Hp1 & Hf1 & Hs1) (Hv2 & Hp2 & Hf2 & Hs2).
  split; [congruence|]. split; [set_solver|]. split.
  - intros f ? ?. by rewrite Hf2, Hf1.
  - intros m. by rewrite Hs2, Hs1.
Qed.

Lemma process_pending_step (name : list Z) (w : world) :
  ∃ w', process_pending E name w = (inl tt, w') ∧ pending_step w w' ∧
        (∀ m, m ≠ name →
           folders w' Needs_Action !! m = folders w Needs_Action !! m ∧
           (file_path w Needs_Action m ∈ processed_files w' ↔
            file_path w Needs_Action m ∈ processed_files w)) ∧
        (file_path w Needs_Action name ∉ processed_files w →
         (succeeds E w name = true ∧
          file_path w Needs_Action name ∈ processed_files w' ∧
          ∃ content mt mt',
            folders w Needs_Action !! name = Some (File content mt) ∧
            folders w' Needs_Action !! name = Some (File (mark content) mt'))
         ∨
         (succeeds E w name = false ∧
          (file_path w Needs_Action name ∉ processed_files w') ∧
          folders w' Needs_Action = folders w Needs_Action)).
Proof.
  destruct (process_pending_run name w) as (w' & Hrun & Hvp & Hf & Hp).
  exists w'. split; [done|].
  case_bool_decide as Hin.
  - rewrite Hf, Hp. split; [|split; [done|by intros []]].
    unfold pending_step. rewrite Hf, Hp. by repeat split.
  - split; [|split].
    + split; [done|]. split; [|split].
      * rewrite Hp. destruct (succeeds E w name); [apply union_subseteq_r|done].
      * intros f ? ?. rewrite Hf. by apply folders_after_frame.
      * intros m. rewrite Hf. apply folders_after_shape.
    + intros m Hm. rewrite Hf, Hp. split; [by apply folders_after_other|].
      destruct (succeeds E w name); [|done].
      rewrite elem_of_union, elem_of_singleton. split; [|by right].
      intros [Heq|?]; [|done]. by apply file_path_inj in Heq.
    + intros _. rewrite Hf, Hp. destruct (succeeds E w name) eqn:Hs.
      * left. split; [done|].
        split; [by apply elem_of_union_l, elem_of_singleton|].
        destruct (folders_after_success w name Hs) as (c & mt & Hc & mt' & Hc').
        by exists c, mt, mt'.
      * right. split; [done|]. split; [done|]. by apply folders_after_failure.
Qed.

Lemma for_each_app {A} (l1 l2 : list A) (body : A → M world unit)
    (w wa : world) :
  for_each l1 body w = (inl tt, wa) →
  for_each (l1 ++ l2) body w = for_each l2 body wa.
Proof.
  revert w. induction l1 as [|x l1 IH]; intros w.
  - cbn. by intros [= ->].
  - cbn [for_each app]. unfold bind.
    destruct (body x w) as [[[]|e] w1]; [|done]. apply IH.
Qed.

(** The loop over the pending files. *)
Lemma pending_loop (l : list (list Z)) (w : world) :
  ∃ w', for_each l (process_pending E) w = (inl tt, w') ∧ pending_step w w' ∧
        (∀ m, m ∉ l →
           folders w' Needs_Action !! m = folders w Needs_Action !! m ∧
           (file_path w Needs_Action m ∈ processed_files w' ↔
            file_path w Needs_Action m ∈ processed_files w)).
Proof.
  revert w. induction l as [|name l IH]; intros w.
  - exists w. split; [done|]. split; [apply pending_step_refl|done].
  - destruct (process_pending_step name w) as (w1 & Hrun & Hstep & Hother & _).
    destruct (IH w1) as (w' & Hrun' & Hstep' & Hother').
    exists w'. cbn [for_each]. unfold bind. rewrite Hrun.
    split; [done|]. split; [by eapply pending_step_trans|].
    intros m Hm. apply not_elem_of_cons in Hm as [Hne Hm].
    destruct (Hother m Hne) as [H1 H2], (Hother' m Hm) as [H3 H4].
    assert (vault_path w1 = vault_path w) as Hvp by apply Hstep.
    unfold file_path, folder_path in *. rewrite Hvp in H4.
    split; [congruence|]. by rewrite H4.
Qed.

(** *** What moving does to the folders *)

Ltac lookups :=
  repeat progress
    (rewrite ?fn_lookup_insert, ?fn_lookup_insert_ne
       by first [done | by apply not_eq_sym];
     rewrite ?lookup_insert_eq, ?lookup_delete_eq;
     rewrite ?lookup_insert_ne, ?lookup_delete_ne
       by first [done | by apply not_eq_sym]).

Lemma moved_frame (w : world) (name : list Z) (f : folder) :
  f ≠ Approved → f ≠ Done →
  folders_moved E w Approved name Done f = folders w f.
Proof.
  intros. unfold folders_moved. repeat case_match; by lookups.
Qed.

Lemma moved_other (w : world) (name m : list Z) (f : folder) :
  m ≠ name →
  folders_moved E w Approved name Done f !! m = folders w f !! m.
Proof.
  intros. unfold folders_moved.
  destruct (decide (f = Approved)) as [->|]; [|destruct (decide (f = Done)) as [->|]];
    repeat case_match; by lookups.
Qed.


Ltac in_folders :=
  unfold action_folders;
  repeat first [apply list_elem_of_here | apply list_elem_of_further].

Lemma action_folder_cases (f : folder) :
  f ∈ action_folders →
  f = Needs_Action ∨ f = Approved ∨ f = Rejected ∨ f = Done.
Proof.
  unfold action_folders. intros Hf.
  repeat (apply elem_of_cons in Hf as [->|Hf]; [tauto|]).
  by apply elem_of_nil in Hf.
Qed.

Lemma progress_refl (w : world) : progress w w.
Proof. intros name f Hf Hr. exists f. by repeat split. Qed.

Lemma progress_trans (w1 w2 w3 : world) :
  progress w1 w2 → progress w2 w3 → progress w1 w3.
Proof.
  intros H12 H23 name f Hf Hr.
  destruct (H12 name f Hf Hr) as (f' & Hf' & Hr' & Hle).
  destruct (H23 name f' Hf' Hr') as (f'' & Hf'' & Hr'' & Hle').
  exists f''. repeat split; [done..|lia].
Qed.

(** States whose action folders hold the same names with the same kinds
    of entries have the same records. *)
Lemma same_records (w w' : world) :
  (∀ f m, f ∈ action_folders →
     is_file <$> folders w' f !! m = is_file <$> folders w f !! m) →
  (∀ f m, f ∈ action_folders → record_at w f m ↔ record_at w' f m) ∧
  (∀ f m, f ∈ action_folders →
     is_Some (folders w f !! m) ↔ is_Some (folders w' f !! m)).
Proof.
  intros Hshape. split; intros f m Hf; specialize (Hshape f m Hf).
  - unfold record_at, is_md_file. cbn [fst snd].
    destruct (folders w f !! m) as [n|], (folders w' f !! m) as [n'|];
      cbn in Hshape; try done.
    injection Hshape as Hshape.
    split; intros (? & [= <-] & ?); eexists; (split; [done|]); congruence.
  - destruct (folders w f !! m), (folders w' f !! m); cbn in Hshape;
      try done; split; intros [? ?]; done.
Qed.

Lemma same_records_inv (w w' : world) :
  (∀ f m, f ∈ action_folders →
     is_file <$> folders w' f !! m = is_file <$> folders w f !! m) →
  unique_location w → unique_location w' ∧ progress w w'.
Proof.
  intros Hshape HI. destruct (same_records w w' Hshape) as [Hrec Hsome].
  split.
  - intros name f1 f2 Hf1 Hf2 Hr Hs. apply (HI name); [done..| |].
    + by apply Hrec.
    + by apply Hsome.
  - intros name f Hf Hr. exists f. split; [done|]. split; [by apply Hrec|done].
Qed.

(** One move out of the Approved folder keeps the records apart and moves
    none of them backward. *)
Lemma move_keeps_unique (w w' : world) (name : list Z) :
  folders w' = folders_moved E w Approved name Done →
  unique_location w → unique_location w' ∧ progress w w'.
Proof.
  intros Hf HI. unfold folders_moved in Hf.
  destruct (folders w Approved !! name) as [n|] eqn:Hn.
  2:{ apply same_records_inv; [|done]. intros. by rewrite Hf. }
  destruct (fault E OpMove _).
  { apply same_records_inv; [|done]. intros. by rewrite Hf. }
  assert (∀ f m, m ≠ name → folders w' f !! m = folders w f !! m) as Hother.
  { intros f m Hm. rewrite Hf.
    destruct (decide (f = Approved)) as [->|];
      [|destruct (decide (f = Done)) as [->|]];
      repeat case_match; by lookups. }
  assert (∀ f, f ≠ Approved → f ≠ Done → folders w' f = folders w f) as Hframe.
  { intros f ? ?. rewrite Hf. repeat case_match; by lookups. }
  assert (folders w' Approved !! name = None) as Happ.
  { rewrite Hf. repeat case_match; by lookups. }
  destruct (decide (is_md_file (name, n) = true)) as [Hmd|Hmd].
  - (* a record leaves Approved: Done holds nothing under its name *)
    assert (folders w Done !! name = None) as Hdone.
    { destruct (folders w Done !! name) as [d|] eqn:Hd; [|done].
      assert (Approved = Done); [|done].
      apply (HI name); [in_folders..| |by rewrite Hd].
      by exists n. }
    assert (folders w' Done !! name = Some n) as Hdone'.
    { rewrite Hf, Hdone. by lookups. }
    assert (∀ f, f ∈ action_folders → f ≠ Approved →
                 is_Some (folders w f !! name) → False) as Hnone.
    { intros f Hfa Hne Hs. apply Hne. symmetry.
      apply (HI name); [in_folders|done| |done].
      by exists n. }
    split.
    + intros m f1 f2 Hf1 Hf2 (n1 & Hn1 & Hmd1) Hs.
      destruct (decide (m = name)) as [->|Hm].
      * apply action_folder_cases in Hf1 as Hc1.
        apply action_folder_cases in Hf2 as Hc2.
        destruct Hc1 as [-> | [-> | [-> | ->]]];
          try (rewrite Hframe in Hn1 by done; exfalso;
               by apply (Hnone _ Hf1); [|rewrite Hn1]);
          try congruence;
          destruct Hc2 as [-> | [-> | [-> | ->]]]; try done;
          try (rewrite Happ in Hs; by destruct Hs);
          rewrite Hframe in Hs by done; exfalso; by apply (Hnone _ Hf2).
      * rewrite Hother in Hn1, Hs by done.
        apply (HI m); [done..| |done]. by exists n1.
    + intros m f Hfa (n1 & Hn1 & Hmd1).
      destruct (decide (m = name)) as [->|Hm].
      * destruct (decide (f = Approved)) as [->|Hne].
        -- exists Done. split; [in_folders|].
           split; [by exists n|cbn; lia].
        -- exfalso. apply (Hnone f Hfa Hne). by rewrite Hn1.
      * exists f. split; [done|]. split; [|done].
        exists n1. by rewrite Hother.
  - (* the entry is not a record: the records stay where they are *)
    assert (∀ f m, record_at w f m → f ∈ action_folders →
                   folders w' f !! m = folders w f !! m) as Hrec.
    { intros f m (n1 & Hn1 & Hmd1) Hfa.
      destruct (decide (m = name)) as [->|Hm]; [|by apply Hother].
      destruct (decide (f = Approved)) as [->|Hne]; [congruence|].
      destruct (decide (f = Done)) as [->|Hnd]; [|by rewrite Hframe].
      exfalso. assert (Done = Approved); [|done].
      apply (HI name); [done|in_folders| |by rewrite Hn].
      by exists n1. }
    assert (∀ f m, f ∈ action_folders → record_at w' f m → record_at w f m)
      as Hback.
    { intros f m Hfa (n1 & Hn1 & Hmd1).
      destruct (decide (m = name)) as [->|Hm];
        [|exists n1; by rewrite <- Hother].
      destruct (decide (f = Approved)) as [->|Hne]; [congruence|].
      destruct (decide (f = Done)) as [->|Hnd];
        [|exists n1; by rewrite <- Hframe].
      exfalso. rewrite Hf in Hn1. revert Hn1.
      destruct (folders w Done !! name) as [[c t|t]|] eqn:Hd; lookups;
        try rewrite Hd; intros [= <-]; try done.
      unfold is_md_file in Hmd1. cbn [snd is_file] in Hmd1.
      by rewrite andb_false_r in Hmd1. }
    assert (∀ f m, f ∈ action_folders → is_Some (folders w' f !! m) →
                   is_Some (folders w f !! m) ∨ (f = Done ∧ m = name)) as Hsome.
    { intros f m Hfa Hs.
      destruct (decide (m = name)) as [->|Hm]; [|left; by rewrite <- Hother].
      destruct (decide (f = Done)) as [->|Hnd]; [by right|left].
      destruct (decide (f = Approved)) as [->|Hne]; [by rewrite Hn|].
      by rewrite <- Hframe. }
    split.
    + intros m f1 f2 Hf1 Hf2 Hr Hs. apply Hback in Hr as Hr0; [|done].
      destruct (Hsome f2 m Hf2 Hs) as [Hs0|[-> ->]].
      * by apply (HI m).
      * exfalso.
        assert (f1 = Approved) as ->
          by (apply (HI name); [done|in_folders|done|by rewrite Hn]).
        destruct Hr0 as (n1 & Hn1 & Hmd1). congruence.
    + intros m f Hfa Hr. exists f. split; [done|]. split; [|done].
      destruct Hr as (n1 & Hn1 & Hmd1) eqn:Heq. exists n1. split; [|done].
      rewrite Hrec; [done| |done]. by exists n1.
Qed.


(** The loop over the approved files. *)
Lemma moves_loop (l : list (list Z)) (w : world) :
  ∃ w', for_each l (move_to_done E Approved) w = (inl tt, w') ∧
        vault_path w' = vault_path w ∧
        processed_files w' = processed_files w ∧
        (∀ f, f ≠ Approved → f ≠ Done → folders w' f = folders w f) ∧
        (∀ m f, m ∉ l → folders w' f !! m = folders w f !! m) ∧
        (unique_location w → unique_location w' ∧ progress w w').
Proof.
  revert w. induction l as [|name l IH]; intros w.
  - exists w. repeat split; try done. apply progress_refl.
  - destruct (move_to_done_run Approved name w) as (w1 & Hrun & Hvp & Hf & Hp).
    destruct (IH w1) as (w' & Hrun' & Hvp' & Hp' & Hfr' & Hoth' & Hinv').
    exists w'. cbn [for_each]. unfold bind. rewrite Hrun.
    split; [done|]. split; [congruence|]. split; [congruence|].
    split; [|split].
    + intros f ? ?. rewrite Hfr', Hf by done. by apply moved_frame.
    + intros m f [Hne Hm]%not_elem_of_cons.
      rewrite Hoth', Hf by done. by apply moved_other.
    + intros HI. destruct (move_keeps_unique w w1 name Hf HI) as [HI1 Hpr1].
      destruct (Hinv' HI1) as [HI' Hpr']. split; [done|].
      by eapply progress_trans.
Qed.



End WithEnv.

Section Pending.
Context (E : env).

(** A pass leaves the processed set at least as large as it was. *)
Lemma processed_grows (w : world) :
  processed_files w ⊆ processed_files (after_cycle E w).
Proof.
  unfold after_cycle.
  destruct (cycle_phases E w) as (w1 & w2 & w3 & w4 & w5 & Hs1 & Hl1 & Hs3
                                    & Hl2 & Hs5 & Hrun).
  rewrite Hrun. cbn [snd].
  destruct (pending_loop E (listed E w Needs_Action) w1) as (w2' & Hl1' & Hstep & _).
  rewrite Hl1 in Hl1'. injection Hl1' as <-.
  destruct (moves_loop E (listed E w2 Approved) w3) as (w4' & Hl2' & _ & Hp4 & _).
  rewrite Hl2 in Hl2'. injection Hl2' as <-.
  destruct Hs1 as (_ & _ & Hp1), Hs3 as (_ & _ & Hp3), Hs5 as (_ & _ & Hp5),
           Hstep as (_ & Hp2 & _).
  rewrite Hp5, Hp4, Hp3, <- Hp1. exact Hp2.
Qed.

Lemma before_split (name : list Z) (l1 l2 : list (list Z)) :
  name ∉ l1 → before name (l1 ++ name :: l2) = l1.
Proof.
  induction l1 as [|x l1 IH]; intros Hn; cbn [before app].
  - by rewrite bool_decide_eq_true_2.
  - apply not_elem_of_cons in Hn as [Hne Hn].
    rewrite bool_decide_eq_false_2 by done. by rewrite IH.
Qed.

(** The end of a pass never raises and touches Approved, Done and the
    state file only. *)
Lemma pass_tail_run (w : world) :
  ∃ w', pass_tail E w = (inl tt, w') ∧
        vault_path w' = vault_path w ∧
        processed_files w' = processed_files w ∧
        (∀ f, f ≠ Approved → f ≠ Done → folders w' f = folders w f).
Proof.
  destruct (get_approved_files_run E w) as (wc & Happ & Hvc & Hfc & Hpc).
  set (w3 := if bool_decide (listed E w Approved ≠ [])
             then set_logger
                    (logger wc ++
                     [(INFO, lit "Found "
                               ++ str_of_nat (length (listed E w Approved))
                               ++ lit " approved file(s) ready for action")]) wc
             else wc).
  assert (same_vault w w3) as (Hv3 & Hf3 & Hp3).
  { subst w3. case_bool_decide; repeat split; fields; congruence. }
  destruct (moves_loop E (listed E w Approved) w3)
    as (w4 & Hloop & Hv4 & Hp4 & Hfr4 & _).
  destruct (save_state_frame E w4) as (w5 & Hsave & Hv5 & Hf5 & Hp5).
  exists w5. split.
  - unfold pass_tail. unfold bind at 1. rewrite Happ. unfold bind at 1.
    replace ((if bool_decide (listed E w Approved ≠ []) then _ else _) wc)
      with (inl tt : unit + exn, w4); [done|].
    subst w3. case_bool_decide as Hne.
    + unfold bind, log, modify. by rewrite Hloop.
    + rewrite Hne in Hloop. cbn in Hloop. by injection Hloop as <-.
  - split; [congruence|]. split; [congruence|].
    intros f ? ?. rewrite Hf5, Hfr4 by done. by rewrite Hf3.
Qed.

(** A pass is its head, the loop over the listing of Needs_Action and its
    tail. *)
Lemma cycle_split (w : world) :
  ∃ w1, pass_head E w = (inl (listed E w Needs_Action), w1) ∧
        same_vault w w1 ∧
        cycle E w
        = (run for_each (listed E w Needs_Action) (process_pending E);
           pass_tail E) w1.
Proof.
  destruct (update_dashboard_frame E w) as (wa & Hdash & Hsa).
  destruct (get_pending_files_run E wa) as (wb & Hpend & Hsb).
  assert (listed E wa Needs_Action = listed E w Needs_Action) as Hl1.
  { destruct Hsa as (Hvp & Hf & _). apply listed_ext; [done|by rewrite Hf]. }
  rewrite Hl1 in Hpend.
  set (w1 := if bool_decide (listed E w Needs_Action ≠ [])
             then set_logger
                    (logger wb ++
                     [(INFO, lit "Found "
                               ++ str_of_nat (length (listed E w Needs_Action))
                               ++ lit " pending file(s)")]) wb
             else wb).
  assert (same_vault w w1) as Hs1.
  { destruct Hsa as (?&?&?), Hsb as (?&?&?). subst w1.
    case_bool_decide; repeat split; fields; congruence. }
  destruct (for_each_keeps (λ _, True) (listed E w Needs_Action)
              (process_pending E) w1) as (w2 & Hloop & _); [|done|].
  { intros x w0 _ _. destruct (process_pending_run E x w0) as (w' & Hr & _).
    by exists w'. }
  destruct (pass_tail_run w2) as (w5 & Htail & _).
  exists w1. split; [|split; [done|]].
  - unfold pass_head. unfold bind at 1. rewrite Hdash.
    unfold bind at 1. rewrite Hpend. unfold bind at 1.
    subst w1. by case_bool_decide.
  - unfold bind at 1. rewrite Hloop, Htail.
    unfold cycle, try_except.
    unfold bind at 1. rewrite Hdash.
    unfold bind at 1. rewrite Hpend.
    unfold bind at 1.
    replace ((if bool_decide (listed E w Needs_Action ≠ []) then _ else _) wb)
      with (inl tt : unit + exn, w2).
    2:{ subst w1. case_bool_decide as Hne.
        - unfold bind, log, modify. by rewrite Hloop.
        - rewrite Hne in Hloop. cbn in Hloop. by injection Hloop as <-. }
    fold (pass_tail E w2). by rewrite Htail.
Qed.

(** What a pass does to one pending record: it comes to the record in the
    state [reaches E w name], with the record as it was, and what becomes
    of the record is what [process_pending] makes of it there. *)
Lemma pending_turn (w : world) (name content : list Z) (mt : Z) :
  folders w Needs_Action !! name = Some (File content mt) →
  suffix name = lit ".md" →
  file_path w Needs_Action name ∉ processed_files w →
  fault E OpList (folder_path w Needs_Action) = false →
  let wk := reaches E w name in
  (∃ later,
     cycle E w
     = (run process_pending E name;
        run for_each later (process_pending E);
        pass_tail E) wk) ∧
  vault_path wk = vault_path w ∧
  folders wk Needs_Action !! name = Some (File content mt) ∧
  (file_path w Needs_Action name ∉ processed_files wk) ∧
  (succeeds E wk name = true →
   file_path w Needs_Action name ∈ processed_files (after_cycle E w) ∧
   ∃ mt', folders (after_cycle E w) Needs_Action !! name
          = Some (File (mark content) mt')) ∧
  (succeeds E wk name = false →
   (file_path w Needs_Action name ∉ processed_files (after_cycle E w)) ∧
   folders (after_cycle E w) Needs_Action !! name = Some (File content mt)).
Proof.
  intros Hn Hmd Hnew Hlist wk.
  destruct (cycle_split w) as (w1 & Hhead & (Hvp1 & Hf1 & Hp1) & Hcycle).
  assert (name ∈ listed E w Needs_Action) as Hin.
  { unfold listed. rewrite Hlist. apply elem_of_md_names.
    exists (File content mt). split; [done|].
    unfold is_md_file. cbn [fst snd is_file]. by rewrite bool_decide_eq_true_2. }
  apply list_elem_of_split in Hin as (l1 & l2 & Hsplit).
  pose proof (NoDup_listed E w Needs_Action) as Hnd. rewrite Hsplit in Hnd.
  apply list.NoDup_app in Hnd as (_ & Hnot1 & Hnd).
  apply list.NoDup_cons in Hnd as [Hnot2 _].
  assert (name ∉ l1) as Hn1.
  { intros Hin1. apply (Hnot1 name Hin1). by left. }
  destruct (pending_loop E l1 w1) as (wa & Hla & Hsta & Hotha).
  assert (wk = wa) as ->.
  { subst wk. unfold reaches. rewrite Hhead, Hsplit, before_split by done.
    by rewrite Hla. }
  destruct (process_pending_step E name wa) as (wb & Hrunb & Hstb & _ & Hdich).
  destruct (pending_loop E l2 wb) as (wc & Hlc & Hstc & Hothc).
  destruct (pass_tail_run wc) as (w5 & Htail & Hv5 & Hp5 & Hf5).
  assert (cycle E w
          = (run process_pending E name;
             run for_each l2 (process_pending E);
             pass_tail E) wa) as Hturn.
  { rewrite Hcycle, Hsplit. unfold bind at 1.
    rewrite (for_each_app _ _ _ _ _ Hla). cbn [for_each].
    unfold bind. rewrite Hrunb. by rewrite Hlc. }
  assert (after_cycle E w = w5) as ->.
  { unfold after_cycle. rewrite Hturn. unfold bind. rewrite Hrunb.
    by rewrite Hlc, Htail. }
  assert (vault_path wa = vault_path w) as Hvpa.
  { destruct Hsta as (-> & _). done. }
  assert (vault_path wb = vault_path w) as Hvpb.
  { destruct Hstb as (-> & _). done. }
  assert (∀ x, file_path wa Needs_Action x = file_path w Needs_Action x) as Hpa.
  { intros x. unfold file_path, folder_path. by rewrite Hvpa. }
  assert (∀ x, file_path wb Needs_Action x = file_path w Needs_Action x) as Hpb.
  { intros x. unfold file_path, folder_path. by rewrite Hvpb. }
  assert (∀ x, file_path w1 Needs_Action x = file_path w Needs_Action x) as Hp1'.
  { intros x. unfold file_path, folder_path. by rewrite Hvp1. }
  destruct (Hotha name Hn1) as [Hfa Hproca].
  destruct (Hothc name Hnot2) as [Hfc Hprocc].
  rewrite Hp1' in Hproca. rewrite Hpb in Hprocc. rewrite Hpa in Hdich.
  assert (folders wa Needs_Action !! name = Some (File content mt)) as Hna.
  { by rewrite Hfa, Hf1. }
  assert (file_path w Needs_Action name ∉ processed_files wa) as Hnewa.
  { rewrite Hproca, Hp1. done. }
  split; [by exists l2|]. split; [done|]. split; [done|]. split; [done|].
  rewrite Hf5, Hp5 by done.
  destruct (Hdich Hnewa) as [(Hs & Hin & c & t & t' & Hc & Hc')
                            |(Hs & Hnin & Hsame)]; rewrite Hs.
  - split; [|done]. intros _. split; [by apply Hprocc|].
    rewrite Hna in Hc. injection Hc as <- <-. exists t'. by rewrite Hfc.
  - split; [done|]. intros _. split; [by rewrite Hprocc|].
    by rewrite Hfc, Hsame.
Qed.

End Pending.


(** C4.  Take a record of the Needs_Action folder that is not in the
    processed set, in a pass in which the folder can be listed.  The loop
    of the pass comes to the record in the state [reaches E w name], in
    which the record is as it was and still unprocessed, and the rest of
    the pass is [process_pending] on the record, then the records listed
    after it, then the end of the pass.  The call of [process_with_claude]
    on the record in that state returns a truth value.  If it returns
    [True], the record's path is in the processed set after the pass and
    its content is marked: the first [status: pending], the one of the
    header, reads [status: in_progress].  If it returns [False], which is
    the case whenever the tool is missing, the path is not added and the
    record is exactly as it was, so the next pass lists it again and finds
    it unprocessed.  No pass removes a path from the processed set. *)
Theorem pending_record_marked_or_retried (E : env) (w : world)
    (name content : list Z) (mt : Z) :
  folders w Needs_Action !! name = Some (File content mt) →
  suffix name = lit ".md" →
  file_path w Needs_Action name ∉ processed_files w →
  fault E OpList (folder_path w Needs_Action) = false →
  let w' := after_cycle E w in
  let wk := reaches E w name in
  (∀ E0 w0, processed_files w0 ⊆ processed_files (after_cycle E0 w0)) ∧
  (∃ later,
     cycle E w
     = (run process_pending E name;
        run for_each later (process_pending E);
        pass_tail E) wk) ∧
  (file_path wk Needs_Action name = file_path w Needs_Action name ∧
   folders wk Needs_Action !! name = Some (File content mt) ∧
   file_path w Needs_Action name ∉ processed_files wk) ∧
  ((process_with_claude E name wk).1 = inl true →
   file_path w Needs_Action name ∈ processed_files w' ∧
   ∃ mt', folders w' Needs_Action !! name = Some (File (mark content) mt')) ∧
  ((process_with_claude E name wk).1 = inl false →
   (file_path w Needs_Action name ∉ processed_files w') ∧
   folders w' Needs_Action !! name = Some (File content mt)) ∧
  (∃ success : bool, (process_with_claude E name wk).1 = inl success) ∧
  (tool_missing E = true → (process_with_claude E name wk).1 = inl false) ∧
  (file_path w Needs_Action name ∉ processed_files w' →
   folders w' Needs_Action !! name = Some (File content mt) ∧
   (file_path w' Needs_Action name ∉ processed_files w') ∧
   ∀ E', fault E' OpList (folder_path w' Needs_Action) = false →
         name ∈ listed E' w' Needs_Action) ∧
  (∀ i, find (lit "status: pending") content = Some i →
     mark content
     = take i content ++ lit "status: in_progress"
         ++ replace (lit "status: pending") (lit "status: in_progress")
              (drop (i + 15) content)).
Proof.
  intros Hn Hmd Hnew Hlist w' wk. subst w' wk.
  destruct (pending_turn E w name content mt Hn Hmd Hnew Hlist)
    as (Hturn & Hvp & Hrec & Hnewk & Hyes & Hno).
  destruct (process_with_claude_run E name (reaches E w name))
    as (w1 & Hcall & _).
  rewrite Hcall. cbn [fst].
  assert (vault_path (after_cycle E w) = vault_path w) as Hvp'.
  { destruct (cycle_split E w) as (w1' & _ & (Hv1 & _) & Hcycle).
    unfold after_cycle. rewrite Hcycle. unfold bind.
    destruct (pending_loop E (listed E w Needs_Action) w1')
      as (w2 & -> & (Hv2 & _) & _).
    destruct (pass_tail_run E w2) as (w5 & -> & Hv5 & _).
    cbn [snd]. congruence. }
  split; [intros E0 w0; apply processed_grows|].
  split; [exact Hturn|].
  split.
  { split; [|by split]. unfold file_path, folder_path. by rewrite Hvp. }
  split. { intros [= Hs]. by apply Hyes. }
  split. { intros [= Hs]. by apply Hno. }
  split. { by eexists. }
  split.
  { intros Hmiss. f_equal. unfold succeeds. by rewrite Hmiss. }
  split.
  - intros Hnin.
    destruct (succeeds E (reaches E w name) name) eqn:Hs.
    { by destruct (Hyes eq_refl) as [Hin _]. }
    destruct (Hno eq_refl) as [_ Hsame].
    split; [done|]. split.
    + unfold file_path, folder_path in *. by rewrite Hvp'.
    + intros E' Hlist'. unfold listed. rewrite Hlist'.
      apply elem_of_md_names. exists (File content mt). split; [done|].
      unfold is_md_file. cbn [fst snd is_file].
      by rewrite bool_decide_eq_true_2.
  - intros i Hi. unfold mark.
    replace (contains (lit "status: pending") content) with true.
    + by apply replace_find.
    + symmetry. apply find_contains. by rewrite Hi.
Qed.

(** In the sample vault with the tool at hand the call on the record
    [a.md] returns [True]; the record is marked and recorded as
    processed. *)
Lemma pending_record_marked_or_retried_witness :
  file_path Sample.three_records Needs_Action (lit "a.md")
    ∈ processed_files (after_cycle Sample.calm Sample.three_records) ∧
  ∃ mt', folders (after_cycle Sample.calm Sample.three_records) Needs_Action
           !! lit "a.md" = Some (File (mark Sample.pending_doc) mt').
Proof.
  destruct (pending_record_marked_or_retried Sample.calm Sample.three_records
              (lit "a.md") Sample.pending_doc 1) as (_ & _ & _ & Hyes & _).
  - vm_compute. reflexivity.
  - reflexivity.
  - apply not_elem_of_empty.
  - reflexivity.
  - apply Hyes. vm_compute. reflexivity.
Defined.



(** *** One pass on the sample vault *)

(** Without the tool no record is marked and none is recorded as
    processed. *)
Example pass_without_tool :
  folders (after_cycle Sample.no_tool Sample.three_records) Needs_Action
    !! lit "a.md" = Some (File Sample.pending_doc 1) ∧
  elements (processed_files (after_cycle Sample.no_tool Sample.three_records))
    = [].
Proof. split; vm_compute; reflexivity. Qed.

(** With the tool every record is marked, recorded as processed and given
    a plan; the dashboard counts the three records. *)
Example pass_with_tool :
  folders (after_cycle Sample.calm Sample.three_records) Needs_Action
    !! lit "a.md" = Some (File (mark Sample.pending_doc) 1793696707) ∧
  size (processed_files (after_cycle Sample.calm Sample.three_records)) = 3%nat ∧
  size (folders (after_cycle Sample.calm Sample.three_records) Plans) = 3%nat ∧
  dashboard_file (after_cycle Sample.calm Sample.three_records)
    = Some (lit "Pending: 3").
Proof. split; [|split; [|split]]; vm_compute; reflexivity. Qed.

End CycleFacts.

(** ** Names and their parts *)

Module NameFacts.
Import PyFacts.

(** A name that ends in a dot followed by an extension without a dot has
    that extension as its suffix and the rest as its stem. *)
Lemma suffix_ext (a ext : list Z) :
  a ≠ [] → ext ≠ [] → 46 ∉ ext → suffix (a ++ 46 :: ext) = 46 :: ext.
Proof.
  intros Ha Hext Hdot. unfold suffix. rewrite rfind_last by done.
  rewrite drop_app_length. replace (_ && _) with true; [done|].
  symmetry. apply andb_true_iff. rewrite length_app. cbn [length].
  destruct a; [done|]. destruct ext; [done|]. cbn [length].
  split; apply Nat.ltb_lt; lia.
Qed.

Lemma stem_ext (a ext : list Z) :
  a ≠ [] → ext ≠ [] → 46 ∉ ext → stem (a ++ 46 :: ext) = a.
Proof.
  intros Ha Hext Hdot. unfold stem. rewrite rfind_last by done.
  rewrite take_app_length. replace (_ && _) with true; [done|].
  symmetry. apply andb_true_iff. rewrite length_app. cbn [length].
  destruct a; [done|]. destruct ext; [done|]. cbn [length].
  split; apply Nat.ltb_lt; lia.
Qed.

Lemma suffix_md (a : list Z) : a ≠ [] → suffix (a ++ lit ".md") = lit ".md".
Proof.
  intros Ha. change (lit ".md") with (46 :: [109; 100]).
  apply suffix_ext; [done..|].
  intros Hin. repeat (apply elem_of_cons in Hin as [?|Hin]; [done|]).
  by apply elem_of_nil in Hin.
Qed.

Lemma contains_here (pat t : list Z) : contains pat (pat ++ t) = true.
Proof. apply contains_spec. by exists [], t. Qed.

Lemma contains_app_r (pat s t : list Z) :
  contains pat t = true → contains pat (s ++ t) = true.
Proof.
  rewrite !contains_spec. intros (a & b & ->).
  exists (s ++ a), b. by rewrite <- !app_assoc.
Qed.

(** The replacement text is in the result when there was something to
    replace. *)
Lemma contains_replace_new (old new s : list Z) :
  old ≠ [] → contains old s = true → contains new (replace old new s) = true.
Proof.
  intros Hold [i Hi]%find_contains.
  rewrite (replace_find old new s i Hold Hi).
  apply contains_app_r, contains_here.
Qed.

(** *** Digits and time stamps *)

Lemma digits_uint (d : Decimal.uint) :
  Forall (λ c, 48 ≤ c ≤ 57) (uint_digits d).
Proof. induction d; cbn [uint_digits]; constructor; (lia || done). Qed.

Lemma digits_pad (width n : nat) :
  Forall (λ c, 48 ≤ c ≤ 57) (Clock.pad width n).
Proof.
  unfold Clock.pad. apply Forall_app. split; [|apply digits_uint].
  apply Forall_replicate. lia.
Qed.

(** The characters of [%Y-%m-%d_%H-%M-%S] are digits, [-] and [_]. *)
Lemma file_stamp_chars (t : Clock.datetime) :
  Forall (λ c, 48 ≤ c ≤ 57 ∨ c = 45 ∨ c = 95) (Clock.fmt_file_stamp t).
Proof.
  assert (∀ width n,
            Forall (λ c, 48 ≤ c ≤ 57 ∨ c = 45 ∨ c = 95) (Clock.pad width n))
    as Hpad.
  { intros. eapply List.Forall_impl; [|apply digits_pad].
    intros c Hc. by left. }
  unfold Clock.fmt_file_stamp, Clock.fmt_date.
  change (lit "-") with [45]. change (lit "_") with [95].
  rewrite !Forall_app, !Forall_singleton.
  repeat split; first [apply Hpad | lia].
Qed.

Lemma file_stamp_date (t : Clock.datetime) :
  startswith (Clock.fmt_date t) (Clock.fmt_file_stamp t) = true.
Proof.
  unfold Clock.fmt_file_stamp. apply startswith_app.
Qed.

End NameFacts.

(** ** More about [str.replace] *)

Module ReplaceFacts.
Import PyFacts NameFacts.

Lemma contains_nil (pat : list Z) : pat ≠ [] → contains pat [] = false.
Proof. by destruct pat. Qed.

Lemma contains_cons (pat : list Z) (c : Z) (s : list Z) :
  contains pat (c :: s) = startswith pat (c :: s) || contains pat s.
Proof. reflexivity. Qed.

(** No occurrence starts in a stretch that lacks the first character of
    the pattern. *)
Lemma contains_skip (p0 : Z) (pat n s : list Z) :
  p0 ∉ n → contains (p0 :: pat) (n ++ s) = contains (p0 :: pat) s.
Proof.
  induction n as [|a n IH]; intros Hn; [done|].
  apply not_elem_of_cons in Hn as [Ha Hn].
  change ((a :: n) ++ s) with (a :: (n ++ s)). rewrite contains_cons.
  rewrite IH by done. cbn [startswith].
  by rewrite (proj2 (Z.eqb_neq p0 a)) by done.
Qed.

(** Without an occurrence the string is returned as it is. *)
Lemma replace_absent (old new s : list Z) :
  old ≠ [] → contains old s = false → replace old new s = s.
Proof.
  intros Hold. induction s as [|c s IH]; intros Hs.
  - by apply replace_nil.
  - rewrite contains_cons in Hs. apply orb_false_iff in Hs as [Hc Hs].
    rewrite replace_cons by done. f_equal. by apply IH.
Qed.

Section Inserted.
Context (old new' pat : list Z) (c0 : Z).
Context (Hold : old ≠ []) (Hc0 : c0 ∉ pat).

(** A pattern that lacks the first character of the inserted text cannot
    reach into it: what it matches after the replacement it matched
    before. *)
Lemma startswith_replace (x s : list Z) :
  startswith pat (x ++ replace old (c0 :: new') s) = true →
  startswith pat (x ++ s) = true.
Proof.
  revert x. induction s as [|c s IH]; intros x.
  - by rewrite replace_nil.
  - destruct (startswith old (c :: s)) eqn:Hm.
    + apply startswith_inv in Hm as [r Hr]. rewrite Hr.
      rewrite replace_match by done. cbn [app]. intros Hs.
      apply startswith_extend. by apply startswith_barrier in Hs.
    + rewrite replace_cons by done. intros Hs.
      rewrite (cons_middle c x s), app_assoc. apply IH.
      by rewrite <- app_assoc.
Qed.

(** Nor does the replacement create an occurrence of a pattern whose
    first character is not in the inserted text. *)
Lemma contains_replace (p0 : Z) (pat' : list Z) (s : list Z) :
  pat = p0 :: pat' → p0 ∉ c0 :: new' →
  contains pat (replace old (c0 :: new') s) = true → contains pat s = true.
Proof.
  intros Hpat Hp0.
  induction s as [s IH] using (induction_ltof1 _ (@length Z)).
  unfold ltof in IH. destruct s as [|c s].
  - by rewrite replace_nil.
  - destruct (startswith old (c :: s)) eqn:Hm.
    + apply startswith_inv in Hm as [r Hr]. rewrite Hr.
      rewrite replace_match by done. rewrite Hpat, contains_skip by done.
      rewrite <- Hpat. intros Hs. apply contains_app_r, IH; [|done].
      rewrite Hr, length_app. destruct old; [done|]. cbn [length]. lia.
    + rewrite replace_cons by done. rewrite !contains_cons.
      intros [Hs|Hs]%orb_true_iff; apply orb_true_iff.
      * left. by apply (startswith_replace [c]).
      * right. apply IH; [cbn [length]; lia|done].
Qed.

End Inserted.

(** After the replacement no occurrence of [old] is left, provided the
    inserted text neither begins with a character of [old] nor holds the
    first character of [old]. *)
Lemma replace_removes (o0 c0 : Z) (old' new' s : list Z) :
  c0 ∉ o0 :: old' → o0 ∉ c0 :: new' →
  contains (o0 :: old') (replace (o0 :: old') (c0 :: new') s) = false.
Proof.
  intros Hc0 Ho0.
  induction s as [s IH] using (induction_ltof1 _ (@length Z)).
  unfold ltof in IH. destruct s as [|c s].
  - by rewrite replace_nil.
  - destruct (startswith (o0 :: old') (c :: s)) eqn:Hm.
    + apply startswith_inv in Hm as [r Hr]. rewrite Hr.
      rewrite replace_match by done. rewrite contains_skip by done.
      apply IH. rewrite Hr, length_app. cbn [length]. lia.
    + rewrite replace_cons by done. rewrite contains_cons.
      apply orb_false_iff. split.
      * apply not_true_iff_false. intros Hs.
        apply (startswith_replace (o0 :: old') new' (o0 :: old') c0) with (x := [c])
          in Hs; [|done..].
        cbn [app] in Hs. congruence.
      * apply IH. cbn [length]. lia.
Qed.

End ReplaceFacts.

(** ** The dashboard after its first rendering *)

Module RenderFacts.
Import Orchestrator PyFacts DashboardFacts ReplaceFacts.

Lemma inert_first (v key : list Z) :
  inert v = true → forallb key_char key = true →
  ∃ c0 v', v = c0 :: v' ∧ (c0 ∉ placeholder key) ∧ (123 ∉ v).
Proof.
  intros (c0 & v' & -> & Hc0 & Hopen)%inert_inv Hkey.
  exists c0, v'. split; [done|]. split.
  - intros Hin. apply (placeholder_chars _ _ Hkey) in Hin. lia.
  - intros Hin. rewrite Forall_forall in Hopen.
    by apply list_elem_of_In, Hopen in Hin.
Qed.

Section Replace.
Context (name v : list Z).
Context (Hname : forallb key_char name = true) (Hv : inert v = true).

Lemma replace_placeholder_removes (s : list Z) :
  contains (placeholder name) (replace (placeholder name) v s) = false.
Proof.
  destruct (inert_first v name Hv Hname) as (c0 & v' & -> & Hc0 & Hopen).
  change (placeholder name) with (123 :: (123 :: name ++ lit "}}")) in *.
  by apply replace_removes.
Qed.

Lemma replace_placeholder_keeps (key s : list Z) :
  forallb key_char key = true →
  contains (placeholder key) s = false →
  contains (placeholder key) (replace (placeholder name) v s) = false.
Proof.
  intros Hkey Hs. apply not_true_iff_false. intros Hc.
  destruct (inert_first v key Hv Hkey) as (c0 & v' & -> & Hc0 & Hopen).
  assert (placeholder name ≠ []) as Hne by done.
  apply (contains_replace _ _ _ _ Hne Hc0
           123 (123 :: key ++ lit "}}")) in Hc; [congruence|done..].
Qed.

End Replace.

Section Render.
Context (values : list (list Z * list Z)).
Context (Hkeys : forallb (λ r, forallb key_char r.1) values = true).
Context (Hvalues : forallb (λ r, inert r.2) values = true).

Lemma render_keeps_absent (key s : list Z) :
  forallb key_char key = true →
  contains (placeholder key) s = false →
  contains (placeholder key) (render (substitutions values) s) = false.
Proof.
  intros Hkey. revert s Hkeys Hvalues.
  induction values as [|[name v] rest IH]; intros s Hk Hv Hs; [done|].
  cbn [forallb fst snd] in Hk, Hv.
  apply andb_true_iff in Hk as [Hname Hk], Hv as [Hval Hv].
  rewrite substitutions_cons. apply IH; [done..|].
  by apply replace_placeholder_keeps.
Qed.

End Render.

(** After the loop no recognized placeholder is left. *)
Lemma render_removes (values : list (list Z * list Z)) (key s : list Z) :
  forallb (λ r, forallb key_char r.1) values = true →
  forallb (λ r, inert r.2) values = true →
  key ∈ values.*1 →
  contains (placeholder key) (render (substitutions values) s) = false.
Proof.
  revert s. induction values as [|[name v] rest IH]; intros s Hk Hv Hin.
  - by apply elem_of_nil in Hin.
  - cbn [forallb fst snd] in Hk, Hv.
    apply andb_true_iff in Hk as [Hname Hk], Hv as [Hval Hv].
    rewrite substitutions_cons. rewrite fmap_cons in Hin. cbn [fst] in Hin.
    destruct (decide (key = name)) as [->|Hne].
    + apply render_keeps_absent; [done..|].
      by apply replace_placeholder_removes.
    + apply elem_of_cons in Hin as [?|Hin]; [done|]. by apply IH.
Qed.

(** A text without recognized placeholders passes through the loop
    unchanged. *)
Lemma render_absent (values : list (list Z * list Z)) (s : list Z) :
  (∀ key, key ∈ values.*1 → contains (placeholder key) s = false) →
  render (substitutions values) s = s.
Proof.
  induction values as [|[name v] rest IH]; intros Hs; [done|].
  rewrite substitutions_cons.
  rewrite replace_absent; [|done|apply Hs; left].
  apply IH. intros key Hkey. apply Hs. by right.
Qed.

Section WithEnv.
Context (E : env).

(** What [update_dashboard] leaves behind, case by case. *)
Lemma update_dashboard_outcome (w : world) :
  ∃ entry,
    update_dashboard E w =
      (inl tt,
       set_logger (logger w ++ [entry])
         (match dashboard_file w with
          | None => w
          | Some content =>
            if fault E OpRead (dashboard_path w)
            then set_ticks (2 + ticks w) w
            else if fault E OpWrite (dashboard_path w)
                 then set_ticks (4 + ticks w) w
                 else set_dashboard_file (Some (rendered E w content))
                        (set_ticks (4 + ticks w) w)
          end)) ∧
    entry =
      match dashboard_file w with
      | None => (WARNING, lit "Dashboard.md not found")
      | Some _ =>
        if fault E OpRead (dashboard_path w) || fault E OpWrite (dashboard_path w)
        then (ERROR, lit "Error updating dashboard: "
                       ++ str_exn (OSError (dashboard_path w)))
        else (DEBUG, lit "Dashboard updated")
      end.
Proof.
  unfold update_dashboard, try_except.
  unfold bind at 1. unfold get at 1.
  destruct (dashboard_file w) as [content|] eqn:Hd.
  - unfold bind at 1. rewrite count_folders_run.
    unfold bind at 1. unfold read_dashboard. fields. rewrite Hd.
    destruct (fault E OpRead _) eqn:Hr.
    { run_monad. eexists. split; reflexivity. }
    unfold bind at 1. rewrite (replacements_run E w _ eq_refl).
    unfold write_dashboard. run_monad.
    destruct (fault E OpWrite _) eqn:Hw; eexists; split; reflexivity.
  - run_monad. eexists. split; reflexivity.
Qed.

Lemma same_keys (w w' : world) (E' : env) :
  (dashboard_values E' w').*1 = (dashboard_values E w).*1.
Proof. reflexivity. Qed.

(** A rendering is left alone by every later rendering. *)
Lemma rendered_settled (w w' : world) (E' : env) (s : list Z) :
  rendered E' w' (rendered E w s) = rendered E w s.
Proof.
  unfold rendered at 1. apply render_absent. intros key Hkey.
  rewrite (same_keys w w' E') in Hkey.
  destruct (dashboard_values_inert E w) as [Hkeys Hvalues].
  by apply render_removes.
Qed.

End WithEnv.



(** X2.  Rendering consumes the template.  When [update_dashboard] has
    rendered the template, no recognized placeholder is left in
    [Dashboard.md]; every later call, in whatever state and at whatever
    time, leaves the content of the file as it is. *)
Theorem dashboard_rendered_once (E : env) (w : world) (template : list Z) :
  dashboard_file w = Some template →
  fault E OpRead (dashboard_path w) = false →
  fault E OpWrite (dashboard_path w) = false →
  let w1 := (update_dashboard E w).2 in
  dashboard_file w1 = Some (rendered E w template) ∧
  (∀ key, is_Some (assoc key (dashboard_values E w)) →
          contains (placeholder key) (rendered E w template) = false) ∧
  (∀ E' w2,
     dashboard_file w2 = dashboard_file w1 →
     dashboard_file (update_dashboard E' w2).2 = dashboard_file w1).
Proof.
  intros Hd Hr Hw w1.
  assert (dashboard_file w1 = Some (rendered E w template)) as Hd1.
  { subst w1. destruct (update_dashboard_outcome E w) as (entry & -> & _).
    by rewrite Hd, Hr, Hw. }
  split; [done|]. split.
  - intros key [v Hv]. destruct (dashboard_values_inert E w) as [Hkeys Hvalues].
    apply render_removes; [done..|].
    apply assoc_Some in Hv. apply list_elem_of_fmap. by exists (key, v).
  - intros E' w2 Hd2.
    destruct (update_dashboard_outcome E' w2) as (entry & -> & _).
    rewrite Hd2, Hd1. cbn [snd].
    destruct (fault E' OpRead _); [by fields; rewrite Hd2|].
    destruct (fault E' OpWrite _); [by fields; rewrite Hd2|].
    fields. by rewrite rendered_settled.
Qed.

(** The template [Pending: {{pending_count}}] reads [Pending: 3] after the
    first update, and the second update leaves it so. *)
Lemma dashboard_rendered_once_witness :
  dashboard_file
    (update_dashboard Sample.calm
       (update_dashboard Sample.calm Sample.three_records).2).2
  = Some (lit "Pending: 3").
Proof.
  destruct (dashboard_rendered_once Sample.calm Sample.three_records
              (lit "Pending: {{pending_count}}") eq_refl eq_refl eq_refl)
    as (_ & _ & Hfix).
  rewrite (Hfix Sample.calm _ eq_refl). vm_compute. reflexivity.
Defined.

End RenderFacts.

(** ** What a scan reports and what it stores *)

Module ReportFacts.
Import Watcher PyFacts ScanFacts Saved.

Section WithEnv.
Context `{Unicode} `{Codec} (E : env).

Section Pure.
Context (folder : list Z).

Lemma elem_of_hits_inv (h : gmap (list Z) (list Z)) l it :
  it ∈ hits E folder h l →
  ∃ name data mt,
    (name, File data mt) ∈ l ∧ changed E folder h name data = true ∧
    it = entry_item E folder name data.
Proof.
  unfold hits. intros Hit. apply list_elem_of_In, in_flat_map in Hit.
  destruct Hit as ([name n] & Hin & Hit). apply list_elem_of_In in Hin.
  cbn [fst snd] in Hit. destruct n as [data mt|mt]; [|done].
  destruct (changed E folder h name data) eqn:Hch; [|done].
  destruct Hit as [<-|[]]. by exists name, data, mt.
Qed.

Lemma hits_cons (h : gmap (list Z) (list Z)) e l :
  hits E folder h (e :: l) = hits E folder h [e] ++ hits E folder h l.
Proof. unfold hits. cbn [flat_map]. by rewrite app_nil_r. Qed.

Lemma hits_step st (e : list Z * node) l :
  e.1 ∉ l.*1 →
  hits E folder (scan_step E folder st e).2 l = hits E folder st.2 l.
Proof.
  intros Hnotin. apply hits_ext. intros e' He'. apply scan_step_lookup.
  intros Heq. apply joinpath_inj in Heq. apply Hnotin. rewrite Heq.
  apply list_elem_of_fmap. by exists e'.
Qed.

(** No two items of a report speak of the same file. *)
Lemma NoDup_hits (h : gmap (list Z) (list Z)) l :
  NoDup l.*1 → NoDup (file_path <$> hits E folder h l).
Proof.
  induction l as [|[name n] l IH]; intros Hnd; [constructor|].
  rewrite fmap_cons in Hnd. apply list.NoDup_cons in Hnd as [Hnotin Hnd].
  rewrite hits_cons, fmap_app. apply list.NoDup_app.
  split; [|split; [|by apply IH]].
  - unfold hits. cbn [flat_map fst snd]. destruct n as [data mt|mt];
      [destruct (changed E folder h name data)|]; cbn;
      repeat constructor; by intros ?%elem_of_nil.
  - intros path Hp Hp'. apply list_elem_of_fmap in Hp as (it & -> & Hit).
    apply list_elem_of_fmap in Hp' as (it' & Heq & Hit').
    apply elem_of_hits_inv in Hit as (n1 & d1 & m1 & Hin1 & _ & ->).
    apply elem_of_hits_inv in Hit' as (n2 & d2 & m2 & Hin2 & _ & ->).
    cbn [file_path entry_item] in Heq. apply joinpath_inj in Heq. subst n2.
    apply list_elem_of_singleton in Hin1. injection Hin1 as <- _.
    apply Hnotin. cbn [fst]. apply list_elem_of_fmap.
    by exists (n1, File d2 m2).
Qed.

(** The hash of every reported file is stored under its path. *)
Lemma scan_stored l st it :
  NoDup l.*1 → it ∈ hits E folder st.2 l →
  (scan E folder l st).2 !! file_path it = Some (hash it).
Proof.
  revert st. induction l as [|e l IH]; intros st Hnd Hit.
  - by apply elem_of_nil in Hit.
  - rewrite fmap_cons in Hnd. apply list.NoDup_cons in Hnd as [Hnotin Hnd].
    unfold scan. cbn [foldl]. fold (scan E folder l (scan_step E folder st e)).
    rewrite hits_cons in Hit. apply elem_of_app in Hit as [Hit|Hit].
    + apply elem_of_hits_inv in Hit as (name & data & mt & Hin & Hch & ->).
      apply list_elem_of_singleton in Hin. subst e. cbn [fst] in Hnotin.
      cbn [file_path hash entry_item].
      rewrite scan_lookup.
      * unfold scan_step. cbn [fst snd]. rewrite Hch. cbn [snd].
        by rewrite lookup_insert_eq.
      * intros e' He' Heq. apply joinpath_inj in Heq. apply Hnotin.
        rewrite <- Heq. apply list_elem_of_fmap. by exists e'.
    + apply IH; [done|]. by rewrite hits_step.
Qed.

(** Every other entry of the dictionary is as it was. *)
Lemma scan_untouched l st key :
  NoDup l.*1 →
  (∀ it, it ∈ hits E folder st.2 l → file_path it ≠ key) →
  (scan E folder l st).2 !! key = st.2 !! key.
Proof.
  revert st. induction l as [|e l IH]; intros st Hnd Hkey; [done|].
  rewrite fmap_cons in Hnd. apply list.NoDup_cons in Hnd as [Hnotin Hnd].
  unfold scan. cbn [foldl]. fold (scan E folder l (scan_step E folder st e)).
  rewrite IH; [|done|].
  - unfold scan_step. destruct e as [name [data mt|mt]]; [|done]. cbn [fst snd].
    destruct (changed E folder st.2 name data) eqn:Hch; [|done]. cbn [snd].
    apply lookup_insert_ne. intros Heq.
    apply (Hkey (entry_item E folder name data)); [|done].
    rewrite hits_cons. apply elem_of_app. left.
    unfold hits. cbn [flat_map fst snd]. rewrite Hch. by left.
  - intros it Hit. apply Hkey. rewrite hits_cons. apply elem_of_app. right.
    by rewrite hits_step in Hit.
Qed.

Lemma detect_priority_values (filename content : list Z) :
  _detect_priority filename content ∈ [lit "high"; lit "medium"; lit "low"].
Proof.
  unfold _detect_priority.
  destruct (existsb _ (priority_keywords high)); [by left|].
  destruct (existsb _ (priority_keywords medium)); [by right; left|].
  by right; right; left.
Qed.

End Pure.

(** A scan that can list the folder ends with [_save_file_hashes]. *)
Lemma check_for_updates_then_save (w : world) d :
  drop_dir w = Some d →
  ∃ w1, frame w w1 ∧
        file_hashes w1
        = (scan E (drop_folder w) (listing d) ([], file_hashes w)).2 ∧
        check_for_updates E w =
          (inl (scan E (drop_folder w) (listing d) ([], file_hashes w)).1,
           (_save_file_hashes E w1).2).
Proof.
  intros Hd.
  destruct (fold_scan E (listing d) [] w d Hd) as (w1 & Hrun & Hfh & Hfr).
  { intros [n0 n] He. apply elem_of_map_to_list.
    unfold listing in He. apply list_elem_of_filter in He. apply He. }
  exists w1. split; [done|]. split; [done|].
  destruct (save_file_hashes_run E w1) as (w2 & Hsave & _).
  unfold check_for_updates, try_except.
  unfold bind at 1. unfold list_drop_folder. rewrite Hd.
  unfold bind at 1. rewrite Hrun. unfold bind. by rewrite Hsave.
Qed.

Lemma save_file_hashes_writes (w : world) :
  let name := lit "filesystem_watcher_hashes.json" in
  scripts_dir (_save_file_hashes E w).2
  = saved (scripts_dir w) (fault E OpWrite (scripts_path w name)) name
      (hashes_doc w) ∧
  file_hashes (_save_file_hashes E w).2 = file_hashes w.
Proof.
  unfold _save_file_hashes, try_except, bind, get, write_json, log, modify,
    saved, hashes_doc.
  destruct (scripts_dir w) as [sd|] eqn:Hsd;
    [destruct (fault E OpWrite _)|]; cbn [fst snd]; by rewrite ?Hsd.
Qed.

(** A scan that can list the folder rewrites the fingerprint file. *)
Lemma check_for_updates_saves (w : world) d :
  drop_dir w = Some d →
  let r := check_for_updates E w in
  let name := lit "filesystem_watcher_hashes.json" in
  scripts_dir r.2
  = saved (scripts_dir w) (fault E OpWrite (scripts_path w name)) name
      (hashes_doc r.2).
Proof.
  intros Hd r name. subst r.
  destruct (check_for_updates_then_save w d Hd) as (w1 & Hfr & _ & ->).
  destruct Hfr as (Hvp & Hdf & Hdd & Hsd & Htk). cbn [snd].
  destruct (save_file_hashes_writes w1) as [-> Hfh].
  unfold hashes_doc, scripts_path. by rewrite Hfh, Hsd, Hvp.
Qed.

(** X3.  Every item of a report describes a regular file of the
    drop folder that is neither hidden nor temporary and whose content
    could be read: the item carries the file's path, name, size in bytes,
    suffix and MD5 digest; its priority is one of [high], [medium], [low];
    its preview is at most 200 characters long and empty for a file whose
    suffix is not one of the text suffixes; the digest differs from what
    was stored for the path.  No two items have the same path. *)
Theorem report_describes_files (w : world) d :
  drop_dir w = Some d →
  ∃ new_files,
    (check_for_updates E w).1 = inl new_files ∧
    NoDup (file_path <$> new_files) ∧
    ∀ it, it ∈ new_files →
      ∃ data mt,
        d !! file_name it = Some (File data mt) ∧
        startswith (lit ".") (file_name it) = false ∧
        suffix (file_name it) ≠ lit ".tmp" ∧
        fault E OpRead (file_path it) = false ∧
        file_path it = drop_path w (file_name it) ∧
        file_size it = length data ∧
        file_type it = suffix (file_name it) ∧
        hash it = md5_hexdigest data ∧
        hash it ≠ [] ∧
        file_hashes w !! file_path it ≠ Some (hash it) ∧
        priority it ∈ [lit "high"; lit "medium"; lit "low"] ∧
        (length (content_preview it) ≤ 200)%nat ∧
        (suffix (file_name it) ∉ text_suffixes → content_preview it = []) ∧
        (suffix (file_name it) ∈ text_suffixes →
         content_preview it = take 200 (decode_ignore data)).
Proof.
  intros Hd.
  destruct (check_for_updates_scan E w d Hd) as (w1 & Hrun & _).
  rewrite Hrun. cbn [fst]. eexists. split; [reflexivity|].
  rewrite scan_items by apply NoDup_listing. cbn [fst snd app].
  split; [apply NoDup_hits, NoDup_listing|].
  intros it Hit.
  apply elem_of_hits_inv in Hit as (name & data & mt & Hin & Hch & ->).
  apply elem_of_listing in Hin. exists data, mt.
  cbn [file_path file_name file_size file_type hash priority content_preview
       entry_item].
  unfold changed, eligible, fingerprint in Hch.
  apply andb_true_iff in Hch as [Hch Hnew].
  apply andb_true_iff in Hch as [Hel Hne].
  apply negb_true_iff, orb_false_iff in Hel as [Hdot Htmp].
  apply bool_decide_eq_false in Htmp.
  apply negb_true_iff, bool_decide_eq_false in Hne.
  apply bool_decide_eq_true in Hnew.
  unfold fingerprint in *.
  destruct (fault E OpRead (joinpath (drop_folder w) name)) eqn:Hf; [done|].
  repeat (split; [done|]).
  split; [apply detect_priority_values|].
  split; [rewrite length_take; lia|].
  split; intros Hs.
  - by rewrite bool_decide_eq_false_2.
  - rewrite bool_decide_eq_true_2 by done. rewrite take_take. f_equal.
Qed.

(** X4.  After a scan the fingerprint dictionary holds the digest of
    every reported file under its path and is otherwise as before: no
    entry is ever removed, also not the entry of a file that has left the
    drop folder. *)
Theorem scan_updates_store (w : world) d :
  drop_dir w = Some d →
  ∃ new_files w',
    check_for_updates E w = (inl new_files, w') ∧
    (∀ it, it ∈ new_files → file_hashes w' !! file_path it = Some (hash it)) ∧
    (∀ key, key ∉ file_path <$> new_files →
            file_hashes w' !! key = file_hashes w !! key) ∧
    dom (file_hashes w) ⊆ dom (file_hashes w').
Proof.
  intros Hd.
  destruct (check_for_updates_scan E w d Hd) as (w1 & Hrun & Hfh & _).
  rewrite Hrun. eexists _, w1. split; [reflexivity|].
  rewrite Hfh. rewrite scan_items by apply NoDup_listing. cbn [fst snd app].
  assert (∀ it, it ∈ hits E (drop_folder w) (file_hashes w) (listing d) →
            (scan E (drop_folder w) (listing d) ([], file_hashes w)).2
              !! file_path it = Some (hash it)) as Hstored.
  { intros it Hit. apply scan_stored; [apply NoDup_listing|done]. }
  assert (∀ key,
            key ∉ file_path <$> hits E (drop_folder w) (file_hashes w) (listing d) →
            (scan E (drop_folder w) (listing d) ([], file_hashes w)).2 !! key
            = file_hashes w !! key) as Hkept.
  { intros key Hkey. apply scan_untouched; [apply NoDup_listing|].
    intros it Hit Heq. apply Hkey. apply list_elem_of_fmap. by exists it. }
  split; [done|]. split; [done|].
  intros key [h Hh]%elem_of_dom. apply elem_of_dom.
  destruct (decide (key ∈ file_path <$>
                      hits E (drop_folder w) (file_hashes w) (listing d)))
    as [Hin|Hnotin].
  - apply list_elem_of_fmap in Hin as (it & -> & Hit).
    rewrite (Hstored it Hit). done.
  - rewrite (Hkept key Hnotin), Hh. done.
Qed.

(** X5.  A scan that can list the drop folder ends by writing the
    whole fingerprint dictionary to [filesystem_watcher_hashes.json],
    whether or not it has reported anything; the write fails silently when
    the [scripts] directory is missing or the write is refused.  A scan
    that cannot list the folder reports nothing, logs one error, and
    leaves both the dictionary and the file as they were. *)
Theorem scan_persists_store (w : world) :
  let r := check_for_updates E w in
  let name := lit "filesystem_watcher_hashes.json" in
  (∀ d, drop_dir w = Some d →
     scripts_dir r.2
     = saved (scripts_dir w) (fault E OpWrite (scripts_path w name)) name
         (hashes_doc r.2)) ∧
  (drop_dir w = None →
     r.1 = inl [] ∧ file_hashes r.2 = file_hashes w ∧
     scripts_dir r.2 = scripts_dir w ∧
     ∃ msg, logger r.2 = logger w ++ [(ERROR, msg)]).
Proof.
  intros r name. split.
  - intros d Hd. by apply check_for_updates_saves with d.
  - intros Hd. subst r.
    unfold check_for_updates, try_except, bind, list_drop_folder.
    rewrite Hd. unfold log, modify, ret. cbn. eauto.
Qed.

End WithEnv.

(** The report on the sample drop folder. *)
Lemma report_describes_files_witness :
  ∃ new_files,
    (@check_for_updates Sample.latin1_only Sample.tagged_codec Sample.calm
       Sample.fresh_drop).1 = inl new_files ∧
    NoDup (file_path <$> new_files).
Proof.
  destruct (@report_describes_files Sample.latin1_only Sample.tagged_codec
              Sample.calm Sample.fresh_drop
              {[ lit "urgent_invoice.txt" := File (lit "please pay") 5 ]}
              eq_refl) as (new_files & Hrun & Hnd & _).
  exists new_files. split; [exact Hrun|exact Hnd].
Defined.

(** The digests of the files reported for the sample drop folder are
    stored under their paths. *)
Lemma scan_updates_store_witness :
  ∃ new_files w',
    @check_for_updates Sample.latin1_only Sample.tagged_codec Sample.calm
      Sample.fresh_drop = (inl new_files, w') ∧
    ∀ it, it ∈ new_files →
          Watcher.file_hashes w' !! file_path it = Some (hash it).
Proof.
  destruct (@scan_updates_store Sample.latin1_only Sample.tagged_codec
              Sample.calm Sample.fresh_drop
              {[ lit "urgent_invoice.txt" := File (lit "please pay") 5 ]}
              eq_refl) as (new_files & w' & Hrun & Hstored & _).
  exists new_files, w'. split; [exact Hrun|exact Hstored].
Defined.

(** The sample watcher has a [scripts] directory: after the scan it holds
    the fingerprint file. *)
Lemma scan_persists_store_witness :
  is_Some
    (Watcher.scripts_dir
       (@check_for_updates Sample.latin1_only Sample.tagged_codec Sample.calm
          Sample.fresh_drop).2
     ≫= (.!! lit "filesystem_watcher_hashes.json")).
Proof.
  destruct (@scan_persists_store Sample.latin1_only Sample.tagged_codec
              Sample.calm Sample.fresh_drop) as [Hsave _].
  rewrite (Hsave _ eq_refl). cbn. rewrite lookup_insert_eq. by eexists.
Defined.

End ReportFacts.

(** ** Saving and loading again *)

Module LoadFacts.
Import Loading Saved.

Lemma dict_get_missing (key : list Z) (kv : list (list Z * json)) :
  key ∉ kv.*1 → dict_get key kv = None.
Proof.
  induction kv as [|[k v] kv IH]; intros Hk; [done|].
  rewrite fmap_cons in Hk. apply not_elem_of_cons in Hk as [Hne Hk].
  cbn [dict_get fst snd]. rewrite (IH Hk).
  by rewrite bool_decide_eq_false_2.
Qed.

Lemma dict_get_member (key : list Z) (v : json) (kv : list (list Z * json)) :
  NoDup kv.*1 → (key, v) ∈ kv → dict_get key kv = Some v.
Proof.
  induction kv as [|[k x] kv IH]; intros Hnd Hin.
  - by apply elem_of_nil in Hin.
  - rewrite fmap_cons in Hnd. apply list.NoDup_cons in Hnd as [Hnotin Hnd].
    cbn [fst] in Hnotin. cbn [dict_get fst snd].
    apply elem_of_cons in Hin as [[= <- <-]|Hin].
    + rewrite (dict_get_missing key kv Hnotin).
      by rewrite bool_decide_eq_true_2.
    + by rewrite (IH Hnd Hin).
Qed.

(** A dictionary written member by member is read back member by
    member. *)
Lemma dict_get_map_to_list (m : gmap (list Z) (list Z)) (key : list Z) :
  dict_get key (prod_map id JStr <$> map_to_list m) = JStr <$> m !! key.
Proof.
  assert (NoDup (prod_map id JStr <$> map_to_list m).*1) as Hnd.
  { rewrite <- list_fmap_compose.
    rewrite (list_fmap_ext _ fst (map_to_list m));
      [apply NoDup_fst_map_to_list|by intros ? [] ?]. }
  destruct (m !! key) as [h|] eqn:Hm; cbn [fmap option_fmap option_map].
  - apply dict_get_member; [done|]. apply list_elem_of_fmap.
    exists (key, h). split; [done|]. by apply elem_of_map_to_list.
  - apply dict_get_missing. intros Hin.
    apply list_elem_of_fmap in Hin as ([k j] & -> & Hin).
    apply list_elem_of_fmap in Hin as ([k' h] & [= -> ->] & Hin).
    apply elem_of_map_to_list in Hin. cbn [fst] in Hm. congruence.
Qed.

Lemma set_of_list_strings (l : list (list Z)) :
  set_of_list (JStr <$> l) = inl (list_to_set (Some <$> l)).
Proof.
  induction l as [|s l IH]; [done|].
  rewrite !fmap_cons. cbn [set_of_list]. by rewrite IH.
Qed.

(** The set written by a save method is the set read back. *)
Lemma stored_set_saved (key : list Z) (X : gset (list Z)) (stamp : list Z) :
  key ≠ lit "last_updated" →
  stored_set key
    (JObj [(key, JList (JStr <$> elements X)); (lit "last_updated", JStr stamp)])
  = inl (set_map Some X).
Proof.
  intros Hkey. unfold stored_set. cbn [dict_get fst snd].
  rewrite bool_decide_eq_false_2 by done.
  rewrite bool_decide_eq_true_2 by done.
  cbn [py_set]. by rewrite set_of_list_strings.
Qed.

Lemma size_set_map_Some (X : gset (list Z)) :
  size (set_map Some X : items) = size X.
Proof.
  unfold size, set_size, set_map. cbn.
  rewrite elements_list_to_set.
  - by rewrite length_fmap.
  - apply NoDup_fmap; [by intros ?? [=]|apply NoDup_elements].
Qed.

Lemma load_json_inserted (d : gmap (list Z) payload) (j : json)
    (path name : list Z) :
  load_json (Some (<[name := Doc j]> d)) false path name = Some (inl j).
Proof. unfold load_json. cbn. by rewrite lookup_insert_eq. Qed.

Lemma load_json_no_dir (refused : bool) (path name : list Z) :
  load_json None refused path name = None.
Proof. reflexivity. Qed.

Section OfOrchestrator.
Import Orchestrator.

Lemma save_state_writes (E : env) (w : world) :
  let name := lit "orchestrator_state.json" in
  let w1 := (_save_state E w).2 in
  scripts_dir w1
  = saved (scripts_dir w) (fault E OpWrite (scripts_path w name)) name
      (orchestrator_state_doc E w) ∧
  vault_path w1 = vault_path w.
Proof.
  unfold _save_state, try_except, bind, now, get, log, modify, saved,
    orchestrator_state_doc, scripts_path.
  cbn [scripts_dir set_ticks vault_path fst snd].
  destruct (scripts_dir w) as [d|] eqn:Hd;
    [destruct (fault E OpWrite _)|]; cbn; by rewrite ?Hd.
Qed.

(** X6.  What [Orchestrator._save_state] writes,
    [_load_processed_files] reads back: after a save that was not refused,
    a load that is not refused yields exactly the saved set, whatever the
    attribute held before, and logs nothing.  When the [scripts] directory
    is missing the save has stored nothing, and the load leaves the
    attribute as it is. *)
Theorem processed_files_round_trip (E E' : env) (w : world) (current : items) :
  let name := lit "orchestrator_state.json" in
  let w1 := (_save_state E w).2 in
  (is_Some (scripts_dir w) →
   fault E OpWrite (scripts_path w name) = false →
   fault E' OpRead (scripts_path w name) = false →
   _load_processed_files E' current w1
   = (inl (set_map Some (processed_files w)), w1)) ∧
  (scripts_dir w = None →
   _load_processed_files E' current w1 = (inl current, w1)).
Proof.
  intros name w1. destruct (save_state_writes E w) as [Hsd Hvp].
  fold name w1 in Hsd, Hvp. split.
  - intros [d Hd] Hw Hr.
    unfold _load_processed_files, bind, get.
    unfold scripts_path, name in *. rewrite Hsd, Hvp, Hd, Hw, Hr. cbn [saved].
    rewrite load_json_inserted. unfold orchestrator_state_doc.
    by rewrite stored_set_saved.
  - intros Hd. unfold _load_processed_files, bind, get.
    by rewrite Hsd, Hd.
Qed.

End OfOrchestrator.

(** The sample vault has a [scripts] directory and an empty processed
    set. *)
Lemma processed_files_round_trip_witness :
  _load_processed_files Sample.calm {[None]}
    (Orchestrator._save_state Sample.calm Sample.three_records).2
  = (inl (set_map Some (Orchestrator.processed_files Sample.three_records)),
     (Orchestrator._save_state Sample.calm Sample.three_records).2).
Proof.
  destruct (processed_files_round_trip Sample.calm Sample.calm
              Sample.three_records {[None]}) as [Hload _].
  apply Hload; [by eexists|reflexivity..].
Defined.

Section OfWatcher.
Import Watcher.
Context `{Unicode} `{Codec}.

Lemma watcher_save_state_writes (E : env) (w : world) :
  let name := lit "FileSystemWatcher_state.json" in
  let w1 := (_save_state E w).2 in
  scripts_dir w1
  = saved (scripts_dir w) (fault E OpWrite (scripts_path w name)) name
      (watcher_state_doc E w) ∧
  vault_path w1 = vault_path w ∧ logger w1 = logger w ++
    (if bool_decide (save_failed (scripts_dir w)
                       (fault E OpWrite (scripts_path w name)) = true)
     then [(ERROR, lit "Could not save state: "
                     ++ str_exn (OSError (scripts_path w name)))]
     else []).
Proof.
  unfold _save_state, try_except, bind, now, get, write_json, log, modify,
    saved, save_failed, watcher_state_doc, scripts_path.
  cbn [scripts_dir set_ticks vault_path logger fst snd].
  destruct (scripts_dir w) as [d|] eqn:Hd;
    [destruct (fault E OpWrite _)|]; cbn; rewrite ?Hd, ?app_nil_r; done.
Qed.

(** X7.  What [BaseWatcher._save_state] writes,
    [_load_processed_ids] reads back: after a save that was not refused, a
    load that is not refused yields exactly the saved set and logs its
    size.  When the [scripts] directory is missing the save has stored
    nothing, and the load yields the empty set. *)
Theorem processed_ids_round_trip (E E' : env) (w : world) :
  let name := lit "FileSystemWatcher_state.json" in
  let w1 := (_save_state E w).2 in
  (is_Some (scripts_dir w) →
   fault E OpWrite (scripts_path w name) = false →
   fault E' OpRead (scripts_path w name) = false →
   _load_processed_ids E' w1
   = (inl (set_map Some (processed_ids w)),
      set_logger
        (logger w1 ++ [(INFO, lit "Loaded "
                                ++ str_of_nat (size (processed_ids w))
                                ++ lit " previously processed IDs")]) w1)) ∧
  (scripts_dir w = None → (_load_processed_ids E' w1).1 = inl ∅).
Proof.
  intros name w1. destruct (watcher_save_state_writes E w) as (Hsd & Hvp & _).
  fold name w1 in Hsd, Hvp. split.
  - intros [d Hd] Hw Hr.
    unfold _load_processed_ids, bind, get.
    unfold scripts_path, name in *. rewrite Hsd, Hvp, Hd, Hw, Hr. cbn [saved].
    rewrite load_json_inserted. unfold watcher_state_doc.
    rewrite stored_set_saved by done. unfold log, modify, ret.
    by rewrite size_set_map_Some.
  - intros Hd. unfold _load_processed_ids, bind, get.
    by rewrite Hsd, Hd.
Qed.

Lemma load_file_hashes_saved (E' : env) (w : world) (current : json)
    (d : gmap (list Z) payload) (j : json) (n : nat) :
  let name := lit "filesystem_watcher_hashes.json" in
  scripts_dir w = Some (<[name := Doc j]> d) →
  fault E' OpRead (scripts_path w name) = false →
  py_len j = inl n →
  (_load_file_hashes E' current w).1 = inl j.
Proof.
  intros name Hsd Hr Hn. unfold _load_file_hashes, bind, get.
  fold name. rewrite Hsd, Hr, load_json_inserted, Hn. reflexivity.
Qed.

(** X8.  Fingerprints survive a restart.  After a scan that could
    list the drop folder and whose final write was not refused,
    [_load_file_hashes] yields a dictionary in which every path has the
    digest that the scan left in memory, and no other path has one. *)
Theorem fingerprints_survive_restart (E E' : env) (w : world) (current : json) d sd :
  let name := lit "filesystem_watcher_hashes.json" in
  let w1 := (check_for_updates E w).2 in
  drop_dir w = Some d →
  scripts_dir w = Some sd →
  fault E OpWrite (scripts_path w name) = false →
  fault E' OpRead (scripts_path w name) = false →
  ∃ members,
    (_load_file_hashes E' current w1).1 = inl (JObj members) ∧
    ∀ path, dict_get path members = JStr <$> file_hashes w1 !! path.
Proof.
  intros name w1 Hd Hsd Hw Hr.
  pose proof (ReportFacts.check_for_updates_saves E w d Hd) as Hsaved.
  cbn zeta in Hsaved. fold name w1 in Hsaved.
  rewrite Hsd, Hw in Hsaved. cbn [saved] in Hsaved.
  assert (vault_path w1 = vault_path w) as Hvp.
  { subst w1. destruct (ScanFacts.check_for_updates_scan E w d Hd)
      as (w' & -> & _ & _ & _ & Hvp & _). done. }
  exists (prod_map id JStr <$> map_to_list (file_hashes w1)). split.
  - eapply load_file_hashes_saved; [exact Hsaved| |reflexivity].
    unfold scripts_path in *. by rewrite Hvp.
  - apply dict_get_map_to_list.
Qed.

End OfWatcher.

Lemma processed_ids_round_trip_witness :
  (_load_processed_ids Sample.calm
     (Watcher._save_state Sample.calm Sample.fresh_drop).2).1
  = inl (set_map Some (Watcher.processed_ids Sample.fresh_drop)).
Proof.
  destruct (processed_ids_round_trip Sample.calm Sample.calm Sample.fresh_drop)
    as [Hload _].
  rewrite Hload; [reflexivity|by eexists|reflexivity..].
Defined.

Lemma fingerprints_survive_restart_witness :
  ∃ members,
    (_load_file_hashes Sample.calm JNull
       (@Watcher.check_for_updates Sample.latin1_only Sample.tagged_codec
          Sample.calm Sample.fresh_drop).2).1 = inl (JObj members) ∧
    dict_get (lit "/vault/Drop_Folder/urgent_invoice.txt") members
    = Some (JStr (lit "md5:please pay")).
Proof.
  destruct (@fingerprints_survive_restart Sample.latin1_only Sample.tagged_codec
              Sample.calm Sample.calm Sample.fresh_drop JNull
              {[ lit "urgent_invoice.txt" := File (lit "please pay") 5 ]} ∅
              eq_refl eq_refl eq_refl eq_refl) as (members & Hload & Hget).
  exists members. split; [exact Hload|]. rewrite Hget. vm_compute. reflexivity.
Defined.

End LoadFacts.

(** ** More about the orchestrator *)

Module OrchestratorFacts.
Import Orchestrator PyFacts DashboardFacts LogFacts CycleFacts Listing.

(** *** Listings are sorted *)

Lemma insert_by_mtime_Forall (P : list Z * node → Prop) x l :
  P x → Forall P l → Forall P (insert_by_mtime x l).
Proof.
  intros Hx. induction l as [|y l IH]; intros Hl; cbn [insert_by_mtime].
  - by repeat constructor.
  - apply List.Forall_cons_iff in Hl as [Hy Hl].
    destruct (st_mtime x.2 <=? st_mtime y.2); repeat constructor; auto.
Qed.

Lemma insert_by_mtime_sorted x l :
  oldest_first l → oldest_first (insert_by_mtime x l).
Proof.
  induction l as [|y l IH]; intros Hl; cbn [insert_by_mtime].
  - by split.
  - destruct Hl as [Hy Hl].
    destruct (Z.leb_spec (st_mtime x.2) (st_mtime y.2)) as [Hle|Hgt].
    + split; [|by split]. constructor; [done|].
      eapply List.Forall_impl; [|exact Hy]. cbn. intros a Ha. lia.
    + split; [|by apply IH].
      apply insert_by_mtime_Forall; [lia|done].
Qed.

Lemma sorted_by_mtime_sorted l : oldest_first (sorted_by_mtime l).
Proof.
  induction l as [|x l IH]; [done|]. unfold sorted_by_mtime. cbn [foldr].
  by apply insert_by_mtime_sorted.
Qed.

Lemma oldest_first_lookup l i j a b :
  oldest_first l → (i < j)%nat → l !! i = Some a → l !! j = Some b →
  st_mtime a.2 ≤ st_mtime b.2.
Proof.
  revert i j. induction l as [|x l IH]; intros i j Hs Hij Hi Hj; [done|].
  destruct Hs as [Hx Hl].
  destruct i as [|i], j as [|j]; try lia.
  - cbn in Hi, Hj. injection Hi as <-. rewrite Forall_forall in Hx.
    apply Hx. apply list_elem_of_In. by eapply list_elem_of_lookup_2.
  - cbn in Hi, Hj. apply (IH i j); [done|lia|done..].
Qed.

Section WithEnv.
Context (E : env).

Lemma md_files_by_mtime_sorted (f : folder) (w : world) :
  fault E OpList (folder_path w f) = false →
  ∃ files,
    md_files_by_mtime E f w = (inl files.*1, w) ∧
    files ≡ₚ filter (λ e, is_md_file e = true) (map_to_list (folders w f)) ∧
    ∀ i j a b, (i < j)%nat → files !! i = Some a → files !! j = Some b →
               st_mtime a.2 ≤ st_mtime b.2.
Proof.
  intros Hl. eexists. split; [|split].
  - unfold md_files_by_mtime, iterdir, bind, ret. rewrite Hl. reflexivity.
  - apply sorted_by_mtime_perm.
  - intros i j a b. apply oldest_first_lookup, sorted_by_mtime_sorted.
Qed.

(** X9.  [get_pending_files] and [get_approved_files] return the
    names of the [.md] files of their folder, each once, the oldest first
    by modification time.  When the folder cannot be listed they return
    the empty list and log an error. *)
Theorem listings_oldest_first (w : world) :
  (fault E OpList (folder_path w Needs_Action) = false →
   ∃ entries,
     (get_pending_files E w).1 = inl entries.*1 ∧ NoDup entries.*1 ∧
     entries ≡ₚ filter (λ e, is_md_file e = true)
                  (map_to_list (folders w Needs_Action)) ∧
     ∀ i j a b, (i < j)%nat → entries !! i = Some a → entries !! j = Some b →
                st_mtime a.2 ≤ st_mtime b.2) ∧
  (fault E OpList (folder_path w Approved) = false →
   ∃ entries,
     (get_approved_files E w).1 = inl entries.*1 ∧ NoDup entries.*1 ∧
     entries ≡ₚ filter (λ e, is_md_file e = true)
                  (map_to_list (folders w Approved)) ∧
     ∀ i j a b, (i < j)%nat → entries !! i = Some a → entries !! j = Some b →
                st_mtime a.2 ≤ st_mtime b.2) ∧
  (fault E OpList (folder_path w Needs_Action) = true →
   (get_pending_files E w).1 = inl [] ∧
   ∃ msg, logger (get_pending_files E w).2 = logger w ++ [(ERROR, msg)]) ∧
  (fault E OpList (folder_path w Approved) = true →
   (get_approved_files E w).1 = inl [] ∧
   ∃ msg, logger (get_approved_files E w).2 = logger w ++ [(ERROR, msg)]).
Proof.
  assert (∀ f, fault E OpList (folder_path w f) = false →
            ∃ entries,
              md_files_by_mtime E f w = (inl entries.*1, w) ∧ NoDup entries.*1 ∧
              entries ≡ₚ filter (λ e, is_md_file e = true)
                           (map_to_list (folders w f)) ∧
              ∀ i j a b, (i < j)%nat → entries !! i = Some a →
                         entries !! j = Some b →
                         st_mtime a.2 ≤ st_mtime b.2) as Hlist.
  { intros f Hl.
    destruct (md_files_by_mtime_sorted f w Hl) as (entries & Hmd & Hperm & Hsorted).
    exists entries. split; [done|]. split; [|by split].
    rewrite Hperm.
    eapply sublist_NoDup; [apply (NoDup_fst_map_to_list (folders w f))|].
    apply fmap_sublist, sublist_filter. }
  split; [|split; [|split]].
  - intros Hl. destruct (Hlist _ Hl) as (entries & Hmd & Hrest).
    exists entries. unfold get_pending_files, try_except. by rewrite Hmd.
  - intros Hl. destruct (Hlist _ Hl) as (entries & Hmd & Hrest).
    exists entries. unfold get_approved_files, try_except. by rewrite Hmd.
  - intros Hl. unfold get_pending_files, md_files_by_mtime, iterdir. run_monad.
    rewrite Hl. cbn. eauto.
  - intros Hl. unfold get_approved_files, md_files_by_mtime, iterdir. run_monad.
    rewrite Hl. cbn. eauto.
Qed.

End WithEnv.

(** The folders of the sample vault can be listed. *)
Lemma listings_oldest_first_witness :
  ∃ entries : list (list Z * node),
    (get_pending_files Sample.calm Sample.three_records).1 = inl entries.*1 ∧
    NoDup entries.*1.
Proof.
  destruct (listings_oldest_first Sample.calm Sample.three_records)
    as [Hsorted _].
  destruct (Hsorted eq_refl) as (entries & Hrun & Hnd & _).
  exists entries. split; [exact Hrun|exact Hnd].
Defined.

End OrchestratorFacts.

(** ** The audit trail *)

Module AuditFacts.
Import Orchestrator PyFacts DashboardFacts LogFacts CycleFacts.

(** Lookups in updated folders. *)
Ltac lookups :=
  repeat progress
    (rewrite ?fn_lookup_insert, ?fn_lookup_insert_ne
       by first [done | by apply not_eq_sym];
     rewrite ?lookup_insert_eq, ?lookup_delete_eq;
     rewrite ?lookup_insert_ne, ?lookup_delete_ne
       by first [done | by apply not_eq_sym]).

Section WithEnv.
Context (E : env).

(** Replace a call of [_log_action] by its result. *)
Ltac log_step :=
  match goal with
  | |- context [_log_action E ?a ?d ?r ?w0] =>
    let lg := fresh "lg" in
    let Hlg := fresh "Hlg" in
    destruct (log_action_run E a d r w0) as [lg Hlg];
    rewrite Hlg; clear Hlg; fields
  end.

(** The day's log after an entry has been added to a log in good order. *)
Lemma logs_after_good (w : world) (name : list Z) (entry : json) :
  fault E OpRead (log_path w name) = false →
  fault E OpWrite (log_path w name) = false →
  (logs_dir w !! name = None →
   logs_after E w name entry = <[name := Doc (JList [entry])]> (logs_dir w)) ∧
  (∀ l, logs_dir w !! name = Some (Doc (JList l)) →
   logs_after E w name entry = <[name := Doc (JList (l ++ [entry]))]> (logs_dir w)).
Proof.
  intros Hr Hw. unfold logs_after, log_outcome. rewrite Hr, Hw.
  split; [by intros ->|by intros l ->].
Qed.

(** X10.  Entries accumulate in the order of the calls.  Two
    calls of [_log_action] on the same day leave the day's entries
    followed by the first new entry and then the second; when midnight
    lies between the two calls, the second entry opens the log of the new
    day and the log of the old day keeps the first. *)
Theorem log_entries_accumulate (w : world)
    (a1 r1 a2 r2 : list Z) (d1 d2 : list (list Z * list Z)) :
  let day1 := fmt_date (clock E (ticks w)) ++ lit ".json" in
  let day2 := fmt_date (clock E (2 + ticks w)) ++ lit ".json" in
  let e1 := log_entry (isoformat (clock E (1 + ticks w))) a1 d1 r1 in
  let e2 := log_entry (isoformat (clock E (3 + ticks w))) a2 d2 r2 in
  let w2 := (_log_action E a2 d2 r2 (_log_action E a1 d1 r1 w).2).2 in
  fault E OpRead (log_path w day1) = false →
  fault E OpWrite (log_path w day1) = false →
  fault E OpRead (log_path w day2) = false →
  fault E OpWrite (log_path w day2) = false →
  (day2 = day1 →
   (logs_dir w !! day1 = None →
    logs_dir w2 !! day1 = Some (Doc (JList [e1; e2]))) ∧
   (∀ l, logs_dir w !! day1 = Some (Doc (JList l)) →
         logs_dir w2 !! day1 = Some (Doc (JList (l ++ [e1; e2]))))) ∧
  (day2 ≠ day1 →
   logs_dir w !! day2 = None →
   ∀ l, logs_dir w !! day1 = Some (Doc (JList l)) →
        logs_dir w2 !! day1 = Some (Doc (JList (l ++ [e1]))) ∧
        logs_dir w2 !! day2 = Some (Doc (JList [e2]))).
Proof.
  intros day1 day2 e1 e2 w2 Hr1 Hw1 Hr2 Hw2.
  destruct (log_action_run E a1 d1 r1 w) as [lg1 Hrun1].
  change (_log_action E a1 d1 r1 w =
          (inl tt, set_logger lg1 (set_logs_dir (logs_after E w day1 e1)
                                     (set_ticks (2 + ticks w) w)))) in Hrun1.
  remember (set_logger lg1 (set_logs_dir (logs_after E w day1 e1)
                              (set_ticks (2 + ticks w) w))) as w1 eqn:Hdef1.
  destruct (log_action_run E a2 d2 r2 w1) as [lg2 Hrun2].
  assert (ticks w1 = (2 + ticks w)%nat) as Ht by (by rewrite Hdef1).
  assert (log_path w1 day2 = log_path w day2) as Hp by (by rewrite Hdef1).
  assert (logs_dir w1 = logs_after E w day1 e1) as Hl1 by (by rewrite Hdef1).
  assert (logs_dir w2 = logs_after E w1 day2 e2) as ->.
  { subst w2. rewrite Hrun1. cbn [snd]. rewrite Hrun2. cbn [snd].
    cbn [logs_dir set_logger set_logs_dir]. by rewrite Ht. }
  destruct (logs_after_good w day1 e1 Hr1 Hw1) as [Hnew1 Happ1].
  destruct (logs_after_good w1 day2 e2) as [Hnew2 Happ2];
    [by rewrite Hp..|].
  split.
  - intros Hsame. rewrite Hsame in *. split.
    + intros Hnone. rewrite (Happ2 [e1]), lookup_insert_eq; [done|].
      by rewrite Hl1, (Hnew1 Hnone), lookup_insert_eq.
    + intros l Hl. rewrite (Happ2 (l ++ [e1])), lookup_insert_eq.
      * by rewrite <- app_assoc.
      * by rewrite Hl1, (Happ1 l Hl), lookup_insert_eq.
  - intros Hne Hnone l Hl.
    rewrite Hnew2.
    + rewrite lookup_insert_ne, lookup_insert_eq by done.
      by rewrite Hl1, (Happ1 l Hl), lookup_insert_eq.
    + by rewrite Hl1, (Happ1 l Hl), lookup_insert_ne.
Qed.

(** [process_with_claude] with its audit entry. *)
Lemma process_with_claude_traced (name : list Z) (w : world) :
  let k := if tool_missing E then ticks w else (2 + ticks w)%nat in
  let result :=
    if tool_missing E then lit "skipped_claude_not_found"
    else if succeeds E w name then lit "success" else lit "error" in
  ∃ details w',
    process_with_claude E name w = (inl (succeeds E w name), w') ∧
    logs_dir w'
    = logs_after E w (fmt_date (clock E k) ++ lit ".json")
        (log_entry (isoformat (clock E (S k))) (lit "claude_process")
           ((lit "file", file_path w Needs_Action name) :: details) result) ∧
    (tool_missing E = true → details = []) ∧
    (succeeds E w name = true →
     details = [(lit "plan", file_path w Plans (plan_name E w name))]) ∧
    (tool_missing E = false → succeeds E w name = false →
     ∃ msg, details = [(lit "error", msg)]).
Proof.
  unfold process_with_claude, claude_missing, succeeds, tool_missing,
    plan_written, readable, plan_name, write_text, read_text.
  run_monad.
  destruct (which_rc E) as [rc|]; [case_bool_decide|]; fields;
    repeat (first
      [ log_step
      | rewrite fn_lookup_insert_ne by done
      | match goal with
        | H : ?X = _ |- context [match ?X with _ => _ end] => rewrite H
        | H : ?X = _ |- context [if ?X then _ else _] => rewrite H
        | |- context [match folders w ?f !! ?n with _ => _ end] =>
          destruct (folders w f !! n) as [[? ?|?]|] eqn:?
        | |- context [if fault E ?o ?p then _ else _] =>
          destruct (fault E o p) eqn:?
        | |- context [if contains ?a ?b then _ else _] =>
          destruct (contains a b) eqn:?
        end ]; fields);
    eexists _, _; (split; [reflexivity|]); fields;
    (split; [unfold logs_after, log_outcome; fields; reflexivity|]);
    repeat split; intros; try done; eauto.
Qed.


(** X11.  Every call of [process_with_claude] tries to add one entry
    of the type [claude_process] to the daily log, and the entry tells how
    the call ended.  Its result is [success] exactly when the call returns
    [True], and then its parameters name the action file and the plan; it
    is [skipped_claude_not_found] exactly when [which] reports the command
    missing, and then the parameters name the action file only; in every
    other case it is [error] and the parameters carry the text of the
    exception.  When the day's log is a readable array and the write is
    not refused, the entry is the new last element of that array. *)
Theorem processing_is_audited (name : list Z) (w : world) :
  let r := process_with_claude E name w in
  let k := if tool_missing E then ticks w else (2 + ticks w)%nat in
  let day := fmt_date (clock E k) ++ lit ".json" in
  ∃ details result,
    let entry :=
      log_entry (isoformat (clock E (S k))) (lit "claude_process")
        ((lit "file", file_path w Needs_Action name) :: details) result in
    logs_dir r.2 = logs_after E w day entry ∧
    (∀ l, logs_dir w !! day = Some (Doc (JList l)) →
          fault E OpRead (log_path w day) = false →
          fault E OpWrite (log_path w day) = false →
          logs_dir r.2 = <[day := Doc (JList (l ++ [entry]))]> (logs_dir w)) ∧
    (result = lit "success" ↔ r.1 = inl true) ∧
    (result = lit "skipped_claude_not_found" ↔ tool_missing E = true) ∧
    (result = lit "error" ↔ tool_missing E = false ∧ r.1 = inl false) ∧
    (result = lit "success" →
     details = [(lit "plan", file_path w Plans (plan_name E w name))]) ∧
    (result = lit "skipped_claude_not_found" → details = []) ∧
    (result = lit "error" → ∃ msg, details = [(lit "error", msg)]).
Proof.
  intros r k day.
  destruct (process_with_claude_traced name w)
    as (details & w' & Hrun & Hlogs & Hmiss & Hok & Herr).
  fold k in Hlogs. fold day in Hlogs. cbv zeta in Hlogs.
  exists details. eexists. cbv zeta.
  subst r. rewrite Hrun. cbn [fst snd].
  split; [exact Hlogs|]. split.
  { intros l Hl Hr Hw. rewrite Hlogs.
    by apply (logs_after_good w day _ Hr Hw). }
  unfold succeeds in *.
  destruct (tool_missing E) eqn:Hm; cbn [negb andb] in *.
  - repeat split; intros; destruct_and?; try done; auto.
  - destruct (plan_written E w name && _) eqn:Hs;
      repeat split; intros; destruct_and?; try done; auto.
Qed.

(** The plan document names its source and its state. *)
Lemma plan_content_fields (created name : list Z) :
  contains (lit "status: in_progress") (plan_content created name) = true ∧
  contains (lit "source_file: " ++ name) (plan_content created name) = true ∧
  contains (lit "created: " ++ created) (plan_content created name) = true.
Proof.
  unfold plan_content. split; [|split]; apply contains_spec.
  - eexists (lit "---
created: " ++ created ++ [10]), _.
    rewrite <- !app_assoc. reflexivity.
  - eexists (lit "---
created: " ++ created ++ lit "
status: in_progress
"), _.
    rewrite <- !app_assoc. reflexivity.
  - eexists (lit "---
"), _. reflexivity.
Qed.

(** X12.  When the tool is not reported missing and the plan can be
    written, [process_with_claude] leaves a plan behind whether or not it
    goes on to succeed: afterwards the Plans folder holds, under a name of
    the form [PLAN_<stem>_<stamp>.md], a document that is in the state
    [in_progress] and names the action file as its source, and every other
    plan is as it was.  When the tool is reported missing, the call
    changes no folder. *)
Theorem plan_left_behind (name : list Z) (w : world) :
  let w' := (process_with_claude E name w).2 in
  (tool_missing E = false → plan_written E w name = true →
   folders w' Plans !! plan_name E w name
   = Some (File (plan_doc E w name) (timestamp (clock E (2 + ticks w)))) ∧
   (∀ other, other ≠ plan_name E w name →
             folders w' Plans !! other = folders w Plans !! other) ∧
   startswith (lit "PLAN_" ++ stem name ++ lit "_") (plan_name E w name) = true ∧
   suffix (plan_name E w name) = lit ".md" ∧
   contains (lit "status: in_progress") (plan_doc E w name) = true ∧
   contains (lit "source_file: " ++ name) (plan_doc E w name) = true) ∧
  (tool_missing E = true → folders w' = folders w).
Proof.
  intros w'. subst w'.
  destruct (process_with_claude_run E name w) as (w' & Hrun & _ & Hf & _).
  rewrite Hrun. cbn [snd]. rewrite Hf. unfold folders_after. split.
  - intros -> ->. cbn [negb andb].
    set (plans := <[plan_name E w name := _]> (folders w Plans)).
    assert ((match readable E w name with
             | Some content =>
               if contains (lit "status: pending") content
                  && negb (fault E OpWrite (file_path w Needs_Action name))
               then <[Needs_Action :=
                        <[name := File (mark content)
                                    (timestamp (clock E (2 + ticks w)))]>
                          (folders w Needs_Action)]>
                      (<[Plans := plans]> (folders w))
               else <[Plans := plans]> (folders w)
             | None => <[Plans := plans]> (folders w)
             end) Plans = plans) as ->.
    { destruct (readable E w name) as [c|]; [destruct (_ && _)|]; by lookups. }
    subst plans.
    split; [by lookups|]. split; [intros; by lookups|].
    destruct (plan_content_fields (isoformat (clock E (S (ticks w)))) name)
      as (Hstate & Hsource & _).
    split; [|split; [|by split]].
    + apply startswith_spec. eexists. unfold plan_name.
      by rewrite <- !app_assoc.
    + unfold plan_name. rewrite !app_assoc. apply NameFacts.suffix_md.
      rewrite <- !app_assoc. done.
  - by intros ->.
Qed.



End WithEnv.

(** Two more entries on the day of the sample log. *)
Lemma log_entries_accumulate_witness :
  ∃ old e1 e2,
    logs_dir
      (_log_action Sample.calm (lit "move_to_done") [] (lit "success")
         (_log_action Sample.calm (lit "claude_process") [] (lit "success")
            Sample.with_log).2).2
      !! lit "2026-11-03.json"
    = Some (Doc (JList ([old] ++ [e1; e2]))).
Proof.
  destruct (log_entries_accumulate Sample.calm Sample.with_log
              (lit "claude_process") (lit "success")
              (lit "move_to_done") (lit "success") [] []
              eq_refl eq_refl eq_refl eq_refl) as [Hsame _].
  destruct (Hsame eq_refl) as [_ Happ].
  eexists _, _, _. apply (Happ [_]). reflexivity.
Defined.

(** A plan for the first record of the sample vault. *)
Lemma plan_left_behind_witness :
  folders (process_with_claude Sample.calm (lit "a.md") Sample.three_records).2
    Plans !! lit "PLAN_a_20261103_090507.md"
  = Some (File (plan_doc Sample.calm Sample.three_records (lit "a.md"))
            1793696707).
Proof.
  destruct (plan_left_behind Sample.calm (lit "a.md") Sample.three_records)
    as [Hplan _].
  destruct (Hplan eq_refl eq_refl) as [Hthere _]. exact Hthere.
Defined.


End AuditFacts.

(** ** One pass of the orchestrator, folder by folder *)

Module PassFacts.
Import Orchestrator Frames PyFacts DashboardFacts CycleFacts RenderFacts.

Ltac lookups :=
  repeat progress
    (rewrite ?fn_lookup_insert, ?fn_lookup_insert_ne
       by first [done | by apply not_eq_sym];
     rewrite ?lookup_insert_eq, ?lookup_delete_eq;
     rewrite ?lookup_insert_ne, ?lookup_delete_ne
       by first [done | by apply not_eq_sym]).

Lemma untouched_refl (w : world) : untouched w w.
Proof. unfold untouched. by repeat split. Qed.

Lemma untouched_trans (w1 w2 w3 : world) :
  untouched w1 w2 → untouched w2 w3 → untouched w1 w3.
Proof.
  unfold untouched. intros (?&?&?&?&?&?) (?&?&?&?&?&?).
  repeat split; congruence.
Qed.

Lemma untouched_listed (E : env) (w w' : world) (f : folder) :
  untouched w w' → listed E w' f = listed E w f.
Proof. intros (Hvp & _ & Hf & _). apply listed_ext; [done|by rewrite Hf]. Qed.

Lemma names_kept_refl (w : world) : names_kept w w.
Proof. unfold names_kept. repeat split; auto. Qed.

Lemma names_kept_trans (w1 w2 w3 : world) :
  names_kept w1 w2 → names_kept w2 w3 → names_kept w1 w3.
Proof.
  intros (Hi1 & Hr1 & Hn1 & Hp1 & Hd1 & Ha1 & Hm1)
         (Hi2 & Hr2 & Hn2 & Hp2 & Hd2 & Ha2 & Hm2).
  unfold names_kept. split; [congruence|]. split; [congruence|].
  split; [intros m; by rewrite Hn2|]. split; [auto|]. split; [auto|].
  split; [auto|]. intros m Hm.
  destruct (Hm1 m Hm) as [Ha|Hd]; [|right; auto].
  apply Hm2, Ha.
Qed.

Lemma same_folders_kept (w w' : world) :
  folders w' = folders w → names_kept w w'.
Proof. intros Hf. unfold names_kept. rewrite Hf. repeat split; auto. Qed.

Section WithEnv.
Context (E : env).

(** Processing one pending file. *)
Lemma process_pending_kept (name : list Z) (w : world) :
  ∃ w', process_pending E name w = (inl tt, w') ∧ names_kept w w'.
Proof.
  destruct (process_pending_step E name w) as (w' & Hrun & Hstep & _).
  destruct (process_pending_run E name w) as (w'' & Hrun' & _ & Hf & _).
  rewrite Hrun in Hrun'. injection Hrun' as <-.
  exists w'. split; [done|].
  destruct Hstep as (_ & _ & Hframe & Hshape).
  unfold names_kept.
  rewrite (Hframe Inbox), (Hframe Rejected), (Hframe Done), (Hframe Approved)
    by done.
  split; [done|]. split; [done|]. split; [done|].
  split; [|by repeat split; auto].
  intros m Hm. rewrite Hf. case_bool_decide; [done|].
  unfold folders_after.
  destruct (negb (tool_missing E) && plan_written E w name); [|done].
  destruct (decide (m = plan_name E w name)) as [->|Hne];
    repeat case_match; lookups; eauto.
Qed.

(** Moving one approved file. *)
Lemma move_to_done_kept (name : list Z) (w : world) :
  ∃ w', move_to_done E Approved name w = (inl tt, w') ∧ names_kept w w'.
Proof.
  destruct (move_to_done_run E Approved name w) as (w' & Hrun & _ & Hf & _).
  exists w'. split; [done|]. unfold names_kept. rewrite Hf.
  rewrite (moved_frame E w name Inbox), (moved_frame E w name Rejected),
    (moved_frame E w name Needs_Action), (moved_frame E w name Plans) by done.
  split; [done|]. split; [done|]. split; [done|]. split; [done|].
  unfold folders_moved.
  destruct (folders w Approved !! name) as [n|] eqn:Hn;
    [|by repeat split; auto].
  destruct (fault E OpMove _); [by repeat split; auto|].
  split; [|split].
  - intros m Hm. destruct (decide (m = name)) as [->|Hne];
      repeat case_match; lookups; eauto.
  - intros m n'. destruct (decide (m = name)) as [->|Hne];
      repeat case_match; lookups; done.
  - intros m Hm. destruct (decide (m = name)) as [->|Hne].
    + right. repeat case_match; lookups; eauto.
    + left. repeat case_match; by lookups.
Qed.

Lemma loop_kept {A} (l : list A) (body : A → M world unit) (w : world) :
  (∀ x w0, ∃ w1, body x w0 = (inl tt, w1) ∧ names_kept w0 w1) →
  ∃ w', for_each l body w = (inl tt, w') ∧ names_kept w w'.
Proof.
  intros Hbody.
  apply (for_each_keeps (λ w0, names_kept w w0)); [|apply names_kept_refl].
  intros x w0 _ Hk. destruct (Hbody x w0) as (w1 & Hrun & Hk1).
  exists w1. split; [done|]. by eapply names_kept_trans.
Qed.

(** *** The steps of a pass that change no folder *)

Lemma get_pending_files_untouched (w : world) :
  ∃ w', get_pending_files E w = (inl (listed E w Needs_Action), w')
        ∧ untouched w w'.
Proof.
  unfold get_pending_files, md_files_by_mtime, iterdir, listed, md_names.
  run_monad. destruct (fault E OpList _); eexists; by repeat split.
Qed.

Lemma get_approved_files_untouched (w : world) :
  ∃ w', get_approved_files E w = (inl (listed E w Approved), w')
        ∧ untouched w w'.
Proof.
  unfold get_approved_files, md_files_by_mtime, iterdir, listed, md_names.
  run_monad. destruct (fault E OpList _); eexists; by repeat split.
Qed.

Lemma save_state_untouched (w : world) :
  ∃ w', _save_state E w = (inl tt, w') ∧ untouched w w'.
Proof.
  unfold _save_state. run_monad.
  destruct (scripts_dir w); [destruct (fault E OpWrite _)|];
    eexists; by repeat split.
Qed.

(** Files that are in the processed set are passed over. *)
Lemma for_each_skipped (l : list (list Z)) (w : world) :
  (∀ name, name ∈ l → file_path w Needs_Action name ∈ processed_files w) →
  for_each l (process_pending E) w = (inl tt, w).
Proof.
  induction l as [|name l IH]; intros Hl; [done|].
  cbn [for_each]. unfold bind at 1. unfold process_pending at 1.
  unfold bind at 1. unfold get at 1.
  rewrite bool_decide_eq_true_2 by (apply Hl; by left).
  unfold ret at 1. apply IH. intros m Hm. apply Hl. by right.
Qed.

(** X14.  A pass with nothing to do changes neither the folders nor
    the processed set nor the daily logs.  When every file that the pass
    lists in Needs_Action is in the processed set and it lists no file in
    Approved, it calls neither [process_with_claude] nor [move_to_done]:
    it only renders the dashboard, as [update_dashboard] alone would, and
    saves the state. *)
Theorem idle_pass (w : world) :
  (∀ name, name ∈ listed E w Needs_Action →
           file_path w Needs_Action name ∈ processed_files w) →
  listed E w Approved = [] →
  let w' := after_cycle E w in
  folders w' = folders w ∧ processed_files w' = processed_files w ∧
  logs_dir w' = logs_dir w ∧
  vault_path w' = vault_path w ∧ running w' = running w ∧
  dashboard_file w' = dashboard_file (update_dashboard E w).2.
Proof.
  intros Hdone Hnone w'. subst w'. unfold after_cycle.
  destruct (update_dashboard_outcome E w) as (entry & Hdash & _).
  set (wa := set_logger _ _) in Hdash.
  assert (vault_path wa = vault_path w ∧ running wa = running w ∧
          folders wa = folders w ∧ processed_files wa = processed_files w ∧
          logs_dir wa = logs_dir w) as (Hvp & Hrn & Hfo & Hpr & Hlo).
  { subst wa. destruct (dashboard_file w);
      [destruct (fault E OpRead _); [|destruct (fault E OpWrite _)]|];
      by repeat split. }
  assert (∀ f, listed E wa f = listed E w f) as Hlist.
  { intros f. apply listed_ext; [done|by rewrite Hfo]. }
  destruct (get_pending_files_untouched wa) as (wb & Hpend & Hub).
  rewrite Hlist in Hpend.
  set (wc := if bool_decide (listed E w Needs_Action ≠ [])
             then set_logger
                    (logger wb ++
                     [(INFO, lit "Found "
                               ++ str_of_nat (length (listed E w Needs_Action))
                               ++ lit " pending file(s)")]) wb
             else wb).
  assert (untouched wa wc) as Huc.
  { subst wc. case_bool_decide; [|done].
    destruct Hub as (?&?&?&?&?&?). by repeat split. }
  assert (for_each (listed E w Needs_Action) (process_pending E) wc
          = (inl tt, wc)) as Hloop.
  { apply for_each_skipped. intros name Hname.
    destruct Huc as (Hvc & _ & _ & Hpc & _).
    unfold file_path, folder_path. rewrite Hvc, Hvp, Hpc, Hpr.
    by apply Hdone. }
  destruct (get_approved_files_untouched wc) as (wd & Happ & Hud).
  rewrite (untouched_listed E wa wc Approved Huc), Hlist, Hnone in Happ.
  destruct (save_state_untouched wd) as (we & Hsave & Hue).
  assert (cycle E w = (inl tt, we)) as ->.
  { unfold cycle, try_except.
    unfold bind at 1. rewrite Hdash.
    unfold bind at 1. rewrite Hpend.
    unfold bind at 1.
    replace ((if bool_decide (listed E w Needs_Action ≠ []) then _ else _) wb)
      with (inl tt : unit + exn, wc).
    2:{ subst wc. case_bool_decide as Hne.
        - unfold bind, log, modify. by rewrite Hloop.
        - done. }
    unfold bind at 1. rewrite Happ.
    unfold bind at 1. rewrite bool_decide_eq_false_2 by (by intros ?).
    unfold ret at 1. by rewrite Hsave. }
  cbn [snd]. rewrite Hdash. cbn [snd].
  destruct (untouched_trans wa wc we Huc (untouched_trans wc wd we Hud Hue))
    as (Hv & Hr & Hf & Hp & Hl & Hd).
  repeat split; congruence.
Qed.

(** X15.  A pass of the loop loses no file.  The Inbox and Rejected
    folders are as before the pass.  Needs_Action holds the same names,
    each still a file or still a directory: the orchestrator never takes
    a record out of Needs_Action.  Plans and Done hold every name they
    held.  Approved only loses entries, and each name that has left it
    is in Done. *)
Theorem pass_keeps_names (w : world) :
  let w' := after_cycle E w in
  folders w' Inbox = folders w Inbox ∧
  folders w' Rejected = folders w Rejected ∧
  (∀ m, is_file <$> folders w' Needs_Action !! m
        = is_file <$> folders w Needs_Action !! m) ∧
  (∀ m, is_Some (folders w Plans !! m) → is_Some (folders w' Plans !! m)) ∧
  (∀ m, is_Some (folders w Done !! m) → is_Some (folders w' Done !! m)) ∧
  (∀ m n, folders w' Approved !! m = Some n →
          folders w Approved !! m = Some n) ∧
  (∀ m, is_Some (folders w Approved !! m) →
        is_Some (folders w' Approved !! m) ∨ is_Some (folders w' Done !! m)).
Proof.
  intros w'. subst w'. unfold after_cycle.
  destruct (cycle_phases E w) as (w1 & w2 & w3 & w4 & w5 & Hs1 & Hl1 & Hs3 & Hl2
                                    & Hs5 & Hrun).
  rewrite Hrun. cbn [snd].
  destruct (loop_kept (listed E w Needs_Action) (process_pending E) w1
              (process_pending_kept)) as (w2' & Hl1' & Hk12).
  rewrite Hl1 in Hl1'. injection Hl1' as <-.
  destruct (loop_kept (listed E w2 Approved) (move_to_done E Approved) w3
              (move_to_done_kept)) as (w4' & Hl2' & Hk34).
  rewrite Hl2 in Hl2'. injection Hl2' as <-.
  change (names_kept w w5).
  eapply names_kept_trans; [apply same_folders_kept, Hs1|].
  eapply names_kept_trans; [exact Hk12|].
  eapply names_kept_trans; [apply same_folders_kept, Hs3|].
  eapply names_kept_trans; [exact Hk34|].
  apply same_folders_kept, Hs5.
Qed.

End WithEnv.

(** Once the three records of the sample vault are in the processed set,
    a pass leaves the folders alone. *)
Lemma idle_pass_witness :
  folders
    (after_cycle Sample.calm
       (set_processed_files
          {[ lit "/vault/Needs_Action/a.md"; lit "/vault/Needs_Action/b.md";
             lit "/vault/Needs_Action/c.md" ]} Sample.three_records))
  = folders Sample.three_records.
Proof.
  destruct (idle_pass Sample.calm
              (set_processed_files
                 {[ lit "/vault/Needs_Action/a.md";
                    lit "/vault/Needs_Action/b.md";
                    lit "/vault/Needs_Action/c.md" ]} Sample.three_records))
    as (Hf & _); [|reflexivity|exact Hf].
  intros name Hname. vm_compute in Hname.
  repeat (apply elem_of_cons in Hname as [->|Hname]; [set_solver|]).
  by apply elem_of_nil in Hname.
Defined.

End PassFacts.

(** ** The counts of the dashboard and the moves *)

Module CountFacts.
Import Orchestrator PyFacts DashboardFacts CycleFacts.

(** Counting the entries of a directory that gains or loses one. *)
Lemma count_insert {V} (P : list Z * V → Prop) `{∀ e, Decision (P e)}
    (m : gmap (list Z) V) (k : list Z) (x : V) :
  m !! k = None →
  length (filter P (map_to_list (<[k := x]> m)))
  = ((if decide (P (k, x)) then 1 else 0) + length (filter P (map_to_list m)))%nat.
Proof.
  intros Hk. rewrite (map_to_list_insert m k x Hk), filter_cons.
  by destruct (decide (P (k, x))).
Qed.

Lemma count_delete {V} (P : list Z * V → Prop) `{∀ e, Decision (P e)}
    (m : gmap (list Z) V) (k : list Z) (x : V) :
  m !! k = Some x →
  length (filter P (map_to_list m))
  = ((if decide (P (k, x)) then 1 else 0)
     + length (filter P (map_to_list (delete k m))))%nat.
Proof.
  intros Hk. rewrite <- (count_insert P (delete k m) k x)
    by apply lookup_delete_eq.
  by rewrite insert_delete_id.
Qed.

Section WithEnv.
Context (E : env).

(** X16.  What the dashboard counts when a record arrives in Done.
    Take an approved [.md] record that [move_to_done] moves to a Done
    folder without an entry of its name, and read the counts before and
    after the move at the same time.  The count of the Approved folder
    goes down by one.  [completed_today] goes up by one exactly when the
    name of the record carries today's date.  [completed_this_week] goes
    up by one exactly when the modification time of the record, read as
    a local date and time, is not earlier than the local date and time of
    now with the date set back by seven days; it stays 0 when that date
    cannot be formed.  The move itself leaves the name and the
    modification time as they were, so neither count looks at when the
    record was moved. *)
Theorem counts_after_move (E' : env) (w : world) (name content : list Z)
    (mtime : Z) :
  folders w Approved !! name = Some (File content mtime) →
  folders w Done !! name = None →
  suffix name = lit ".md" →
  fault E OpMove (file_path w Approved name) = false →
  fault E' OpList (folder_path w Approved) = false →
  fault E' OpList (folder_path w Done) = false →
  let w' := (move_to_done E Approved name w).2 in
  let before := set_ticks (ticks w') w in
  S (counted E' w' Approved) = counted E' before Approved ∧
  today_count E' w'
  = ((if contains (fmt_date (clock E' (ticks w'))) name then 1 else 0)
     + today_count E' before)%nat ∧
  week_count E' w'
  = match week_before (clock E' (S (ticks w'))) with
    | Some week_ago =>
      ((if match localtime E' mtime with
           | Some modified => naive_le week_ago modified
           | None => false
           end
        then 1 else 0)
       + week_count E' before)%nat
    | None => 0%nat
    end.
Proof.
  intros Hsrc Hdst Hmd Hmove Hla Hld w' before. subst w' before.
  destruct (move_to_done_run E Approved name w) as (w' & -> & Hvp & Hf & _).
  cbn [snd]. unfold counted, md_count, today_count, week_count.
  unfold folder_path in *. cbn [vault_path set_ticks folders ticks].
  rewrite Hvp, Hla, Hld, Hf. unfold folders_moved. rewrite Hsrc, Hmove, Hdst.
  rewrite fn_lookup_insert_ne, fn_lookup_insert by done.
  rewrite fn_lookup_insert, fn_lookup_insert_ne by done.
  split; [|split].
  - rewrite (count_delete _ (folders w Approved) name _ Hsrc).
    rewrite decide_True; [done|].
    unfold is_md_file. cbn [fst snd is_file]. by rewrite Hmd, bool_decide_eq_true_2.
  - rewrite (count_insert _ (folders w Done) name _ Hdst). f_equal.
    cbn [fst snd]. rewrite Hmd, bool_decide_eq_true_2 by done. cbn [andb].
    destruct (contains _ name); [by rewrite decide_True|by rewrite decide_False].
  - destruct (week_before _) as [week_ago|]; [|done].
    rewrite (count_insert _ (folders w Done) name _ Hdst). f_equal.
    cbn [fst snd]. rewrite Hmd, bool_decide_eq_true_2 by done.
    cbn [andb].
    change (match localtime E' mtime with
            | Some modified => naive_le week_ago modified
            | None => false
            end) with (modified_since E' week_ago (File content mtime)).
    destruct (modified_since E' week_ago (File content mtime));
      [by rewrite decide_True|by rewrite decide_False].
Qed.

End WithEnv.

(** The approved record of the sample vault, written long ago under a
    name without a date: the move to Done raises neither count of
    completed files. *)
Lemma counts_after_move_witness :
  today_count Sample.calm
    (move_to_done Sample.calm Approved (lit "z.md") Sample.one_approved).2
  = (0 + today_count Sample.calm
           (set_ticks
              (ticks (move_to_done Sample.calm Approved (lit "z.md")
                        Sample.one_approved).2)
              Sample.one_approved))%nat.
Proof.
  destruct (counts_after_move Sample.calm Sample.calm Sample.one_approved
              (lit "z.md") Sample.pending_doc 4)
    as (_ & Htoday & _); [done..|exact Htoday].
Defined.

End CountFacts.

(** ** The action files of the watcher *)

Module EmitterFacts.
Import Watcher Emitter PyFacts NameFacts.

(** Reduce the projections of an updated state. *)
Ltac fields :=
  unfold action_path, inbox_path in *;
  cbn [watcher needs_action inbox set_watcher set_needs_action set_inbox
       vault_path drop_folder running processed_ids file_hashes drop_dir
       scripts_dir logger ticks set_drop_dir set_scripts_dir set_logger
       set_ticks set_file_hashes fst snd] in *.

Section WithEnv.
Context `{Unicode} `{Codec} `{Casing} `{Locale} (E : env).

(** [create_action_file], case by case. *)
Lemma create_action_file_run (it : item) (w : world) :
  ∃ lg,
    create_action_file E it w =
      (inl (if record_written E it w then Some (record_name E it w) else None),
       set_watcher
         (set_logger (logger (watcher w) ++ lg)
            (set_ticks (2 + ticks (watcher w)) (watcher w)))
         (if record_written E it w
          then set_inbox (inbox_after E it w)
                 (set_needs_action
                    ((λ d, <[record_name E it w :=
                               File (record_doc E it w)
                                 (timestamp (clock E (2 + ticks (watcher w))))]> d)
                       <$> needs_action w) w)
          else if record_opened E it w
          then set_needs_action
                 ((λ d, <[record_name E it w :=
                            File [] (timestamp (clock E (2 + ticks (watcher w))))]> d)
                    <$> needs_action w) w
          else w)).
Proof.
  unfold create_action_file, record_written, record_opened, inbox_after,
    inbox_ready, record_name, record_doc, _generate_filename, write_action,
    mkdir_inbox, copy2, source_node, log, now, lift, Watcher.log, Watcher.now.
  cbv [try_except bind get modify ret raise]. fields.
  destruct w as [v na ib]. fields.
  destruct na as [d|]; fields; [|eexists; reflexivity].
  set (name := lit "FILE" ++ _).
  destruct (d !! name) as [[? ?|?]|] eqn:Hname; fields;
    try (eexists; reflexivity);
    (destruct (fault E OpWrite (joinpath (joinpath _ (lit "Needs_Action")) _));
     fields; [eexists; reflexivity|]);
    (destruct (encodable _); fields; [|eexists; reflexivity]);
    (destruct ib as [i|]; fields;
     [|destruct (fault E OpWrite (joinpath (vault_path v) (lit "Inbox")));
       fields; [eexists; reflexivity|]]);
    (destruct (drop_dir v) as [dd|]; fields; [|eexists; reflexivity]);
    (destruct (startswith _ (file_path it)); fields; [|eexists; reflexivity]);
    (destruct (dd !! _) as [[data mt|mt]|]; fields;
     try (eexists; reflexivity));
    (destruct (fault E OpRead _); fields; [eexists; reflexivity|]);
    (destruct (fault E OpWrite _); fields; [eexists; reflexivity|]);
    rewrite ?lookup_empty;
    try (destruct (i !! _) as [[? ?|?]|]; fields);
    eexists; reflexivity.
Qed.

(** When the action file can be opened. *)
Lemma record_opened_spec (it : item) (w : world) :
  record_opened E it w = true ↔
  ∃ d, needs_action w = Some d ∧
       (∀ mt, d !! record_name E it w ≠ Some (Dir mt)) ∧
       fault E OpWrite (action_path w (record_name E it w)) = false.
Proof.
  unfold record_opened. set (name := record_name E it w).
  destruct (needs_action w) as [d|]; [|split; [done|by intros (? & ? & _)]].
  destruct (d !! name) as [[c mt|mt]|] eqn:Hn.
  - rewrite negb_true_iff. split; [intros Hw; exists d; by rewrite Hn|].
    by intros (? & [= <-] & _ & ?).
  - split; [done|]. intros (? & [= <-] & Hdir & _). by destruct (Hdir mt).
  - rewrite negb_true_iff. split; [intros Hw; exists d; by rewrite Hn|].
    by intros (? & [= <-] & _ & ?).
Qed.

(** A path into the drop folder names the entry of the folder. *)
Lemma source_node_drop (w : world) d (name : list Z) :
  drop_dir (watcher w) = Some d →
  source_node w (drop_path (watcher w) name) = d !! name.
Proof.
  intros Hd. unfold source_node, drop_path, joinpath. rewrite Hd.
  rewrite app_assoc, startswith_app. by rewrite drop_app_length.
Qed.

(** X17.  [create_action_file] never raises.  The action file can be
    opened when Needs_Action exists, holds no directory under the name of
    the file and the write is not refused.  The method returns the action
    file exactly when the file can be opened and the encoding of the
    locale can encode the document.  The file then lies in Needs_Action
    under the name [FILE_<sanitized name>_<stamp>.md] and holds the
    document made from the item, whether or not the source could be
    copied.  When the method returns [None], the Inbox is as before.
    Needs_Action is as before when the file could not be opened; when it
    was opened and the document could not be encoded, an empty file of
    that name is left behind, in the place of what the name held.  In no
    case does the method touch the drop folder, the fingerprints or the
    processed ids. *)
Theorem action_file_outcome (it : item) (w : world) :
  let r := create_action_file E it w in
  let name := record_name E it w in
  let stamp := timestamp (clock E (2 + ticks (watcher w))) in
  let opened :=
    ∃ d, needs_action w = Some d ∧ (∀ mt, d !! name ≠ Some (Dir mt)) ∧
         fault E OpWrite (action_path w name) = false in
  ∃ result,
    r.1 = inl result ∧
    (result = Some name ∨ result = None) ∧
    (result = Some name ↔ opened ∧ encodable (record_doc E it w) = true) ∧
    (∀ d, result = Some name → needs_action w = Some d →
          needs_action r.2 = Some (<[name := File (record_doc E it w) stamp]> d)) ∧
    (result = None → inbox r.2 = inbox w) ∧
    (result = None → ¬ opened → needs_action r.2 = needs_action w) ∧
    (∀ d, result = None → opened → needs_action w = Some d →
          needs_action r.2 = Some (<[name := File [] stamp]> d)) ∧
    drop_dir (watcher r.2) = drop_dir (watcher w) ∧
    file_hashes (watcher r.2) = file_hashes (watcher w) ∧
    processed_ids (watcher r.2) = processed_ids (watcher w).
Proof.
  intros r name stamp opened. subst r stamp.
  destruct (create_action_file_run it w) as [lg ->]. fold name.
  eexists. split; [reflexivity|]. cbn [snd].
  pose proof (record_opened_spec it w) as Hiff. fold name opened in Hiff.
  unfold record_written.
  destruct (record_opened E it w) eqn:Ho;
    [destruct (encodable (record_doc E it w)) eqn:Hc|]; cbn [andb]; fields.
  - split; [by left|]. split.
    { split; [|done]. intros _. split; [by apply Hiff|done]. }
    split; [by intros d _ ->|]. by repeat split.
  - split; [by right|]. split.
    { split; [done|]. by intros [_ ?]. }
    split; [done|]. split; [done|]. split.
    { intros _ Hn. destruct Hn. by apply Hiff. }
    split; [by intros d _ _ ->|]. by repeat split.
  - split; [by right|]. split.
    { split; [done|]. intros [Hop _]. by apply Hiff in Hop. }
    split; [done|]. split; [done|]. split; [done|]. split.
    { intros d _ Hop. by apply Hiff in Hop. }
    by repeat split.
Qed.

(** A name with a surrogate goes into the document, which UTF-8 cannot
    encode: the method returns [None] and leaves an empty action file. *)
Example unencodable_name_leaves_empty_file :
  let r := @create_action_file Sample.latin1_only Scene.ascii_upper Scene.utf8
             Sample.calm Scene.escaped Scene.fresh_vault in
  r.1 = inl None ∧
  needs_action r.2
  = Some {[ lit "FILE_caf__txt_2026-11-03_09-05-07.md" := File [] 1793696707 ]} ∧
  inbox r.2 = Some ∅.
Proof. split; [|split]; vm_compute; reflexivity. Qed.

(** X18.  The source is copied, not moved.  When the action file has
    been written for a regular file of the drop folder, and neither
    reading the source nor writing into the Inbox is refused, the Inbox
    holds afterwards, under the name [copy_<name>], the bytes of the
    source with the modification time of the source, in the place of any
    regular file of that name; the Inbox is created when it was missing.
    The drop folder still holds the source. *)
Theorem source_is_copied (it : item) (w : world) d (data : list Z) (mtime : Z) :
  drop_dir (watcher w) = Some d →
  d !! file_name it = Some (File data mtime) →
  file_path it = drop_path (watcher w) (file_name it) →
  record_written E it w = true →
  fault E OpRead (file_path it) = false →
  fault E OpWrite (joinpath (inbox_path w) (lit "copy_" ++ file_name it)) = false →
  (inbox w = None → fault E OpWrite (inbox_path w) = false) →
  (∀ i mt, inbox w = Some i →
           i !! (lit "copy_" ++ file_name it) ≠ Some (Dir mt)) →
  let r := create_action_file E it w in
  inbox r.2
  = Some (<[lit "copy_" ++ file_name it := File data mtime]>
            (default ∅ (inbox w))) ∧
  drop_dir (watcher r.2) = Some d.
Proof.
  intros Hd Hsrc Hpath Hwritten Hread Hwrite Hmk Hdir r. subst r.
  destruct (create_action_file_run it w) as [lg ->].
  rewrite Hwritten. fields. split; [|done].
  unfold inbox_after, inbox_ready.
  rewrite Hpath, (source_node_drop w d _ Hd), Hsrc, <- Hpath, Hread.
  fields. rewrite Hwrite. cbn [orb].
  destruct (inbox w) as [i|] eqn:Hi; cbn [default].
  - destruct (i !! (lit "copy_" ++ file_name it)) as [[c mt|mt]|] eqn:Hc;
      [done| |done].
    by destruct (Hdir i mt eq_refl).
  - fields. rewrite (Hmk eq_refl). by rewrite lookup_empty.
Qed.

(** X19.  The document that [create_action_file] writes starts
    with a header that names the source; the header gives the priority
    and the fingerprint of the item and the time of detection, and its
    status is [pending].  The orchestrator therefore finds a status to
    mark: marking turns the document into one whose status is
    [in_progress]. *)
Theorem record_is_pending (it : item) (detected : list Z) :
  let doc := action_content it detected in
  startswith (lit "---" ++ [10] ++ lit "type: file_drop" ++ [10]
                ++ lit "source: " ++ file_name it ++ [10]) doc = true ∧
  contains ([10] ++ lit "priority: " ++ priority it ++ [10]) doc = true ∧
  contains ([10] ++ lit "hash: " ++ hash it ++ [10]) doc = true ∧
  contains ([10] ++ lit "detected: " ++ detected ++ [10]) doc = true ∧
  contains ([10] ++ lit "status: pending" ++ [10]) doc = true ∧
  Orchestrator.mark doc
  = replace (lit "status: pending") (lit "status: in_progress") doc ∧
  contains (lit "status: in_progress") (Orchestrator.mark doc) = true.
Proof.
  intros doc.
  assert (contains ([10] ++ lit "status: pending" ++ [10]) doc = true)
    as Hstatus.
  { subst doc. unfold action_content.
    do 12 apply contains_app_r. apply contains_app_l. reflexivity. }
  assert (contains (lit "status: pending") doc = true) as Hpending.
  { apply contains_spec in Hstatus as (a & b & ->). apply contains_spec.
    exists (a ++ [10]), ([10] ++ b). by rewrite <- !app_assoc. }
  split; [|split; [|split; [|split; [|split; [|split]]]]].
  - apply startswith_spec. eexists. subst doc. unfold action_content.
    rewrite <- !app_assoc. reflexivity.
  - subst doc. unfold action_content. do 8 apply contains_app_r.
    apply contains_spec. eexists [], _. rewrite <- !app_assoc. reflexivity.
  - subst doc. unfold action_content. do 12 apply contains_app_r.
    apply contains_spec. eexists (lit "
status: pending"), _. rewrite <- !app_assoc. reflexivity.
  - subst doc. unfold action_content. do 10 apply contains_app_r.
    apply contains_spec. eexists [], _. rewrite <- !app_assoc. reflexivity.
  - exact Hstatus.
  - unfold Orchestrator.mark. by rewrite Hpending.
  - unfold Orchestrator.mark. rewrite Hpending.
    by apply contains_replace_new.
Qed.

(** *** The loop of [run] *)

Lemma keeps_ids_ret {A} (a : A) : keeps_ids (ret a).
Proof. by intros v. Qed.

Lemma keeps_ids_bind {A B} (m : M Watcher.world A) (k : A → M Watcher.world B) :
  keeps_ids m → (∀ a, keeps_ids (k a)) → keeps_ids (bind m k).
Proof.
  intros Hm Hk v. unfold bind. specialize (Hm v).
  destruct (m v) as [[a|e] v1]; [|done].
  destruct (Hk a v1) as [? ?], Hm as [? ?]. cbn [snd] in *. split; congruence.
Qed.

Lemma keeps_ids_try {A} (m : M Watcher.world A) (h : exn → M Watcher.world A) :
  keeps_ids m → (∀ e, keeps_ids (h e)) → keeps_ids (try_except m h).
Proof.
  intros Hm Hh v. unfold try_except. specialize (Hm v).
  destruct (m v) as [[a|e] v1]; [done|].
  destruct (Hh e v1) as [? ?], Hm as [? ?]. cbn [snd] in *. split; congruence.
Qed.

Lemma keeps_ids_fold {A B} (l : list A) (body : B → A → M Watcher.world B)
    (b : B) :
  (∀ b x, keeps_ids (body b x)) → keeps_ids (fold_each l body b).
Proof.
  intros Hbody. revert b. induction l as [|x l IH]; intros b; cbn [fold_each].
  - apply keeps_ids_ret.
  - apply keeps_ids_bind; [apply Hbody|apply IH].
Qed.

Ltac keeps :=
  repeat first
    [ apply keeps_ids_ret
    | apply keeps_ids_bind; [|intros ?]
    | apply keeps_ids_try; [|intros ?]
    | apply keeps_ids_fold; intros ? ?
    | match goal with
      | |- keeps_ids (if ?b then _ else _) => destruct b
      | |- keeps_ids (match ?x with _ => _ end) => destruct x
      end
    | by intros ? ].

Lemma check_for_updates_keeps_ids : keeps_ids (check_for_updates E).
Proof.
  unfold check_for_updates, list_drop_folder, loop_body, check_file,
    _calculate_hash, _save_file_hashes, read_bytes, write_json,
    Watcher.log, get, modify.
  keeps; intros v; cbn [fst snd]; repeat case_match; done.
Qed.

Lemma holds_insert (d : option (gmap (list Z) node)) (k m : list Z) (n : node) :
  holds d m → holds ((λ g, <[k := n]> g) <$> d) m.
Proof.
  intros (g & -> & Hm). exists (<[k := n]> g). split; [done|].
  destruct (decide (m = k)) as [->|Hne];
    [by rewrite lookup_insert_eq|by rewrite lookup_insert_ne].
Qed.

Lemma grown_refl (w : world) : grown w w.
Proof. unfold grown. by repeat split. Qed.

Lemma grown_trans (w1 w2 w3 : world) : grown w1 w2 → grown w2 w3 → grown w1 w3.
Proof.
  unfold grown. intros (?&?&?&?&?&Hn1&Hi1) (?&?&?&?&?&Hn2&Hi2).
  repeat split; try congruence; auto.
Qed.

Lemma inbox_after_holds (it : item) (w : world) (m : list Z) :
  holds (inbox w) m → holds (inbox_after E it w) m.
Proof.
  intros (g & Hg & Hm). unfold inbox_after, inbox_ready. rewrite Hg.
  repeat case_match; try (by exists g);
    apply (holds_insert (Some g)); by exists g.
Qed.

(** One turn of the loop over the items. *)
Lemma emit_run (it : item) (w : world) :
  ∃ w', emit E it w = (inl tt, w') ∧ grown w w' ∧
        ticks (watcher w') = (2 + ticks (watcher w))%nat ∧
        needs_action w'
        = (if record_written E it w
           then (λ d, <[record_name E it w :=
                          File (record_doc E it w)
                            (timestamp (clock E (2 + ticks (watcher w))))]> d)
                  <$> needs_action w
           else if record_opened E it w
           then (λ d, <[record_name E it w :=
                          File [] (timestamp (clock E (2 + ticks (watcher w))))]> d)
                  <$> needs_action w
           else needs_action w).
Proof.
  unfold emit, try_except, bind.
  destruct (create_action_file_run it w) as [lg ->].
  set (wr := if record_written E it w
             then set_inbox (inbox_after E it w)
                    (set_needs_action
                       ((λ d, <[record_name E it w :=
                                  File (record_doc E it w)
                                    (timestamp
                                       (clock E (2 + ticks (watcher w))))]> d)
                          <$> needs_action w) w)
             else if record_opened E it w
             then set_needs_action
                    ((λ d, <[record_name E it w :=
                               File [] (timestamp
                                          (clock E (2 + ticks (watcher w))))]> d)
                       <$> needs_action w) w
             else w).
  assert (grown w
            (set_watcher
               (set_logger (logger (watcher w) ++ lg)
                  (set_ticks (2 + ticks (watcher w)) (watcher w))) wr)) as Hg.
  { unfold grown. subst wr.
    destruct (record_written E it w); [|destruct (record_opened E it w)];
      fields; repeat (split; [done|]); [| |done].
    - split; [intros m; apply holds_insert|intros m; apply inbox_after_holds].
    - split; [intros m; apply holds_insert|done]. }
  subst wr. destruct (record_written E it w).
  - unfold log, lift, Watcher.log, modify. fields.
    eexists. split; [reflexivity|]. split; [|by split].
    eapply grown_trans; [exact Hg|]. unfold grown. by repeat split.
  - eexists. split; [reflexivity|]. split; [exact Hg|]. split; [done|].
    by destruct (record_opened E it w).
Qed.

Lemma emit_grown (it : item) (w : world) :
  ∃ w', emit E it w = (inl tt, w') ∧ grown w w'.
Proof. destruct (emit_run it w) as (w' & ? & ? & _). eauto. Qed.

Lemma loop_grown (items : list item) (w : world) :
  ∃ w', for_each items (emit E) w = (inl tt, w') ∧ grown w w'.
Proof.
  revert w. induction items as [|it items IH]; intros w.
  - exists w. split; [done|apply grown_refl].
  - destruct (emit_grown it w) as (w1 & Hrun & Hg1).
    destruct (IH w1) as (w' & Hrun' & Hg').
    exists w'. cbn [for_each]. unfold bind. rewrite Hrun.
    split; [done|]. by eapply grown_trans.
Qed.

(** Where Needs_Action holds no directory and takes every write, each
    item gets its record. *)
Lemma loop_records (items : list item) (w : world) d :
  needs_action w = Some d →
  (∀ m mt, d !! m ≠ Some (Dir mt)) →
  (∀ name, fault E OpWrite (action_path w name) = false) →
  ∃ w', for_each items (emit E) w = (inl tt, w') ∧
        ∀ it, it ∈ items →
              ∃ k, holds (needs_action w')
                     (lit "FILE_" ++ safe_id (file_name it) ++ lit "_"
                        ++ fmt_file_stamp (clock E k) ++ lit ".md").
Proof.
  revert w d. induction items as [|it items IH]; intros w d Hd Hfiles Hw.
  - exists w. split; [done|]. by intros it ?%elem_of_nil.
  - destruct (emit_run it w) as (w1 & Hrun & Hg1 & _ & Hna).
    assert (record_opened E it w = true) as Hop.
    { unfold record_opened. rewrite Hd, Hw.
      destruct (d !! record_name E it w) as [[? ?|mt]|] eqn:Hn; [done| |done].
      by destruct (Hfiles (record_name E it w) mt). }
    assert (∃ text,
              needs_action w1
              = Some (<[record_name E it w :=
                          File text
                            (timestamp (clock E (2 + ticks (watcher w))))]> d))
      as [text Hna1].
    { rewrite Hna, Hop, Hd. cbn [fmap option_fmap option_map].
      destruct (record_written E it w); by eexists. }
    clear Hna. rename Hna1 into Hna.
    destruct (IH w1 _ Hna) as (w' & Hrun' & Hall).
    { intros m mt. destruct (decide (m = record_name E it w)) as [->|Hne];
        [by rewrite lookup_insert_eq|rewrite lookup_insert_ne by done; apply Hfiles]. }
    { intros name. unfold action_path.
      replace (vault_path (watcher w1)) with (vault_path (watcher w));
        [apply Hw|]. symmetry. apply Hg1. }
    destruct (loop_grown items w1) as (w'' & Hrun'' & Hg').
    rewrite Hrun' in Hrun''. injection Hrun'' as <-.
    exists w'. cbn [for_each]. unfold bind. rewrite Hrun.
    split; [done|]. intros it' [->|Hin]%elem_of_cons; [|by apply Hall].
    exists (ticks (watcher w)). apply Hg'.
    eexists. split; [exact Hna|]. unfold record_name.
    change (lit "FILE" ++ lit "_" ++ ?x) with (lit "FILE_" ++ x).
    by rewrite lookup_insert_eq.
Qed.

(** [BaseWatcher._save_state] writes into [scripts] and nowhere else. *)
Lemma save_state_grown (w : world) :
  ∃ w', lift (_save_state E) w = (inl tt, w') ∧ grown w w'.
Proof.
  unfold lift, _save_state, try_except, bind, Watcher.now, get, write_json,
    Watcher.log, modify.
  fields. destruct (scripts_dir (watcher w)); [destruct (fault E OpWrite _)|];
    fields; eexists; (split; [reflexivity|]); unfold grown; by repeat split.
Qed.

(** One pass: the scan, then the loop over what it reports, then saving
    the state. *)
Lemma cycle_run (w : world) :
  ∃ items v w',
    check_for_updates E (watcher w) = (inl items, v) ∧
    cycle E w = (inl tt, w') ∧
    grown (set_watcher v w) w' ∧
    (items = [] → needs_action w' = needs_action w ∧ inbox w' = inbox w) ∧
    ∃ wa wb,
      needs_action wa = needs_action w ∧
      vault_path (watcher wa) = vault_path v ∧
      for_each items (emit E) wa = (inl tt, wb) ∧
      needs_action w' = needs_action wb.
Proof.
  assert (∃ items v, check_for_updates E (watcher w) = (inl items, v))
    as (items & v & Hscan).
  { destruct (drop_dir (watcher w)) as [d|] eqn:Hd.
    - destruct (ScanFacts.check_for_updates_scan E (watcher w) d Hd)
        as (v & Hrun & _). eauto.
    - destruct (ScanFacts.check_for_updates_no_dir E (watcher w) Hd)
        as (v & Hrun & _). eauto. }
  set (wa := if bool_decide (items ≠ [])
             then set_watcher
                    (set_logger
                       (logger v ++
                        [(INFO, lit "Found " ++ str_of_nat (length items)
                                  ++ lit " new item(s) to process")]) v) w
             else set_watcher v w).
  assert (grown (set_watcher v w) wa) as Hga.
  { subst wa. case_bool_decide; [|apply grown_refl].
    unfold grown. by repeat split. }
  destruct (loop_grown items wa) as (wb & Hloop & Hgb).
  destruct (save_state_grown wb) as (wc & Hsave & Hgc).
  exists items, v, wc. split; [done|].
  assert (lift (_save_state E) wb = (inl tt, wc) →
          needs_action wc = needs_action wb ∧ inbox wc = inbox wb) as Hframe.
  { unfold lift. intros [= _ <-]. done. }
  destruct (Hframe Hsave) as [Hna Hib].
  split; [|split].
  - unfold cycle, try_except. unfold bind at 1. unfold lift at 1.
    rewrite Hscan. cbn [fst snd]. unfold bind at 1.
    replace ((if bool_decide (items ≠ []) then _ else _) (set_watcher v w))
      with (inl tt : unit + exn, wb).
    2:{ subst wa. case_bool_decide as Hne.
        - rewrite <- Hloop. reflexivity.
        - rewrite Hne in Hloop. cbn in Hloop. by injection Hloop as <-. }
    by rewrite Hsave.
  - eapply grown_trans; [exact Hga|]. by eapply grown_trans.
  - split.
    + intros ->. subst wa. cbn in Hloop. injection Hloop as <-.
      by rewrite Hna, Hib.
    + exists wa, wb. split; [subst wa; by case_bool_decide|].
      split; [subst wa; by case_bool_decide|]. by split.
Qed.

(** The scan leaves the drop folder alone. *)
Lemma scan_frame (v : Watcher.world) :
  drop_dir (check_for_updates E v).2 = drop_dir v ∧
  drop_folder (check_for_updates E v).2 = drop_folder v.
Proof.
  destruct (drop_dir v) as [d|] eqn:Hd.
  - destruct (ScanFacts.check_for_updates_scan E v d Hd)
      as (v' & -> & _ & ? & ? & _). done.
  - unfold check_for_updates, try_except, bind, list_drop_folder.
    rewrite Hd. unfold Watcher.log, modify, ret. done.
Qed.

Lemma scan_vault_path (v : Watcher.world) :
  vault_path (check_for_updates E v).2 = vault_path v.
Proof.
  destruct (drop_dir v) as [d|] eqn:Hd.
  - destruct (ScanFacts.check_for_updates_scan E v d Hd)
      as (v' & -> & _ & _ & _ & ? & _). done.
  - unfold check_for_updates, try_except, bind, list_drop_folder.
    rewrite Hd. unfold Watcher.log, modify, ret. done.
Qed.

(** X20.  A pass of the watcher's loop never raises and only adds.
    It leaves the drop folder as it is: the dropped files are neither
    removed nor changed.  The fingerprints are the ones that the scan of
    the pass has stored.  The set [processed_ids] is as before: the file
    system watcher saves the set and never puts an identifier into it.
    Every name that Needs_Action or the Inbox held is still there. *)
Theorem watcher_pass_only_adds (w : world) :
  let r := cycle E w in
  r.1 = inl tt ∧
  drop_dir (watcher r.2) = drop_dir (watcher w) ∧
  drop_folder (watcher r.2) = drop_folder (watcher w) ∧
  file_hashes (watcher r.2) = file_hashes (check_for_updates E (watcher w)).2 ∧
  processed_ids (watcher r.2) = processed_ids (watcher w) ∧
  (∀ d m, needs_action w = Some d → is_Some (d !! m) →
          ∃ d', needs_action r.2 = Some d' ∧ is_Some (d' !! m)) ∧
  (∀ d m, inbox w = Some d → is_Some (d !! m) →
          ∃ d', inbox r.2 = Some d' ∧ is_Some (d' !! m)).
Proof.
  intros r. subst r.
  destruct (cycle_run w) as (items & v & w' & Hscan & -> & Hg & _ & _).
  rewrite Hscan. cbn [fst snd].
  destruct Hg as (_ & Hdf & Hdd & Hfh & Hid & Hna & Hib). fields.
  destruct (check_for_updates_keeps_ids (watcher w)) as [Hids _].
  rewrite Hscan in Hids. cbn [snd] in Hids.
  destruct (scan_frame (watcher w)) as [Hdd' Hdf'].
  rewrite Hscan in Hdd', Hdf'. cbn [snd] in Hdd', Hdf'.
  split; [done|]. split; [congruence|]. split; [congruence|].
  split; [done|]. split; [congruence|]. split.
  - intros d m Hd Hm. apply Hna. exists d. by rewrite Hd.
  - intros d m Hd Hm. apply Hib. exists d. by rewrite Hd.
Qed.

(** Where no file differs from its fingerprint the scan changes
    nothing. *)
Lemma scan_unchanged (folder : list Z) (l : list (list Z * node))
    (st : list item * gmap (list Z) (list Z)) :
  (∀ name data mt, (name, File data mt) ∈ l →
     changed E folder st.2 name data = false) →
  scan E folder l st = st.
Proof.
  induction l as [|[name n] l IH]; intros Hl; [done|].
  unfold scan. cbn [foldl]. fold (scan E folder l (scan_step E folder st (name, n))).
  assert (scan_step E folder st (name, n) = st) as ->.
  { unfold scan_step. cbn [fst snd]. destruct n as [data mt|mt]; [|done].
    rewrite (Hl name data mt); [done|by left]. }
  apply IH. intros ????. eapply Hl. by right.
Qed.

(** A scan that finds the fingerprints of the scan before it reports
    nothing and stores nothing. *)
Lemma settled_scan (v v1 : Watcher.world) :
  drop_dir v1 = drop_dir v → drop_folder v1 = drop_folder v →
  file_hashes v1 = file_hashes (check_for_updates E v).2 →
  (check_for_updates E v1).1 = inl [] ∧
  file_hashes (check_for_updates E v1).2 = file_hashes v1.
Proof.
  intros Hdd Hdf Hfh.
  destruct (drop_dir v) as [d|] eqn:Hd.
  - destruct (ScanFacts.check_for_updates_scan E v d Hd)
      as (va & Hrun & Hfha & _).
    rewrite Hrun in Hfh. cbn [snd] in Hfh. rewrite Hfha in Hfh.
    destruct (ScanFacts.check_for_updates_scan E v1 d)
      as (vb & Hrun1 & Hfhb & _); [congruence|].
    rewrite Hrun1. cbn [fst snd]. rewrite Hfhb, Hdf.
    rewrite scan_unchanged; [done|].
    intros name data mt Hin. cbn [snd]. rewrite Hfh.
    apply (ScanFacts.scan_settles E _ _ _ _ _ mt);
      [apply ScanFacts.NoDup_listing|done].
  - destruct (ScanFacts.check_for_updates_no_dir E v1) as (vb & Hrun1 & _ & Hfhb);
      [congruence|].
    by rewrite Hrun1.
Qed.

(** X21.  A file is turned into an action file once.  A second pass
    of the watcher's loop over a drop folder that has not changed since
    the first reports nothing: it writes no action file, copies nothing
    into the Inbox and stores no fingerprint.  Needs_Action and the Inbox
    are as the first pass has left them. *)
Theorem second_pass_adds_nothing (w : world) :
  let w1 := (cycle E w).2 in
  let w2 := (cycle E w1).2 in
  (check_for_updates E (watcher w1)).1 = inl [] ∧
  needs_action w2 = needs_action w1 ∧
  inbox w2 = inbox w1 ∧
  file_hashes (watcher w2) = file_hashes (watcher w1) ∧
  drop_dir (watcher w2) = drop_dir (watcher w).
Proof.
  intros w1 w2. subst w1 w2.
  destruct (cycle_run w) as (items & v & w1 & Hscan & -> & Hg & _ & _).
  cbn [snd].
  destruct Hg as (_ & Hdf & Hdd & Hfh & _). fields.
  destruct (scan_frame (watcher w)) as [Hdd' Hdf'].
  rewrite Hscan in Hdd', Hdf'. cbn [snd] in Hdd', Hdf'.
  destruct (settled_scan (watcher w) (watcher w1)) as [Hnone Hsame];
    [congruence|congruence|by rewrite Hscan|].
  destruct (cycle_run w1)
    as (items2 & v2 & w2 & Hscan2 & -> & Hg2 & Hquiet & _).
  cbn [snd]. rewrite Hscan2 in Hnone, Hsame. cbn [fst snd] in Hnone, Hsame.
  injection Hnone as ->.
  destruct (Hquiet eq_refl) as [Hna Hib].
  destruct Hg2 as (_ & _ & Hdd2 & Hfh2 & _). fields.
  destruct (scan_frame (watcher w1)) as [Hdd3 _].
  rewrite Hscan2 in Hdd3. cbn [snd] in Hdd3.
  split; [by rewrite Hscan2|]. split; [done|]. split; [done|].
  split; congruence.
Qed.

(** X22.  Every file that the scan of a pass reports gets an action
    file in that pass, provided Needs_Action exists, holds no directory
    and takes every write: after the pass Needs_Action holds, for each
    reported item, a name of the form [FILE_<sanitized name>_<stamp>.md]
    whose stamp is a reading of the clock. *)
Theorem every_report_gets_a_record (w : world) d (items : list item) :
  needs_action w = Some d →
  (∀ m mt, d !! m ≠ Some (Dir mt)) →
  (∀ name, fault E OpWrite (action_path w name) = false) →
  (check_for_updates E (watcher w)).1 = inl items →
  ∀ it, it ∈ items →
    ∃ k d',
      needs_action (cycle E w).2 = Some d' ∧
      is_Some (d' !! (lit "FILE_" ++ safe_id (file_name it) ++ lit "_"
                        ++ fmt_file_stamp (clock E k) ++ lit ".md")).
Proof.
  intros Hd Hfiles Hw Hitems it Hit.
  destruct (cycle_run w)
    as (items' & v & w' & Hscan & -> & _ & _ & wa & wb & Hna & Hvp & Hloop & Hna').
  rewrite Hscan in Hitems. injection Hitems as ->.
  pose proof (scan_vault_path (watcher w)) as Hvp'.
  rewrite Hscan in Hvp'. cbn [snd] in Hvp'.
  destruct (loop_records items wa d) as (wb' & Hloop' & Hall);
    [congruence|done| |].
  { intros name. unfold action_path. rewrite Hvp, Hvp'. apply Hw. }
  rewrite Hloop in Hloop'. injection Hloop' as <-.
  destruct (Hall it Hit) as (k & d' & Hd' & Hsome).
  exists k, d'. cbn [snd]. by rewrite Hna'.
Qed.

(** X23.  The name of an action file does not identify the item.
    When a second item gets the name that the first one got, because
    their names sanitize alike and the clock shows the same second, its
    action file is written over the first: Needs_Action has gained one
    entry for the two items, and it holds the document of the second. *)
Theorem later_record_replaces (it1 it2 : item) (w : world) d :
  let w1 := (create_action_file E it1 w).2 in
  let w2 := (create_action_file E it2 w1).2 in
  needs_action w = Some d →
  record_written E it1 w = true →
  record_written E it2 w1 = true →
  record_name E it2 w1 = record_name E it1 w →
  needs_action w2
  = Some (<[record_name E it1 w :=
              File (record_doc E it2 w1)
                (timestamp (clock E (4 + ticks (watcher w))))]> d).
Proof.
  intros w1 w2 Hd Hw1 Hw2 Hname. subst w2.
  destruct (create_action_file_run it2 w1) as [lg2 ->].
  rewrite Hw2, Hname. cbn [snd]. fields.
  subst w1.
  destruct (create_action_file_run it1 w) as [lg1 Hrun1].
  rewrite Hrun1 in *. cbn [snd] in *. rewrite Hw1 in *. fields.
  rewrite Hd. cbn [fmap option_fmap option_map].
  by rewrite insert_insert_eq.
Qed.

End WithEnv.

(** The file of the sample drop folder is copied into the empty Inbox. *)
Lemma source_is_copied_witness :
  inbox (@create_action_file Sample.latin1_only Scene.ascii_upper Scene.utf8 Sample.calm
           Scene.invoice Scene.fresh_vault).2
  = Some (<[lit "copy_" ++ file_name Scene.invoice := File (lit "please pay") 5]>
            (default ∅ (inbox Scene.fresh_vault))).
Proof.
  refine (proj1 (@source_is_copied Sample.latin1_only Scene.ascii_upper
                   Scene.utf8 Sample.calm Scene.invoice Scene.fresh_vault
                   {[ lit "urgent_invoice.txt" := File (lit "please pay") 5 ]}
                   (lit "please pay") 5 eq_refl _ eq_refl _ eq_refl eq_refl
                   _ _)).
  - vm_compute. reflexivity.
  - vm_compute. reflexivity.
  - intros [=].
  - intros i mt [= <-]. by rewrite lookup_empty.
Defined.

(** The file of the sample drop folder gets its action file. *)
Lemma every_report_gets_a_record_witness :
  ∃ k d',
    needs_action
      (@cycle Sample.latin1_only Sample.tagged_codec Scene.ascii_upper
         Scene.utf8 Sample.calm Scene.fresh_vault).2 = Some d' ∧
    is_Some (d' !! (lit "FILE_"
                      ++ @safe_id Sample.latin1_only (file_name Scene.invoice)
                      ++ lit "_" ++ fmt_file_stamp (clock Sample.calm k)
                      ++ lit ".md")).
Proof.
  apply (@every_report_gets_a_record Sample.latin1_only Sample.tagged_codec
           Scene.ascii_upper Scene.utf8 Sample.calm Scene.fresh_vault ∅
           [Scene.invoice]).
  - reflexivity.
  - intros m mt. by rewrite lookup_empty.
  - reflexivity.
  - vm_compute. reflexivity.
  - apply list_elem_of_here.
Defined.

(** [a b.txt] and [a_b.txt], announced in the same second, share one
    action file. *)
Lemma later_record_replaces_witness :
  needs_action
    (@create_action_file Sample.latin1_only Scene.ascii_upper Scene.utf8 Sample.calm
       Scene.underscored
       (@create_action_file Sample.latin1_only Scene.ascii_upper Scene.utf8 Sample.calm
          Scene.spaced Scene.fresh_vault).2).2
  = Some (<[lit "FILE_a_b_txt_2026-11-03_09-05-07.md" :=
              File (@record_doc Scene.ascii_upper Sample.calm Scene.underscored
                      (@create_action_file Sample.latin1_only Scene.ascii_upper
                         Scene.utf8 Sample.calm Scene.spaced
                         Scene.fresh_vault).2)
                1793696707]> ∅).
Proof.
  apply (@later_record_replaces Sample.latin1_only Scene.ascii_upper
           Scene.utf8 Sample.calm Scene.spaced Scene.underscored
           Scene.fresh_vault ∅).
  - reflexivity.
  - vm_compute. reflexivity.
  - vm_compute. reflexivity.
  - vm_compute. reflexivity.
Defined.

End EmitterFacts.

(** ** Generated file names *)

Module NamingFacts.
Import Watcher PyFacts NameFacts.

Section WithUnicode.
Context `{Unicode}.

Lemma safe_id_chars (identifier : list Z) (c : Z) :
  c ∈ safe_id identifier → isalnum c || contains [c] (lit "-_") = true.
Proof.
  unfold safe_id. intros (x & -> & _)%list_elem_of_fmap.
  destruct (isalnum x || contains [x] (lit "-_")) eqn:Hx; [done|].
  reflexivity.
Qed.

Lemma safe_id_idempotent (identifier : list Z) :
  safe_id (safe_id identifier) = safe_id identifier.
Proof.
  unfold safe_id at 1. rewrite <- (list_fmap_id (safe_id identifier)) at 2.
  apply list_fmap_ext. intros i c Hc. cbn [id].
  by rewrite (safe_id_chars identifier c) by (by eapply list_elem_of_lookup_2).
Qed.

(** Neither a path separator nor a dot survives sanitizing. *)
Lemma safe_id_plain (identifier : list Z) :
  (47 ∉ safe_id identifier) ∧ (92 ∉ safe_id identifier) ∧
  (46 ∉ safe_id identifier).
Proof. repeat split; by intros ?%safe_id_chars. Qed.

(** X24.  The name that [_generate_filename] returns has the suffix
    [.md] and carries the date of the clock reading, so the orchestrator
    takes a regular file of that name for an action record and counts it,
    once in Done, among the files completed on that date.  The identifier
    contributes no path separator: the name has none unless the prefix
    has one.  Sanitizing twice is sanitizing once, so an identifier that
    is already sanitized gives the same name. *)
Theorem generated_name_safe (E : env) (prefix identifier : list Z)
    (w : world) :
  ∃ name,
    (_generate_filename E prefix identifier w).1 = inl name ∧
    suffix name = lit ".md" ∧
    (∀ content mtime, Orchestrator.is_md_file (name, File content mtime) = true) ∧
    contains (fmt_date (clock E (ticks w))) name = true ∧
    (47 ∉ prefix → 47 ∉ name) ∧
    (_generate_filename E prefix (safe_id identifier) w).1 = inl name.
Proof.
  eexists. split; [reflexivity|].
  destruct (safe_id_plain identifier) as (Hslash & _ & Hdot).
  pose proof (file_stamp_chars (clock E (ticks w))) as Hstamp.
  rewrite Forall_forall in Hstamp.
  assert (suffix (prefix ++ lit "_" ++ safe_id identifier ++ lit "_"
                    ++ fmt_file_stamp (clock E (ticks w)) ++ lit ".md")
          = lit ".md") as Hsuffix.
  { rewrite !app_assoc. apply suffix_md. by destruct prefix. }
  split; [exact Hsuffix|]. split; [|split; [|split]].
  - intros content mtime. unfold Orchestrator.is_md_file. cbn [fst snd is_file].
    by rewrite Hsuffix, bool_decide_eq_true_2.
  - do 4 apply contains_app_r. apply contains_app_l.
    unfold fmt_file_stamp. apply contains_here.
  - intros Hprefix Hin.
    rewrite !elem_of_app in Hin.
    destruct Hin as [?|[Hin|[?|[Hin|[Hin|Hin]]]]]; try done.
    + by repeat (apply elem_of_cons in Hin as [?|Hin]; [done|]);
        apply elem_of_nil in Hin.
    + by repeat (apply elem_of_cons in Hin as [?|Hin]; [done|]);
        apply elem_of_nil in Hin.
    + apply list_elem_of_In, Hstamp in Hin. lia.
    + by repeat (apply elem_of_cons in Hin as [?|Hin]; [done|]);
        apply elem_of_nil in Hin.
  - unfold _generate_filename, bind, now, ret. cbn [fst].
    by rewrite safe_id_idempotent.
Qed.

End WithUnicode.

End NamingFacts.
